(** * Voice Transcriber: the extension host services, embedded and verified

    A shallow embedding of the TypeScript services of the extension
    ([whisperService], [storageService], [openaiService],
    [audioRecorderService]) and of the panel's transcription handler,
    followed by the properties the specification states about them.

    Conventions.
    - A Node [Buffer] is a [list byte]; [subarray] is the byte range.
    - A JavaScript string is a [string] that holds its UTF-8 encoding, as
      the string literals of this file do (a lone surrogate is encoded
      like any other code point of its range, on three bytes); its
      [length] is [Js.length], the number of its UTF-16 code units.  The
      substrings the code looks for are ASCII: such a text occurs in
      the bytes exactly when it occurs in the code units.
    - Asynchronous methods are computations in the monad [Async]: they
      thread the state of the outside world and settle as [Resolved],
      [Rejected] or never ([Pending]).  One job runs at a time, so awaited
      steps run in program order.
    - Values that cross a type assertion ([as { text: string }], ...) are
      taken at the asserted TypeScript type; the body of an error
      response may also be [null], on which the code throws.
    - Whatever is thrown is an [Error] object; posting to the webview,
      showing a notification and writing to the extension's stores do
      not fail. *)

From Stdlib Require Import ZArith QArith Qround Lia Bool.
From Stdlib Require Import DecimalString Strings.Byte.
From stdpp Require Import base list strings gmap.

#[local] Open Scope string_scope.
#[local] Open Scope list_scope.

(** ** JavaScript string primitives *)

Module Js.

(** [s.includes(sub)]: does [sub] occur in [s] as a contiguous substring. *)
Fixpoint includes (s sub : string) : bool :=
  String.prefix sub s ||
  match s with
  | EmptyString => false
  | String _ s' => includes s' sub
  end.

(** The mathematical reading of [includes]. *)
Definition occurs_in (sub s : string) : Prop :=
  exists pre post : string, s = pre +:+ sub +:+ post.

(** Truthiness of a string ([""] is falsy). *)
Definition truthy (s : string) : bool :=
  match s with
  | EmptyString => false
  | String _ _ => true
  end.

(** Truthiness of [string | undefined]. *)
Definition truthy_opt (o : option string) : bool :=
  match o with
  | Some s => truthy s
  | None => false
  end.

(** [String(n)] for a non-negative integer. *)
Definition string_of_nat (n : nat) : string :=
  NilZero.string_of_uint (Nat.to_uint n).

(** [arr.join(sep)] on an array of strings. *)
Definition join (sep : string) (arr : list string) : string :=
  String.concat sep arr.

(** The UTF-16 code units a byte of the encoding stands for: one for an
    ASCII byte ([0xxxxxxx]) and for the first byte of a character of two
    or three bytes ([110xxxxx], [1110xxxx]), two for the first byte of a
    character of four bytes ([11110xxx], a surrogate pair), none for a
    continuation byte ([10xxxxxx]). *)
Definition code_units (c : Ascii.ascii) : nat :=
  let 'Ascii.Ascii _ _ _ _ b4 b5 b6 b7 := c in
  if negb b7 then 1
  else if negb b6 then 0
  else if b5 && b4 then 2
  else 1.

(** [s.length] *)
Fixpoint length (s : string) : nat :=
  match s with
  | EmptyString => 0
  | String c s' => code_units c + length s'
  end.

(** The first half of the surrogate pair of a character of four bytes,
    as a string: [lead] is the first byte of the character and [rest]
    what follows it.  The character is [11110www 10zzzzzz 10yyyyyy
    10xxxxxx]; its high surrogate is [110110hh hhhhhhhh] with
    [h = wwwzzzzzzyy - 1000000] (in binary), on three bytes
    [11101101 1010hhhh 10hhhhhh]. *)
Definition high_surrogate (lead : Ascii.ascii) (rest : string) : string :=
  let second := match rest with String b _ => b | EmptyString => Ascii.zero end in
  let third :=
    match rest with String _ (String b _) => b | _ => Ascii.zero end in
  let 'Ascii.Ascii w0 w1 w2 _ _ _ _ _ := lead in
  let 'Ascii.Ascii z0 z1 z2 z3 z4 z5 _ _ := second in
  let 'Ascii.Ascii _ _ _ _ y4 y5 _ _ := third in
  let plane := Ascii.N_of_digits [z4; z5; w0; w1; w2] in
  String (Ascii.ascii_of_N 237)
    (String (Ascii.ascii_of_N (160 + (plane - 1) mod 16))
       (String (Ascii.Ascii y4 y5 z0 z1 z2 z3 false true) EmptyString)).

(** [s.substring(0, n)]: the first [n] code units.  A character is kept
    with all its bytes; when the cut falls between the two halves of a
    surrogate pair, the first half alone is kept. *)
Fixpoint substring_to (n : nat) (s : string) : string :=
  match s with
  | EmptyString => EmptyString
  | String c s' =>
      match code_units c with
      | O => String c (substring_to n s')
      | S _ as units =>
          if (units <=? n)%nat then String c (substring_to (n - units) s')
          else if (n =? 0)%nat then EmptyString
          else high_surrogate c s'
      end
  end.

End Js.

(** ** [src/types/index.ts] *)

Inductive Provider := openai | local.

Inductive CleanupModel := gpt_4_1_nano | gpt_4_1_mini | gpt_4_1.

Definition model_name (m : CleanupModel) : string :=
  match m with
  | gpt_4_1_nano => "gpt-4.1-nano"
  | gpt_4_1_mini => "gpt-4.1-mini"
  | gpt_4_1 => "gpt-4.1"
  end.

Record TranscriberSettings := mkSettings {
  provider : Provider;
  localApiUrl : string;
  language : string;
  enableCleanup : bool;
  cleanupModel : CleanupModel;
}.

Definition defaultSettings : TranscriberSettings := {|
  provider := openai;
  localApiUrl := "http://localhost:8000/v1/audio/transcriptions";
  language := "";
  enableCleanup := true;
  cleanupModel := gpt_4_1_nano;
|}.

(** [Partial<TranscriberSettings>]: every field may be absent. *)
Record PartialSettings := mkPartial {
  p_provider : option Provider;
  p_localApiUrl : option string;
  p_language : option string;
  p_enableCleanup : option bool;
  p_cleanupModel : option CleanupModel;
}.

Record HistoryEntry := mkEntry {
  entry_id : string;
  entry_date : string;
  entry_text : string;
  entry_preview : string;
  entry_duration : Z;
}.

Record RecordingSession := mkSession {
  startTime : Z;
  audioData : string;
  isPaused : bool;
  elapsedTime : Z;
}.

(** The messages of [MessageToWebview] that the transcription handler posts. *)
Inductive MessageToWebview :=
| transcriptionStart
| transcriptionProgress (message : string)
| transcriptionComplete (text : string) (cleaned : option string)
| transcriptionError (message : string).

Definition Buffer := list Byte.byte.

Definition provider_eqb (a b : Provider) : bool :=
  match a, b with
  | openai, openai | local, local => true
  | _, _ => false
  end.

(** ** The outside world: HTTP, the extension's stores, the host UI *)

(** A thrown JavaScript [Error]; [error.message] is its payload. *)
Inductive JsError := Error (message : string).

Definition error_message (e : JsError) : string :=
  match e with Error m => m end.

Record Blob := mkBlob { blob_parts : Buffer; blob_type : string }.

Inductive FormValue :=
| FormFile (blob : Blob) (filename : string)
| FormField (value : string).

Record ChatMessage := mkChatMessage { role : string; content : string }.

(** The JSON body of a chat-completion request.  Numbers are exact
    rationals: [0.3] is [3/10]. *)
Record ChatCompletionRequest := mkChatRequest {
  model : string;
  messages : list ChatMessage;
  temperature : Q;
  max_tokens : Z;
}.

Inductive RequestBody :=
| FormData (fields : list (string * FormValue))
| JsonBody (json : ChatCompletionRequest).

Record Request := mkRequest {
  url : string;
  method : string;
  headers : list (string * string);
  body : RequestBody;
}.

(** [{ error?: { message?: string } }] *)
Record ErrorDetail := mkErrorDetail { message : option string }.
Record ErrorData := mkErrorData { error : option ErrorDetail }.

(** What the body of an error response parses to: [null], or a value
    read at the type above. *)
Inductive ErrorBody :=
| JsonNull
| JsonValue (errorData : ErrorData).

(** [{ text: string }] *)
Record TranscriptionResult := mkTranscription { text : string }.

(** [{ choices: Array<{ message: { content: string } }> }] *)
Record Choice := mkChoice { choice_message : ChatMessage }.
Record ChatCompletion := mkCompletion { choices : list Choice }.

(** An HTTP response, split on [response.ok].  [json] is what
    [response.json()] settles to: [inl e] when it rejects with [e],
    [inr v] when it resolves, with [v] at the type the caller asserts in
    that branch. *)
Inductive Response (T : Type) :=
| HttpOk (json : JsError + T)
| HttpError (status : nat) (json : JsError + ErrorBody).
Arguments HttpOk {T} json.
Arguments HttpError {T} status json.

(** How a [fetch] settles. *)
Inductive FetchOutcome (T : Type) :=
| NetworkError (e : JsError)
| Responded (r : Response T)
| NeverSettles.
Arguments NetworkError {T} e.
Arguments Responded {T} r.
Arguments NeverSettles {T}.

(** The remote side: its answer to a request may depend on everything
    that was sent before. *)
Definition Upstream (T : Type) : Type := list Request -> Request -> FetchOutcome T.

(** What the host shows: messages posted to the webview, warning and
    error notifications. *)
Record Ui := mkUi {
  posted : list MessageToWebview;
  warnings : list string;
  errors : list string;
}.

(** [context.globalState], by key; [None] is a key never written. *)
Record GlobalState := mkGlobalState {
  gs_settings : option PartialSettings;
  gs_history : option (list HistoryEntry);
  gs_session : option RecordingSession;
}.

Record World := mkWorld {
  secret_apiKey : option string;   (* context.secrets *)
  globalState : GlobalState;
  requests : list Request;         (* every outbound HTTP request, in order *)
  ui : Ui;
}.

Definition set_ui (f : Ui -> Ui) (w : World) : World :=
  mkWorld (secret_apiKey w) (globalState w) (requests w) (f (ui w)).

Definition set_globalState (f : GlobalState -> GlobalState) (w : World) : World :=
  mkWorld (secret_apiKey w) (f (globalState w)) (requests w) (ui w).

Definition sent (r : Request) (w : World) : World :=
  mkWorld (secret_apiKey w) (globalState w) (requests w ++ [r]) (ui w).

(** ** Promises *)

Inductive Outcome (A : Type) :=
| Resolved (a : A)
| Rejected (e : JsError)
| Pending.
Arguments Resolved {A} a.
Arguments Rejected {A} e.
Arguments Pending {A}.

Definition Async (A : Type) : Type := World -> Outcome A * World.

Definition ret {A} (a : A) : Async A := fun w => (Resolved a, w).
Definition throw {A} (e : JsError) : Async A := fun w => (Rejected e, w).
Definition never {A} : Async A := fun w => (Pending, w).

Definition bind {A B} (m : Async A) (k : A -> Async B) : Async B :=
  fun w =>
    match m w with
    | (Resolved a, w') => k a w'
    | (Rejected e, w') => (Rejected e, w')
    | (Pending, w') => (Pending, w')
    end.

(** [try { m } catch (e) { h e }] *)
Definition try_catch {A} (m : Async A) (h : JsError -> Async A) : Async A :=
  fun w =>
    match m w with
    | (Rejected e, w') => h e w'
    | settled => settled
    end.

Definition modify (f : World -> World) : Async unit := fun w => (Resolved tt, f w).
Definition gets {A} (f : World -> A) : Async A := fun w => (Resolved (f w), w).

Notation "x <- c1 ;; c2" := (bind c1 (fun x => c2))
  (at level 100, c1 at next level, right associativity).
Notation "c1 ;; c2" := (bind c1 (fun _ => c2))
  (at level 100, right associativity).

(** [fetch(url, init)]: the request goes out, the remote side decides. *)
Definition fetch {T} (upstream : Upstream T) (req : Request) : Async (Response T) :=
  fun w =>
    match upstream (requests w) req with
    | NetworkError e => (Rejected e, sent req w)
    | Responded r => (Resolved r, sent req w)
    | NeverSettles => (Pending, sent req w)
    end.

(** Reading [.error] of [null]. *)
Definition null_body : JsError :=
  Error "Cannot read properties of null (reading 'error')".

(** [errorData.error?.message || fallback], with
    [errorData = await response.json().catch(() => ({}))]: the message
    ([inr]), or what the expression throws ([inl]). *)
Definition error_message_or (json : JsError + ErrorBody) (fallback : string)
  : JsError + string :=
  let errorData :=
    match json with inl _ => JsonValue (mkErrorData None) | inr d => d end in
  match errorData with
  | JsonNull => inl null_body
  | JsonValue data =>
      match error data with
      | Some detail =>
          match message detail with
          | Some m => if Js.truthy m then inr m else inr fallback
          | None => inr fallback
          end
      | None => inr fallback
      end
  end.

(** ** [storageService.ts] *)

Module StorageService.

Definition getApiKey : Async (option string) := gets secret_apiKey.

(** [{ ...a, ...b }] at the type of the settings. *)
Definition spread (a : TranscriberSettings) (b : PartialSettings) : TranscriberSettings := {|
  provider := default (provider a) (p_provider b);
  localApiUrl := default (localApiUrl a) (p_localApiUrl b);
  language := default (language a) (p_language b);
  enableCleanup := default (enableCleanup a) (p_enableCleanup b);
  cleanupModel := default (cleanupModel a) (p_cleanupModel b);
|}.

(** The object literal [{}] as a [Partial<TranscriberSettings>]. *)
Definition empty_object : PartialSettings := mkPartial None None None None None.

Definition getSettings (w : World) : TranscriberSettings :=
  let saved := default empty_object (gs_settings (globalState w)) in
  spread defaultSettings saved.

Definition getHistory (w : World) : list HistoryEntry :=
  default [] (gs_history (globalState w)).

(** [Array.prototype.unshift] and [Array.prototype.pop], on the array. *)
Definition unshift {A} (x : A) (arr : list A) : list A := x :: arr.
Definition pop {A} (arr : list A) : list A := removelast arr.

Definition update_history (h : list HistoryEntry) (g : GlobalState) : GlobalState :=
  mkGlobalState (gs_settings g) (Some h) (gs_session g).

Definition addToHistory (entry : HistoryEntry) : Async unit :=
  history <- gets getHistory ;;
  let history := unshift entry history in
  let history := if (10 <? length history)%nat then pop history else history in
  modify (set_globalState (update_history history)).

Definition clearHistory : Async unit :=
  modify (set_globalState (update_history [])).

Definition getRecordingSession (w : World) : option RecordingSession :=
  gs_session (globalState w).

Definition update_session (s : option RecordingSession) (g : GlobalState) : GlobalState :=
  mkGlobalState (gs_settings g) (gs_history g) s.

Definition saveRecordingSession (session : option RecordingSession) : Async unit :=
  modify (set_globalState (update_session session)).

(** Adding entries one after the other, as successive [addToHistory]
    calls do. *)
Fixpoint addAllToHistory (entries : list HistoryEntry) : Async unit :=
  match entries with
  | [] => ret tt
  | e :: rest => addToHistory e ;; addAllToHistory rest
  end.

End StorageService.

(** ** [whisperService.ts] *)

Module WhisperService.

(** 24MB (leaving margin for the 25MB limit). *)
Definition MAX_FILE_SIZE : nat := 24 * 1024 * 1024.
Arguments MAX_FILE_SIZE : simpl never.

Definition getExtension (mimeType : string) : string :=
  if Js.includes mimeType "mp3" || Js.includes mimeType "mpeg" then "mp3"
  else if Js.includes mimeType "webm" then "webm"
  else if Js.includes mimeType "wav" then "wav"
  else if Js.includes mimeType "ogg" then "ogg"
  else "mp3".

(** [buffer.subarray(start, end)] for indices that are not negative. *)
Definition subarray (buffer : Buffer) (start end_ : nat) : Buffer :=
  take (end_ - start) (drop start buffer).

(** The [while] loop of [splitBuffer].  [fuel] bounds the number of
    iterations; [None] is a loop that has not ended within it. *)
Fixpoint splitBuffer_loop (fuel : nat) (buffer : Buffer) (chunkSize offset : nat)
    (chunks : list Buffer) : option (list Buffer) :=
  if (offset <? length buffer)%nat then
    match fuel with
    | O => None
    | S fuel' =>
        let end_ := Nat.min (offset + chunkSize) (length buffer) in
        splitBuffer_loop fuel' buffer chunkSize end_ (chunks ++ [subarray buffer offset end_])
    end
  else Some chunks.

(** Every iteration that advances consumes at least one byte, so
    [length buffer] iterations are as many as the loop can take; with
    [chunkSize = 0] on a buffer that is not empty the source loops
    forever, and the model answers [None]. *)
Definition splitBuffer (buffer : Buffer) (chunkSize : nat) : option (list Buffer) :=
  splitBuffer_loop (length buffer) buffer chunkSize 0 [].

(** The progress callback: it acts on what the host shows. *)
Definition ProgressCallback : Type := string -> Ui -> Ui.

Definition endpoint (settings : TranscriberSettings) : string :=
  match provider settings with
  | openai => "https://api.openai.com/v1/audio/transcriptions"
  | local => localApiUrl settings
  end.

(** The request [transcribeSingle] builds. *)
Definition single_request (audioBuffer : Buffer) (mimeType : string)
    (settings : TranscriberSettings) (apiKey : option string) : Request :=
  let extension := getExtension mimeType in
  let blob := mkBlob audioBuffer mimeType in
  let formData :=
    [("file", FormFile blob ("audio." +:+ extension));
     ("model", FormField "whisper-1")] ++
    (if Js.truthy (language settings)
     then [("language", FormField (language settings))] else []) in
  let headers :=
    match apiKey with
    | Some key =>
        if Js.truthy key && provider_eqb (provider settings) openai
        then [("Authorization", "Bearer " +:+ key)] else []
    | None => []
    end in
  mkRequest (endpoint settings) "POST" headers (FormData formData).

Section Service.

Variable upstream : Upstream TranscriptionResult.

Definition transcribeSingle (audioBuffer : Buffer) (mimeType : string)
    (settings : TranscriberSettings) (apiKey : option string) : Async string :=
  response <- fetch upstream (single_request audioBuffer mimeType settings apiKey) ;;
  match response with
  | HttpError status json =>
      match error_message_or json
              ("Transcription failed with status " +:+ Js.string_of_nat status) with
      | inr errorMessage => throw (Error errorMessage)
      | inl thrown => throw thrown
      end
  | HttpOk (inl e) => throw e
  | HttpOk (inr result) => ret (text result)
  end.

Definition progress_message (i total : nat) : string :=
  "Processing chunk " +:+ Js.string_of_nat (i + 1) +:+ "/" +:+
  Js.string_of_nat total +:+ "...".

(** The [for] loop of [transcribeChunked], from index [i] on: [rest] is
    [chunks.slice(i)] and [total] is [chunks.length]. *)
Fixpoint transcribeChunks (rest : list Buffer) (i total : nat) (mimeType : string)
    (settings : TranscriberSettings) (apiKey : option string)
    (onProgress : option ProgressCallback) (transcriptions : list string)
    : Async (list string) :=
  match rest with
  | [] => ret transcriptions
  | chunk :: rest' =>
      match onProgress with
      | Some callback => modify (set_ui (callback (progress_message i total)))
      | None => ret tt
      end ;;
      text <- transcribeSingle chunk mimeType settings apiKey ;;
      transcribeChunks rest' (S i) total mimeType settings apiKey onProgress
        (transcriptions ++ [text])
  end.

Definition transcribeChunked (audioBuffer : Buffer) (mimeType : string)
    (settings : TranscriberSettings) (apiKey : option string)
    (onProgress : option ProgressCallback) : Async string :=
  match splitBuffer audioBuffer MAX_FILE_SIZE with
  | None => never
  | Some chunks =>
      transcriptions <-
        transcribeChunks chunks 0 (length chunks) mimeType settings apiKey onProgress [] ;;
      ret (Js.join " " transcriptions)
  end.

Definition missing_key : JsError := Error "Please enter your OpenAI API key in Settings.".

Definition transcribe (audioBuffer : Buffer) (mimeType : string)
    (settings : TranscriberSettings) (onProgress : option ProgressCallback)
    : Async string :=
  apiKey <- StorageService.getApiKey ;;
  if provider_eqb (provider settings) openai && negb (Js.truthy_opt apiKey) then
    throw missing_key
  else if (MAX_FILE_SIZE <? length audioBuffer)%nat then
    transcribeChunked audioBuffer mimeType settings apiKey onProgress
  else
    transcribeSingle audioBuffer mimeType settings apiKey.

End Service.

End WhisperService.

(** ** [openaiService.ts] *)

Module OpenAIService.

Definition baseUrl : string := "https://api.openai.com/v1".

Definition system_instruction : string :=
"You are a text cleanup assistant. Clean up the following transcribed speech:

1. Remove filler words and verbal tics (um, uh, like, you know, I mean, so, basically, etc.)
2. Remove repeated words and stutters
3. Fix punctuation and capitalization
4. Split into logical paragraphs
5. Keep the original meaning and tone intact
6. Output ONLY plain text - no markdown, no headers, no bullet points

Return only the cleaned text, nothing else.".

(** [Math.ceil(rawText.length * 1.5) + 500].  The product is computed on
    rationals; in double precision it is exact for every length below
    2^51, far more than an engine lets a string have. *)
Definition token_budget (rawText : string) : Z :=
  (Qceiling (inject_Z (Z.of_nat (Js.length rawText)) * (15 # 10)) + 500)%Z.

Definition cleanup_request (rawText model apiKey : string) : Request :=
  mkRequest (baseUrl +:+ "/chat/completions") "POST"
    [("Authorization", "Bearer " +:+ apiKey); ("Content-Type", "application/json")]
    (JsonBody {|
       model := model;
       messages := [mkChatMessage "system" system_instruction;
                    mkChatMessage "user" rawText];
       temperature := 3 # 10;
       max_tokens := token_budget rawText |}).

Definition missing_key : JsError := Error "OpenAI API key required for text cleanup".

(** Reading [.message] of [undefined], when [choices] is empty. *)
Definition no_choice : JsError :=
  Error "Cannot read properties of undefined (reading 'message')".

Section Service.

Variable upstream : Upstream ChatCompletion.

(** [model] is [None] when the caller leaves it out. *)
Definition cleanupText (rawText : string) (model : option string) : Async string :=
  let model := default "gpt-4o-mini" model in
  apiKey <- StorageService.getApiKey ;;
  match apiKey with
  | Some key =>
      if Js.truthy key then
        response <- fetch upstream (cleanup_request rawText model key) ;;
        match response with
        | HttpError status json =>
            match error_message_or json
                    ("Cleanup failed with status " +:+ Js.string_of_nat status) with
            | inr errorMessage => throw (Error errorMessage)
            | inl thrown => throw thrown
            end
        | HttpOk (inl e) => throw e
        | HttpOk (inr result) =>
            match choices result with
            | first :: _ => ret (content (choice_message first))
            | [] => throw no_choice
            end
        end
      else throw missing_key
  | None => throw missing_key
  end.

End Service.

End OpenAIService.

(** ** [VoiceTranscriberPanel.ts]: the transcription handler *)

Module VoiceTranscriberPanel.

Definition post (m : MessageToWebview) (u : Ui) : Ui :=
  mkUi (posted u ++ [m]) (warnings u) (errors u).

Definition warn (m : string) (u : Ui) : Ui :=
  mkUi (posted u) (warnings u ++ [m]) (errors u).

Definition alert (m : string) (u : Ui) : Ui :=
  mkUi (posted u) (warnings u) (errors u ++ [m]).

Definition _postMessage (m : MessageToWebview) : Async unit := modify (set_ui (post m)).
Definition showWarningMessage (m : string) : Async unit := modify (set_ui (warn m)).
Definition showErrorMessage (m : string) : Async unit := modify (set_ui (alert m)).

Definition cleanup_warning : string :=
  "Text cleanup failed. Showing original transcription.".

Section Panel.

Variable whisper_upstream : Upstream TranscriptionResult.
Variable openai_upstream : Upstream ChatCompletion.
(** [Buffer.from(audioData, 'base64')] *)
Variable from_base64 : string -> Buffer.

(** The arrow function handed to [transcribe] as [onProgress]. *)
Definition on_progress : WhisperService.ProgressCallback :=
  fun progress => post (transcriptionProgress progress).

(** The body of the outer [try]. *)
Definition transcription_job (audioData mimeType : string) : Async unit :=
  _postMessage transcriptionStart ;;
  settings <- gets StorageService.getSettings ;;
  let audioBuffer := from_base64 audioData in
  _postMessage (transcriptionProgress "Transcribing audio...") ;;
  rawText <-
    WhisperService.transcribe whisper_upstream audioBuffer mimeType settings
      (Some on_progress) ;;
  cleanedText <-
    (if enableCleanup settings && provider_eqb (provider settings) openai then
       _postMessage (transcriptionProgress "Cleaning up text...") ;;
       try_catch
         (cleaned <-
            OpenAIService.cleanupText openai_upstream rawText
              (Some (model_name (cleanupModel settings))) ;;
          ret (Some cleaned))
         (fun _ => showWarningMessage cleanup_warning ;; ret None)
     else ret None) ;;
  _postMessage (transcriptionComplete rawText cleanedText) ;;
  StorageService.saveRecordingSession None.

Definition _handleTranscription (audioData mimeType : string) : Async unit :=
  try_catch (transcription_job audioData mimeType)
    (fun error =>
       let message := error_message error in
       _postMessage (transcriptionError message) ;;
       showErrorMessage message).

End Panel.

End VoiceTranscriberPanel.

(** ** [audioRecorderService.ts]: cancelling a native recording *)

Module AudioRecorderService.

(** A [ChildProcess] handle. *)
Record ChildProcess := mkProcess { pid : nat }.

(** The operating system as the recorder sees it. *)
Record Os := mkOs {
  files : gset string;       (* paths that exist *)
  undeletable : gset string; (* paths whose removal fails *)
  running : gset nat;        (* pids of live processes *)
  now : Z;                   (* Date.now() *)
}.

(** The private fields of the service. *)
Record Recorder := mkRecorder {
  process : option ChildProcess;
  tempFile : option string;
  isRecording : bool;
  startTime_ : Z;
}.

Definition initial : Recorder := mkRecorder None None false 0.

(** [process.kill(signal)]: a live process is gone; one that has exited
    is left as it is. *)
Definition kill (p : ChildProcess) (os : Os) : Os :=
  mkOs (files os) (undeletable os) (running os ∖ {[pid p]}) (now os).

Definition existsSync (path : string) (os : Os) : bool :=
  bool_decide (path ∈ files os).

(** [fs.unlinkSync(path)]: [None] when it throws. *)
Definition unlinkSync (path : string) (os : Os) : option Os :=
  if bool_decide (path ∈ files os) && negb (bool_decide (path ∈ undeletable os))
  then Some (mkOs (files os ∖ {[path]}) (undeletable os) (running os) (now os))
  else None.

Definition cleanup (r : Recorder) : Recorder := mkRecorder None None false 0.

Definition cancel (r : Recorder) (os : Os) : Recorder * Os :=
  let os :=
    match process r with
    | Some p => kill p os
    | None => os
    end in
  let os :=
    match tempFile r with
    | Some path =>
        if Js.truthy path && existsSync path os then
          match unlinkSync path os with
          | Some os' => os'
          | None => os (* Ignore cleanup errors *)
          end
        else os
    | None => os
    end in
  (cleanup r, os).

Definition getElapsedTime (r : Recorder) (os : Os) : Z :=
  if negb (isRecording r) then 0 else (now os - startTime_ r)%Z.

Definition getIsRecording (r : Recorder) : bool := isRecording r.

(** A recording in progress, as [start] leaves the service. *)
Definition recording (r : Recorder) (path : string) : Prop :=
  isRecording r = true /\ tempFile r = Some path /\ is_Some (process r).

End AudioRecorderService.

(** ** [audioRecorderService.ts]: finding a recording tool *)

Module RecordingTools.

Inductive RecordingTool := sox | arecord | auto.

Record RecordingToolInfo := mkTool {
  tool : RecordingTool;
  command : string;
  available : bool;
}.

Definition tool_eqb (a b : RecordingTool) : bool :=
  match a, b with
  | sox, sox | arecord, arecord | auto, auto => true
  | _, _ => false
  end.

Section Probe.

(** [process.platform] *)
Variable platform : string.
(** [execSync(command, { stdio: 'ignore' })]: [true] when the command
    ran and exited with 0, [false] when [execSync] threw. *)
Variable execSync : string -> bool.

Definition detectAvailableTools : list RecordingToolInfo :=
  let tools := [] in
  let tools :=
    if String.eqb platform "linux" then
      if execSync "which arecord"
      then tools ++ [mkTool arecord "arecord" true]
      else tools ++ [mkTool arecord "arecord" false]
    else tools in
  let soxCommand := if String.eqb platform "win32" then "sox" else "rec" in
  let whichCommand := if String.eqb platform "win32" then "where" else "which" in
  if execSync (whichCommand +:+ " " +:+ soxCommand) then
    tools ++ [mkTool sox soxCommand true]
  else if execSync (whichCommand +:+ " sox") then
    tools ++ [mkTool sox "sox" true]
  else
    tools ++ [mkTool sox soxCommand false].

Definition getBestTool : option RecordingToolInfo :=
  let tools := detectAvailableTools in
  match List.find (fun t => tool_eqb (tool t) arecord && available t) tools with
  | Some arecordInfo => Some arecordInfo
  | None =>
      match List.find (fun t => tool_eqb (tool t) sox && available t) tools with
      | Some soxInfo => Some soxInfo
      | None => None
      end
  end.

Definition isAvailable : bool :=
  match getBestTool with
  | Some _ => true
  | None => false
  end.

Definition getInstallInstructions : string :=
  if String.eqb platform "darwin" then "brew install sox"
  else if String.eqb platform "win32" then
    "choco install sox.portable
or download from https://sourceforge.net/projects/sox/"
  else
    "sudo apt install sox libsox-fmt-all
or: sudo apt install alsa-utils".

End Probe.

End RecordingTools.

(** ** [audioRecorderService.ts]: starting and stopping a recording *)

(** [String(n)] for an integer. *)
Definition string_of_Z (n : Z) : string := NilZero.string_of_int (Z.to_int n).

Module Recording.

Import AudioRecorderService RecordingTools.

(** What [spawn] does, and what follows it: it throws; or it returns a
    handle whose ['error'] event fires at once (the executable could not
    be launched); or it returns the handle of a process that was
    launched, and [later] is the system as the next step of the service
    finds it.  By then the recorder may have written its file, and may
    have exited: nothing says that it is still alive. *)
Inductive SpawnResult :=
| SpawnThrows (e : JsError)
| SpawnErrors (message : string)
| Spawned (p : ChildProcess) (later : Os).

(** What reaches the service between a launch and the 100 ms timer of
    [start]: nothing that changes it, or a call of [cancel].  The panel
    calls [cancel] on a message of the webview, in a later turn of the
    event loop than the call of [start]; a call of [stop] in that window
    throws "Not recording" and changes nothing; a second call of [start]
    in that window is not modelled. *)
Inductive Meanwhile := Waits | Cancels.

(** The command-line arguments, by tool. *)
Definition recording_args (toolInfo : RecordingToolInfo) (tempFile : string) : list string :=
  match tool toolInfo with
  | arecord => ["-f"; "S16_LE"; "-r"; "16000"; "-c"; "1"; "-t"; "wav"; tempFile]
  | _ =>
      if String.eqb (command toolInfo) "rec"
      then ["-r"; "16000"; "-c"; "1"; "-b"; "16"; tempFile]
      else ["-d"; "-r"; "16000"; "-c"; "1"; "-b"; "16"; tempFile]
  end.

Section Lifecycle.

Variable platform : string.
Variable execSync : string -> bool.
(** [os.tmpdir()] and [path.join] *)
Variable tmpdir : string.
Variable path_join : string -> string -> string.
Variable spawn : string -> list string -> Os -> SpawnResult.
(** [fs.readFileSync(path)], and the error [fs.unlinkSync(path)] throws
    when it fails. *)
Variable readFileSync : string -> Os -> JsError + Buffer.
Variable unlink_error : string -> JsError.

(** The callback of the 100 ms timer of [start]: it resolves the promise
    when [this.process && !this.process.killed], and does nothing
    otherwise.  [killed] is the flag of the handle in [process]. *)
Definition on_timer (killed : bool) (r : Recorder) (os : Os) : Outcome unit * Recorder :=
  match process r with
  | Some p =>
      if negb killed
      then (Resolved tt, mkRecorder (process r) (tempFile r) true (now os))
      else (Pending, r)
  | None => (Pending, r)
  end.

(** [start()], followed to the point where its promise settles, or to
    the timer when nothing settles it.  A process that cannot be
    launched reports it in the turn of the event loop that follows the
    call, before anything else reaches the service; after a launch,
    [cancel] may come before the timer, and sets the [killed] flag of
    the handle of a live process. *)
Definition start (meanwhile : Meanwhile) (r : Recorder) (os : Os)
  : Outcome unit * Recorder * Os :=
  if isRecording r then (Rejected (Error "Already recording"), r, os)
  else
    match getBestTool platform execSync with
    | None => (Rejected (Error "NO_RECORDING_TOOL"), r, os)
    | Some toolInfo =>
        let tempFile :=
          path_join tmpdir ("voice-transcriber-" +:+ string_of_Z (now os) +:+ ".wav") in
        let r := mkRecorder (process r) (Some tempFile) (isRecording r) (startTime_ r) in
        let args := recording_args toolInfo tempFile in
        match spawn (command toolInfo) args os with
        | SpawnThrows err => (Rejected err, cleanup r, os)
        | SpawnErrors message =>
            (Rejected (Error ("Failed to start recording: " +:+ message)), cleanup r, os)
        | Spawned p later =>
            let r := mkRecorder (Some p) (Some tempFile) (isRecording r) (startTime_ r) in
            match meanwhile with
            | Waits =>
                let (outcome, r) := on_timer false r later in
                (outcome, r, later)
            | Cancels =>
                let killed := bool_decide (pid p ∈ running later) in
                let (r, os) := cancel r later in
                let (outcome, r) := on_timer killed r os in
                (outcome, r, os)
            end
        end
    end.

(** What the ['close'] handler of [stop] does. *)
Definition on_close (r : Recorder) (os : Os) : Outcome (Buffer * string) * Recorder * Os :=
  match tempFile r with
  | Some path =>
      if existsSync path os then
        match readFileSync path os with
        | inr buffer =>
            match unlinkSync path os with
            | Some os' => (Resolved (buffer, "audio/wav"), cleanup r, os')
            | None => (Rejected (unlink_error path), cleanup r, os)
            end
        | inl err => (Rejected err, cleanup r, os)
        end
      else (Rejected (Error "Recording file not found"), cleanup r, os)
  | None => (Rejected (Error "Recording file not found"), cleanup r, os)
  end.

(** [stop()], followed to the point where its promise settles.  A live
    recorder exits on [SIGTERM], and ['close'] follows, the files being
    those at the call; a process that has exited already emitted
    ['close'] before the listener was there, so nothing settles the
    promise. *)
Definition stop (r : Recorder) (os : Os) : Outcome (Buffer * string) * Recorder * Os :=
  match isRecording r, process r with
  | true, Some p =>
      if bool_decide (pid p ∈ running os)
      then on_close r (kill p os)
      else (Pending, r, os)
  | _, _ => (Rejected (Error "Not recording"), r, os)
  end.

End Lifecycle.

End Recording.

(** ** [storageService.ts]: settings, the key and the UI state *)

Module StorageUpdates.

Import StorageService.

(** A settings object with every field present. *)
Definition all_fields (s : TranscriberSettings) : PartialSettings :=
  mkPartial (Some (provider s)) (Some (localApiUrl s)) (Some (language s))
    (Some (enableCleanup s)) (Some (cleanupModel s)).

Definition update_settings (p : PartialSettings) (g : GlobalState) : GlobalState :=
  mkGlobalState (Some p) (gs_history g) (gs_session g).

Definition updateSettings (settings : PartialSettings) : Async unit :=
  current <- gets getSettings ;;
  modify (set_globalState (update_settings (all_fields (spread current settings)))).

Definition set_secret (key : option string) (w : World) : World :=
  mkWorld key (globalState w) (requests w) (ui w).

Definition setApiKey (key : string) : Async unit := modify (set_secret (Some key)).

Definition deleteApiKey : Async unit := modify (set_secret None).

End StorageUpdates.

(** The value kept under the UI-state key of [globalState]: an object
    from names to values of any kind. *)
Module UiStateStore.

Section Values.

Variable V : Type.

(** [None] is a key never written. *)
Definition Stored : Type := option (gmap string V).

Definition getUiState (stored : Stored) : gmap string V := default ∅ stored.

(** [{ ...current, ...state }]: [state] wins where both have the name. *)
Definition saveUiState (state : gmap string V) (stored : Stored) : Stored :=
  let current := getUiState stored in
  Some (state ∪ current).

End Values.

End UiStateStore.

(** ** [VoiceTranscriberPanel.ts]: the extension of a saved recording *)

Module SaveAudio.

(** The [extension] of [_saveAudioFile]. *)
Definition extension (mimeType : string) : string :=
  if Js.includes mimeType "mp3" then "mp3"
  else if Js.includes mimeType "webm" then "webm"
  else "audio".

End SaveAudio.

(** ** [webview/main.js]: what the webview derives from a result *)

Module Webview.

(** [s.padStart(targetLength, padString)] *)
Definition padStart (s : string) (targetLength : nat) (padString : string) : string :=
  let len := Js.length s in
  if (targetLength <=? len)%nat || negb (Js.truthy padString) then s
  else
    let fillLen := targetLength - len in
    Js.substring_to fillLen (String.concat "" (repeat padString fillLen)) +:+ s.

(** [formatTime(ms)], for a whole number of milliseconds that is not
    negative. *)
Definition formatTime (ms : N) : string :=
  let totalSeconds := (ms / 1000)%N in
  let hours := (totalSeconds / 3600)%N in
  let minutes := ((totalSeconds mod 3600) / 60)%N in
  let seconds := (totalSeconds mod 60)%N in
  padStart (Js.string_of_nat (N.to_nat hours)) 2 "0" +:+ ":" +:+
  padStart (Js.string_of_nat (N.to_nat minutes)) 2 "0" +:+ ":" +:+
  padStart (Js.string_of_nat (N.to_nat seconds)) 2 "0".

(** [message.cleaned || message.text] *)
Definition finalText (text : string) (cleaned : option string) : string :=
  match cleaned with
  | Some c => if Js.truthy c then c else text
  | None => text
  end.

Definition preview_of (finalText : string) : string :=
  Js.substring_to 50 finalText +:+
  (if (50 <? Js.length finalText)%nat then "..." else "").


End Webview.

(** * Vocabulary of the statements *)

(** The partition as the specification words it: [ceil(length/ceiling)]
    consecutive byte ranges of [chunkSize] bytes, the last one cut at the
    end of the buffer. *)
Definition ceil_div (a b : nat) : nat := (a + b - 1) / b.

Definition slice (buffer : Buffer) (chunkSize i : nat) : Buffer :=
  WhisperService.subarray buffer (i * chunkSize)
    (Nat.min ((i + 1) * chunkSize) (length buffer)).

Definition slices (buffer : Buffer) (chunkSize : nat) : list Buffer :=
  map (slice buffer chunkSize) (seq 0 (ceil_div (length buffer) chunkSize)).

(** The length of a text in UTF-16 code units, counted on the bytes of
    its UTF-8 encoding by their values: a byte below 0x80 is a character
    of one unit; a byte from 0x80 to 0xBF continues a character; a byte
    from 0xC0 to 0xEF begins a character of the basic plane, of one
    unit; a byte from 0xF0 on begins a character outside it, of two
    units. *)
Definition utf16_units_of_byte (c : Ascii.ascii) : nat :=
  let n := Ascii.N_of_ascii c in
  if (n <? 128)%N then 1
  else if (n <? 192)%N then 0
  else if (n <? 240)%N then 1
  else 2.

Definition utf16_length (s : string) : nat :=
  list_sum (map utf16_units_of_byte (String.list_ascii_of_string s)).

(** The world with what the host shows replaced. *)
Definition with_ui (u : Ui) (w : World) : World := set_ui (fun _ => u) w.

(** The guard of [transcribe] lets the call through. *)
Definition has_credential (settings : TranscriberSettings) (w : World) : Prop :=
  provider settings = openai -> Js.truthy_opt (secret_apiKey w) = true.

Section InTurn.

Import WhisperService.

Variable upstream : Upstream TranscriptionResult.
Variable mimeType : string.
Variable settings : TranscriberSettings.

(** The single path run on each slice in turn, every call resolving:
    from [w] the slices [chunks] give the texts [texts] and leave [w']. *)
Inductive transcribed_in_turn (apiKey : option string)
  : list Buffer -> World -> list string -> World -> Prop :=
| in_turn_nil (w : World) : transcribed_in_turn apiKey [] w [] w
| in_turn_cons (chunk : Buffer) (chunks : list Buffer) (text : string)
    (texts : list string) (w w1 w2 : World) :
    transcribeSingle upstream chunk mimeType settings apiKey w = (Resolved text, w1) ->
    transcribed_in_turn apiKey chunks w1 texts w2 ->
    transcribed_in_turn apiKey (chunk :: chunks) w (text :: texts) w2.

End InTurn.

Section PanelVocabulary.

Import VoiceTranscriberPanel.

(** The last two steps of a job that completes. *)
Definition complete (rawText : string) (cleanedText : option string) (w : World) : World :=
  set_globalState (StorageService.update_session None)
    (set_ui (post (transcriptionComplete rawText cleanedText)) w).

(** The world in which [transcribe] is called. *)
Definition transcribing (w : World) : World :=
  set_ui (post (transcriptionProgress "Transcribing audio..."))
    (set_ui (post transcriptionStart) w).

(** Between two worlds: the same notifications shown and the same stores. *)
Definition same_notices (w w' : World) : Prop :=
  warnings (ui w') = warnings (ui w) /\
  errors (ui w') = errors (ui w) /\
  globalState w' = globalState w /\
  secret_apiKey w' = secret_apiKey w.

End PanelVocabulary.

(** * Sample inputs *)

Definition thirty_MiB : nat := 30 * 1024 * 1024.
Arguments thirty_MiB : simpl never.

Definition thirty_MiB_of_silence : Buffer := repeat "000"%byte thirty_MiB.

Definition ten_bytes : Buffer := repeat "000"%byte 10.

Definition keyed_world : World :=
  mkWorld (Some "sk-test") (mkGlobalState None None None) [] (mkUi [] [] []).

Definition keyless_world : World :=
  mkWorld None (mkGlobalState None None None) [] (mkUi [] [] []).

Definition always_hears (said : string) : Upstream TranscriptionResult :=
  fun _ _ => Responded (HttpOk (inr (mkTranscription said))).

Definition always_refuses {T} (status : nat) : Upstream T :=
  fun _ _ => Responded (HttpError status (inr (JsonValue (mkErrorData None)))).

(** An upstream that answers by the number of requests it has had. *)
Definition hears_in_order (said : list string) : Upstream TranscriptionResult :=
  fun earlier _ =>
    match said !! length earlier with
    | Some text => Responded (HttpOk (inr (mkTranscription text)))
    | None => Responded (HttpError 500 (inl (Error "Unexpected end of JSON input")))
    end.

Definition always_cleans (cleaned : string) : Upstream ChatCompletion :=
  fun _ _ =>
    Responded (HttpOk (inr (mkCompletion [mkChoice (mkChatMessage "assistant" cleaned)]))).

(** A recording whose temporary file cannot be removed. *)
Definition stuck_path : string := "/tmp/voice-transcriber-1700000000000.wav".

Definition stuck_recorder : AudioRecorderService.Recorder :=
  AudioRecorderService.mkRecorder (Some (AudioRecorderService.mkProcess 4242))
    (Some stuck_path) true 1700000000100.

Definition stuck_os : AudioRecorderService.Os :=
  AudioRecorderService.mkOs {[stuck_path]} {[stuck_path]} {[4242]} 1700000005000.

(** The same, with a file that can be removed. *)
Definition free_os : AudioRecorderService.Os :=
  AudioRecorderService.mkOs {[stuck_path]} ∅ {[4242]} 1700000005000.

(** * Further vocabulary and sample inputs *)

(** One progress report: what the callback, when there is one, makes of
    what the host shows. *)
Definition announce (onProgress : option WhisperService.ProgressCallback) (total : nat)
    (u : Ui) (i : nat) : Ui :=
  match onProgress with
  | Some callback => callback (WhisperService.progress_message i total) u
  | None => u
  end.

(** The buffers [transcribe] means to send: the slices of an oversized
    buffer, the buffer itself otherwise. *)
Definition planned (buffer : Buffer) : list Buffer :=
  if (WhisperService.MAX_FILE_SIZE <? length buffer)%nat
  then slices buffer WhisperService.MAX_FILE_SIZE
  else [buffer].

(** A body of an error response that carries no usable message: one
    that is not JSON, or a value other than [null] without an
    [error.message] that is not empty. *)
Definition no_message (json : JsError + ErrorBody) : Prop :=
  match json with
  | inl _ => True
  | inr JsonNull => False
  | inr (JsonValue data) =>
      match error data with
      | None => True
      | Some detail => message detail = None \/ message detail = Some ""
      end
  end.

Definition answers_null {T} (status : nat) : Upstream T :=
  fun _ _ => Responded (HttpError status (inr JsonNull)).

Definition refuses_with (status : nat) (m : string) : Upstream TranscriptionResult :=
  fun _ _ =>
    Responded (HttpError status
                 (inr (JsonValue (mkErrorData (Some (mkErrorDetail (Some m))))))).



Definition session_at_risk : World :=
  mkWorld (Some "sk-test")
    (mkGlobalState None None (Some (mkSession 1700000000000 "AAAA" false 4200)))
    [] (mkUi [] [] []).

Definition local_world : World :=
  mkWorld (Some "sk-test")
    (mkGlobalState (Some (mkPartial (Some local) None None None None)) None None)
    [] (mkUi [] [] []).

Definition cleanup_world : World :=
  mkWorld (Some "sk-test")
    (mkGlobalState (Some (mkPartial None None None None (Some gpt_4_1_mini))) None None)
    [] (mkUi [] [] []).

Inductive HistoryOp :=
| AddEntry (entry : HistoryEntry)
| ClearAll.

Definition run_op (op : HistoryOp) : Async unit :=
  match op with
  | AddEntry entry => StorageService.addToHistory entry
  | ClearAll => StorageService.clearHistory
  end.

Fixpoint run_ops (ops : list HistoryOp) : Async unit :=
  match ops with
  | [] => ret tt
  | op :: rest => run_op op ;; run_ops rest
  end.

(** What a history without a bound would hold. *)
Definition unbounded (ops : list HistoryOp) (before : list HistoryEntry)
  : list HistoryEntry :=
  fold_left (fun h op => match op with AddEntry e => e :: h | ClearAll => [] end)
    ops before.

(** Two decimal digits. *)
Definition two_digits (n : nat) : string :=
  String (Ascii.ascii_of_nat (48 + n / 10))
    (String (Ascii.ascii_of_nat (48 + n mod 10)) "").

(** The lookup command of the platform. *)
Definition lookup_command (platform : string) : string :=
  if String.eqb platform "win32" then "where" else "which".

Definition only_sox_installed : string -> bool := fun c => String.eqb c "which sox".

(** The service between two calls: at rest, or recording to a
    temporary file whose path is not empty. *)
Definition idle_or_recording (r : AudioRecorderService.Recorder) : Prop :=
  r = AudioRecorderService.initial \/
  exists path, AudioRecorderService.recording r path /\ Js.truthy path = true.

(** Sample system: [rec] is installed, processes get pid 4242, the
    recorded file holds three bytes. *)
Definition rec_installed : string -> bool := fun c => String.eqb c "which rec".

Definition posix_join (a b : string) : string := a +:+ "/" +:+ b.

Definition spawns_4242 : string -> list string -> AudioRecorderService.Os ->
                         Recording.SpawnResult :=
  fun _ _ os =>
    Recording.Spawned (AudioRecorderService.mkProcess 4242)
      (AudioRecorderService.mkOs (AudioRecorderService.files os)
         (AudioRecorderService.undeletable os)
         (AudioRecorderService.running os ∪ {[4242]})
         (AudioRecorderService.now os + 100)).

(** A recorder that exits as soon as it is launched (no microphone). *)
Definition dies_at_once : string -> list string -> AudioRecorderService.Os ->
                          Recording.SpawnResult :=
  fun _ _ os =>
    Recording.Spawned (AudioRecorderService.mkProcess 4242)
      (AudioRecorderService.mkOs (AudioRecorderService.files os)
         (AudioRecorderService.undeletable os)
         (AudioRecorderService.running os)
         (AudioRecorderService.now os + 100)).

Definition three_bytes : Buffer := ["R"; "I"; "F"]%byte.

Definition reads_three_bytes : string -> AudioRecorderService.Os -> JsError + Buffer :=
  fun _ _ => inr three_bytes.

Definition eperm : string -> JsError :=
  fun path => Error ("EPERM: operation not permitted, unlink '" +:+ path +:+ "'").

Definition quiet_os : AudioRecorderService.Os :=
  AudioRecorderService.mkOs ∅ ∅ ∅ 1700000000000.

Definition recording_4242 : AudioRecorderService.Recorder :=
  AudioRecorderService.mkRecorder (Some (AudioRecorderService.mkProcess 4242))
    (Some stuck_path) true 1700000000100.

(** The temporary path [start] builds. *)
Definition temp_path (tmpdir : string) (path_join : string -> string -> string)
    (os : AudioRecorderService.Os) : string :=
  path_join tmpdir
    ("voice-transcriber-" +:+ string_of_Z (AudioRecorderService.now os) +:+ ".wav").

(** * Properties *)

(** ** Substrings *)

Section SubstringFacts.

Import Js.

Lemma string_prefix_occurs (sub s : string) :
  String.prefix sub s = true -> exists post, s = sub +:+ post.
Proof.
  revert s; induction sub as [|c sub IH]; intros s H.
  - exists s; reflexivity.
  - destruct s as [|d s]; simpl in H; [discriminate|].
    destruct (Ascii.ascii_dec c d) as [->|]; [|discriminate].
    destruct (IH _ H) as [post ->]. exists post; reflexivity.
Qed.

Lemma string_prefix_app (sub post : string) : String.prefix sub (sub +:+ post) = true.
Proof.
  induction sub as [|c sub IH]; simpl.
  - destruct post; reflexivity.
  - destruct (Ascii.ascii_dec c c); [exact IH | congruence].
Qed.

Lemma includes_occurs (s sub : string) :
  includes s sub = true <-> occurs_in sub s.
Proof.
  split.
  - induction s as [|c s IH]; intros H; cbn [includes] in H.
    + rewrite orb_false_r in H. destruct (string_prefix_occurs _ _ H) as [post E].
      exists "", post. exact E.
    + apply orb_true_iff in H as [H|H].
      * destruct (string_prefix_occurs _ _ H) as [post E]. exists "", post. exact E.
      * destruct (IH H) as (pre & post & ->).
        exists (String c pre), post. reflexivity.
  - intros (pre & post & ->).
    induction pre as [|c pre IH].
    + change ("" +:+ sub +:+ post) with (sub +:+ post).
      destruct (sub +:+ post) eqn:E; cbn [includes]; rewrite <- E, string_prefix_app;
        reflexivity.
    + change (String c pre +:+ sub +:+ post) with (String c (pre +:+ sub +:+ post)).
      cbn [includes]. rewrite IH. apply orb_true_r.
Qed.

Lemma includes_not_occurs (s sub : string) :
  includes s sub = false <-> ~ occurs_in sub s.
Proof.
  rewrite <- includes_occurs. destruct (includes s sub); split; congruence.
Qed.

End SubstringFacts.

(** ** Lengths *)

Lemma code_units_by_value (c : Ascii.ascii) : Js.code_units c = utf16_units_of_byte c.
Proof. destruct c as [[|] [|] [|] [|] [|] [|] [|] [|]]; reflexivity. Qed.

(** [s.length] is the number of UTF-16 code units of the text. *)
Lemma length_utf16 (s : string) : Js.length s = utf16_length s.
Proof.
  unfold utf16_length. induction s as [|c s IH]; [reflexivity|].
  cbn [Js.length String.list_ascii_of_string map list_sum].
  rewrite IH, code_units_by_value. reflexivity.
Qed.


(** ** The upload extension *)

Example getExtension_webm_opus :
  WhisperService.getExtension "audio/webm;codecs=opus" = "webm".
Proof. reflexivity. Qed.

Example getExtension_mpeg : WhisperService.getExtension "audio/mpeg" = "mp3".
Proof. reflexivity. Qed.

Example getExtension_wav_over_ogg :
  WhisperService.getExtension "audio/ogg; fallback=wav" = "wav".
Proof. reflexivity. Qed.

Example getExtension_unknown : WhisperService.getExtension "audio/x-m4a" = "mp3".
Proof. reflexivity. Qed.

(** C8. For every MIME type the upload extension follows the substring
    matches in priority order: [mp3] or [mpeg] gives [mp3]; otherwise
    [webm] gives [webm]; otherwise [wav] gives [wav]; otherwise [ogg]
    gives [ogg]; and a string with none of them gives [mp3]. *)
Theorem getExtension_priority (mimeType : string) :
  let has := fun sub => Js.occurs_in sub mimeType in
  (has "mp3" \/ has "mpeg" -> WhisperService.getExtension mimeType = "mp3") /\
  (~ has "mp3" -> ~ has "mpeg" -> has "webm" ->
   WhisperService.getExtension mimeType = "webm") /\
  (~ has "mp3" -> ~ has "mpeg" -> ~ has "webm" -> has "wav" ->
   WhisperService.getExtension mimeType = "wav") /\
  (~ has "mp3" -> ~ has "mpeg" -> ~ has "webm" -> ~ has "wav" -> has "ogg" ->
   WhisperService.getExtension mimeType = "ogg") /\
  (~ has "mp3" -> ~ has "mpeg" -> ~ has "webm" -> ~ has "wav" -> ~ has "ogg" ->
   WhisperService.getExtension mimeType = "mp3").
Proof.
  cbv zeta. unfold WhisperService.getExtension.
  repeat split.
  - intros [H|H]; apply includes_occurs in H; rewrite H;
      [reflexivity | rewrite orb_true_r; reflexivity].
  - intros H1 H2 H3.
    apply includes_not_occurs in H1, H2. apply includes_occurs in H3.
    rewrite H1, H2, H3. reflexivity.
  - intros H1 H2 H3 H4.
    apply includes_not_occurs in H1, H2, H3. apply includes_occurs in H4.
    rewrite H1, H2, H3, H4. reflexivity.
  - intros H1 H2 H3 H4 H5.
    apply includes_not_occurs in H1, H2, H3, H4. apply includes_occurs in H5.
    rewrite H1, H2, H3, H4, H5. reflexivity.
  - intros H1 H2 H3 H4 H5.
    apply includes_not_occurs in H1, H2, H3, H4, H5.
    rewrite H1, H2, H3, H4, H5. reflexivity.
Qed.

(** ** Stored settings and history *)

Section StorageFacts.

Import StorageService.

Let entry (n : Z) : HistoryEntry := mkEntry "" "" "" "" n.

Let blank : World := mkWorld None (mkGlobalState None None None) [] (mkUi [] [] []).

Example history_of_twelve :
  map entry_duration
    (getHistory (snd (addAllToHistory (map entry [1; 2; 3; 4; 5; 6; 7; 8; 9; 10; 11; 12]%Z) blank)))
  = [12; 11; 10; 9; 8; 7; 6; 5; 4; 3]%Z.
Proof. reflexivity. Qed.

Example settings_partly_stored :
  getSettings
    (mkWorld None
       (mkGlobalState (Some (mkPartial (Some local) None (Some "en") None None)) None None)
       [] (mkUi [] [] []))
  = mkSettings local "http://localhost:8000/v1/audio/transcriptions" "en" true gpt_4_1_nano.
Proof. reflexivity. Qed.

Lemma addToHistory_run (e : HistoryEntry) (w : World) :
  addToHistory e w =
  (Resolved tt,
   set_globalState
     (update_history
        (if (10 <? length (e :: getHistory w))%nat
         then removelast (e :: getHistory w) else e :: getHistory w)) w).
Proof. reflexivity. Qed.

Lemma getHistory_updated (h : list HistoryEntry) (w : World) :
  getHistory (set_globalState (update_history h) w) = h.
Proof. reflexivity. Qed.

Lemma addToHistory_take (e : HistoryEntry) (w : World) :
  length (getHistory w) <= 10 ->
  getHistory (snd (addToHistory e w)) = take 10 (e :: getHistory w).
Proof.
  intros Hlen. rewrite addToHistory_run. cbn [snd]. rewrite getHistory_updated.
  destruct (Nat.ltb_spec 10 (length (e :: getHistory w))) as [Hgt|Hle].
  - rewrite removelast_firstn_len.
    cbn [length] in *. replace (Nat.pred (S (length (getHistory w)))) with 10 by lia.
    reflexivity.
  - symmetry. apply take_ge. lia.
Qed.

Lemma take_app_take {A} (n : nat) (l m : list A) :
  take n (l ++ take n m) = take n (l ++ m).
Proof.
  rewrite !take_app, take_take. f_equal. f_equal. lia.
Qed.

Lemma addAllToHistory_cons (e : HistoryEntry) (rest : list HistoryEntry) (w : World) :
  addAllToHistory (e :: rest) w = addAllToHistory rest (snd (addToHistory e w)).
Proof. reflexivity. Qed.

Lemma addAllToHistory_take (entries : list HistoryEntry) (w : World) :
  length (getHistory w) <= 10 ->
  fst (addAllToHistory entries w) = Resolved tt /\
  getHistory (snd (addAllToHistory entries w)) = take 10 (rev entries ++ getHistory w).
Proof.
  revert w; induction entries as [|e rest IH]; intros w Hlen.
  - split; [reflexivity|]. cbn. symmetry. apply take_ge. lia.
  - pose proof (addToHistory_take e w Hlen) as Hstep.
    rewrite addAllToHistory_cons.
    destruct (IH (snd (addToHistory e w))) as [Hres Hhist].
    { rewrite Hstep, length_take. lia. }
    split; [exact Hres|].
    rewrite Hhist, Hstep, take_app_take.
    cbn [rev]. rewrite <- app_assoc. reflexivity.
Qed.

End StorageFacts.

(** C5. [addToHistory] puts the new entry at the front and, when that
    makes more than 10, drops the last (oldest) one; a history of at
    most 10 entries stays at most 10; and adding any entries one by one
    to an empty history leaves the 10 most recent, most recent first
    (exactly 10 of them once more than 10 were added). *)
Theorem addToHistory_keeps_ten_most_recent (w : World) (entry : HistoryEntry) :
  let history := StorageService.getHistory w in
  let history' := StorageService.getHistory (snd (StorageService.addToHistory entry w)) in
  fst (StorageService.addToHistory entry w) = Resolved tt /\
  history' =
    (if (length history <? 10)%nat then entry :: history
     else entry :: removelast history) /\
  (length history <= 10 ->
   length history' <= 10 /\ history' = take 10 (entry :: history)) /\
  (forall (entries : list HistoryEntry) (w0 : World),
     StorageService.getHistory w0 = [] ->
     let final := StorageService.getHistory
                    (snd (StorageService.addAllToHistory entries w0)) in
     final = take 10 (rev entries) /\
     length final <= 10 /\
     (10 < length entries -> length final = 10)).
Proof.
  cbv zeta. split; [reflexivity|]. split; [|split].
  - rewrite addToHistory_run. cbn [snd]. rewrite getHistory_updated.
    cbn [length].
    destruct (Nat.ltb_spec (length (StorageService.getHistory w)) 10) as [Hlt|Hge].
    + destruct (Nat.ltb_spec 10 (S (length (StorageService.getHistory w)))); [lia|].
      reflexivity.
    + destruct (Nat.ltb_spec 10 (S (length (StorageService.getHistory w)))); [|lia].
      destruct (StorageService.getHistory w); [cbn in Hge; lia | reflexivity].
  - intros Hlen. rewrite (addToHistory_take entry w Hlen).
    split; [rewrite length_take; lia | reflexivity].
  - intros entries w0 Hempty.
    destruct (addAllToHistory_take entries w0) as [_ Hhist].
    { rewrite Hempty. cbn. lia. }
    rewrite Hhist, Hempty, app_nil_r.
    split; [reflexivity|]. rewrite length_take, length_rev. lia.
Qed.

(** C10. Whatever is stored under the settings key (nothing, an empty
    object, or some of the fields), [getSettings] returns a full
    settings record: each of the five fields is the stored one when
    present and the default one otherwise. *)
Theorem getSettings_defaults_overridden (w : World) :
  let saved := default StorageService.empty_object (gs_settings (globalState w)) in
  let settings := StorageService.getSettings w in
  provider settings = default (provider defaultSettings) (p_provider saved) /\
  localApiUrl settings = default (localApiUrl defaultSettings) (p_localApiUrl saved) /\
  language settings = default (language defaultSettings) (p_language saved) /\
  enableCleanup settings = default (enableCleanup defaultSettings) (p_enableCleanup saved) /\
  cleanupModel settings = default (cleanupModel defaultSettings) (p_cleanupModel saved) /\
  (gs_settings (globalState w) = None \/
   gs_settings (globalState w) = Some StorageService.empty_object ->
   settings = defaultSettings) /\
  (forall p m u l c,
     gs_settings (globalState w) = Some (mkPartial (Some p) (Some u) (Some l) (Some c) (Some m)) ->
     settings = mkSettings p u l c m).
Proof.
  cbv zeta. unfold StorageService.getSettings.
  repeat split; try reflexivity.
  - intros [-> | ->]; reflexivity.
  - intros p m u l c ->. reflexivity.
Qed.

(** ** Splitting an oversized buffer *)

Section SplitFacts.

Import WhisperService.

Example splitBuffer_ten_by_four :
  splitBuffer ["a"; "b"; "c"; "d"; "e"; "f"; "g"; "h"; "i"; "j"]%byte 4
  = Some [["a"; "b"; "c"; "d"]; ["e"; "f"; "g"; "h"]; ["i"; "j"]]%byte.
Proof. reflexivity. Qed.

Example splitBuffer_exact_multiple :
  splitBuffer ["a"; "b"; "c"; "d"]%byte 2 = Some [["a"; "b"]; ["c"; "d"]]%byte.
Proof. reflexivity. Qed.

Example splitBuffer_empty : splitBuffer [] 4 = Some [].
Proof. reflexivity. Qed.

Example splitBuffer_zero_size_loops : splitBuffer ["a"; "b"]%byte 0 = None.
Proof. reflexivity. Qed.

Lemma lt_ceil_div (a b k : nat) : 0 < b -> k < ceil_div a b <-> k * b < a.
Proof.
  intros Hb. unfold ceil_div. split; intros H.
  - destruct (Nat.lt_ge_cases (k * b) a) as [|Hge]; [assumption|].
    assert ((a + b - 1) / b < S k); [|lia].
    apply Nat.Div0.div_lt_upper_bound. nia.
  - assert (S k <= (a + b - 1) / b); [|lia].
    apply Nat.div_le_lower_bound; [lia | nia].
Qed.

Lemma ceil_div_le (a b : nat) : 0 < b -> ceil_div a b <= a.
Proof.
  intros Hb. destruct (Nat.le_gt_cases (ceil_div a b) a) as [|Hgt]; [assumption|].
  apply lt_ceil_div in Hgt; [nia | assumption].
Qed.

Variable buffer : Buffer.
Variable chunkSize : nat.
Hypothesis chunkSize_positive : 0 < chunkSize.

Let len := length buffer.
Let count := ceil_div len chunkSize.

Lemma lt_count (k : nat) : k < count <-> k * chunkSize < len.
Proof. apply lt_ceil_div, chunkSize_positive. Qed.

Lemma splitBuffer_loop_slices (fuel k : nat) (chunks : list Buffer) :
  count - k <= fuel ->
  splitBuffer_loop fuel buffer chunkSize (Nat.min (k * chunkSize) len) chunks
  = Some (chunks ++ map (slice buffer chunkSize) (seq k (count - k))).
Proof.
  revert k chunks; induction fuel as [|fuel IH]; intros k chunks Hfuel;
    cbn [splitBuffer_loop]; fold len;
    destruct (Nat.ltb_spec (Nat.min (k * chunkSize) len) len) as [Hlt|Hge].
  - assert (k < count) by (apply lt_count; lia). lia.
  - assert (~ k < count) by (rewrite lt_count; lia).
    replace (count - k) with 0 by lia. cbn. rewrite app_nil_r. reflexivity.
  - assert (Hk : k < count) by (apply lt_count; lia).
    replace (Nat.min (k * chunkSize) len) with (k * chunkSize) by lia.
    replace (Nat.min (k * chunkSize + chunkSize) len)
      with (Nat.min (S k * chunkSize) len) by lia.
    rewrite IH by lia.
    replace (count - k) with (S (count - S k)) by lia.
    cbn [seq map]. rewrite <- app_assoc. cbn [app].
    unfold slice at 2. fold len.
    replace ((k + 1) * chunkSize) with (S k * chunkSize) by lia.
    reflexivity.
  - assert (~ k < count) by (rewrite lt_count; lia).
    replace (count - k) with 0 by lia. cbn. rewrite app_nil_r. reflexivity.
Qed.

(** The loop ends, and what it returns is the partition of the
    specification. *)
Lemma splitBuffer_slices : splitBuffer buffer chunkSize = Some (slices buffer chunkSize).
Proof.
  unfold splitBuffer, slices.
  change 0 with (Nat.min (0 * chunkSize) len) at 1.
  rewrite splitBuffer_loop_slices.
  - fold len count. rewrite Nat.sub_0_r. reflexivity.
  - pose proof (ceil_div_le len chunkSize chunkSize_positive). fold count in H.
    subst len. lia.
Qed.

Lemma length_slices : length (slices buffer chunkSize) = count.
Proof. unfold slices. rewrite length_map, length_seq. reflexivity. Qed.

Lemma lookup_slices (i : nat) :
  i < count -> slices buffer chunkSize !! i = Some (slice buffer chunkSize i).
Proof.
  intros Hi. unfold slices.
  rewrite list_lookup_fmap, lookup_seq_lt by exact Hi. reflexivity.
Qed.

Lemma length_slice (i : nat) :
  length (slice buffer chunkSize i) = Nat.min ((i + 1) * chunkSize) len - i * chunkSize.
Proof.
  unfold slice, subarray. rewrite length_take, length_drop. fold len. lia.
Qed.

Let bound (i : nat) : nat := Nat.min (i * chunkSize) len.

Lemma slice_between_bounds (i : nat) :
  slice buffer chunkSize i = take (bound (S i) - bound i) (drop (bound i) buffer).
Proof.
  unfold slice, subarray, bound. fold len.
  replace ((i + 1) * chunkSize) with (S i * chunkSize) by lia.
  destruct (Nat.le_gt_cases (i * chunkSize) len) as [Hle|Hgt].
  - replace (Nat.min (i * chunkSize) len) with (i * chunkSize) by lia. reflexivity.
  - rewrite (drop_ge buffer (i * chunkSize)) by (fold len; lia).
    replace (Nat.min (S i * chunkSize) len - Nat.min (i * chunkSize) len) with 0 by lia.
    rewrite take_0. apply take_nil.
Qed.

Lemma concat_slices_range (n k : nat) :
  concat (map (slice buffer chunkSize) (seq k n))
  = take (bound (k + n) - bound k) (drop (bound k) buffer).
Proof.
  revert k; induction n as [|n IH]; intros k.
  - rewrite Nat.add_0_r, Nat.sub_diag. reflexivity.
  - cbn [seq map concat]. rewrite IH, slice_between_bounds.
    replace (S k + n) with (k + S n) by lia.
    assert (bound k <= bound (S k) <= bound (k + S n)) as [H1 H2]
      by (unfold bound; nia).
    replace (drop (bound (S k)) buffer)
      with (drop (bound (S k) - bound k) (drop (bound k) buffer))
      by (rewrite drop_drop; f_equal; lia).
    rewrite take_take_drop. f_equal. lia.
Qed.

(** The slices are contiguous, do not overlap and cover the buffer: put
    end to end, in order, they are the buffer. *)
Lemma concat_slices : concat (slices buffer chunkSize) = buffer.
Proof.
  unfold slices. rewrite concat_slices_range. fold len count.
  assert (~ count < count) as H by lia.
  rewrite lt_count in H.
  unfold bound. rewrite Nat.mul_0_l, Nat.min_0_l, Nat.sub_0_r, drop_0.
  apply take_ge. fold len. lia.
Qed.

Lemma slice_size (i : nat) :
  i < count -> 0 < length (slice buffer chunkSize i) <= chunkSize.
Proof.
  intros Hi. apply lt_count in Hi.
  rewrite length_slice. nia.
Qed.

Lemma slice_full (i : nat) :
  S i < count -> length (slice buffer chunkSize i) = chunkSize.
Proof.
  intros Hi. apply lt_count in Hi.
  rewrite length_slice. nia.
Qed.

Lemma last_slice_size (i : nat) :
  S i = count -> length (slice buffer chunkSize i) = len - i * chunkSize.
Proof.
  intros Hi. assert (~ S i < count) as H by lia.
  rewrite lt_count in H.
  rewrite length_slice. nia.
Qed.

End SplitFacts.

(** ** Transcription *)

Section TranscribeFacts.

Import WhisperService.

Variable upstream : Upstream TranscriptionResult.
Variable mimeType : string.
Variable settings : TranscriberSettings.

Lemma with_ui_same (w : World) : with_ui (ui w) w = w.
Proof. destruct w; reflexivity. Qed.

Lemma set_ui_with_ui (f : Ui -> Ui) (u : Ui) (w : World) :
  set_ui f (with_ui u w) = with_ui (f u) w.
Proof. reflexivity. Qed.

Lemma requests_with_ui (u : Ui) (w : World) : requests (with_ui u w) = requests w.
Proof. reflexivity. Qed.

(** The single path sends exactly one request, whatever comes back. *)
Lemma transcribeSingle_sends (chunk : Buffer) (apiKey : option string) (w : World) :
  snd (transcribeSingle upstream chunk mimeType settings apiKey w)
  = sent (single_request chunk mimeType settings apiKey) w.
Proof.
  unfold transcribeSingle, bind, fetch.
  destruct (upstream _ _) as [e|[[e|r]|status json]|]; try reflexivity.
  destruct (error_message_or _ _); reflexivity.
Qed.

(** Its outcome is decided by the remote side alone. *)
Lemma transcribeSingle_outcome (chunk : Buffer) (apiKey : option string) (w : World) :
  fst (transcribeSingle upstream chunk mimeType settings apiKey w)
  = match upstream (requests w) (single_request chunk mimeType settings apiKey) with
    | NetworkError e => Rejected e
    | Responded (HttpOk (inl e)) => Rejected e
    | Responded (HttpOk (inr result)) => Resolved (text result)
    | Responded (HttpError status json) =>
        match error_message_or json
                ("Transcription failed with status " +:+ Js.string_of_nat status) with
        | inr errorMessage => Rejected (Error errorMessage)
        | inl thrown => Rejected thrown
        end
    | NeverSettles => Pending
    end.
Proof.
  unfold transcribeSingle, bind, fetch.
  destruct (upstream _ _) as [e|[[e|r]|status json]|]; try reflexivity.
  destruct (error_message_or _ _); reflexivity.
Qed.

(** It neither reads nor writes what the host shows. *)
Lemma transcribeSingle_frame (chunk : Buffer) (apiKey : option string) (u : Ui) (w : World) :
  transcribeSingle upstream chunk mimeType settings apiKey (with_ui u w)
  = (fst (transcribeSingle upstream chunk mimeType settings apiKey w),
     with_ui u (snd (transcribeSingle upstream chunk mimeType settings apiKey w))).
Proof.
  unfold transcribeSingle, bind, fetch. rewrite requests_with_ui.
  destruct (upstream _ _) as [e|[[e|r]|status json]|]; try reflexivity.
  destruct (error_message_or _ _); reflexivity.
Qed.

Lemma transcribed_in_turn_requests (apiKey : option string) (chunks : list Buffer)
    (w w' : World) (texts : list string) :
  transcribed_in_turn upstream mimeType settings apiKey chunks w texts w' ->
  length texts = length chunks /\
  requests w' = requests w ++ map (fun c => single_request c mimeType settings apiKey) chunks.
Proof.
  induction 1 as [w|chunk chunks text texts w w1 w2 Hsingle _ [IHlen IHreq]].
  - rewrite app_nil_r. split; reflexivity.
  - apply (f_equal snd) in Hsingle. rewrite transcribeSingle_sends in Hsingle.
    cbn [snd] in Hsingle. subst w1. split; [cbn; lia|].
    rewrite IHreq. cbn [sent requests map]. rewrite <- app_assoc. reflexivity.
Qed.

Lemma progress_step (onProgress : option ProgressCallback) (message : string) (u : Ui)
    (w : World) :
  exists u',
    match onProgress with
    | Some callback => modify (set_ui (callback message))
    | None => ret tt
    end (with_ui u w) = (Resolved tt, with_ui u' w) /\
    (onProgress = None -> u' = u).
Proof.
  destruct onProgress as [callback|].
  - exists (callback message u). split; [reflexivity | discriminate].
  - exists u. split; reflexivity.
Qed.

Lemma transcribeChunks_cons (chunk : Buffer) (rest : list Buffer) (i total : nat)
    (apiKey : option string) (onProgress : option ProgressCallback)
    (acc : list string) :
  transcribeChunks upstream (chunk :: rest) i total mimeType settings apiKey onProgress acc
  = (match onProgress with
     | Some callback => modify (set_ui (callback (progress_message i total)))
     | None => ret tt
     end ;;
     text <- transcribeSingle upstream chunk mimeType settings apiKey ;;
     transcribeChunks upstream rest (S i) total mimeType settings apiKey onProgress
       (acc ++ [text])).
Proof. reflexivity. Qed.

(** The loop, when every slice is transcribed. *)
Lemma transcribeChunks_all (apiKey : option string) (onProgress : option ProgressCallback)
    (total : nat) (chunks : list Buffer) (w w' : World) (texts : list string) :
  transcribed_in_turn upstream mimeType settings apiKey chunks w texts w' ->
  forall (i : nat) (acc : list string) (u : Ui),
  exists u',
    transcribeChunks upstream chunks i total mimeType settings apiKey onProgress acc
      (with_ui u w)
    = (Resolved (acc ++ texts), with_ui u' w') /\
    (onProgress = None -> u' = u).
Proof.
  induction 1 as [w|chunk chunks text texts w w1 w2 Hsingle _ IH]; intros i acc u.
  - exists u. rewrite app_nil_r. split; reflexivity.
  - rewrite transcribeChunks_cons.
    destruct (progress_step onProgress (progress_message i total) u w)
      as (u1 & Hstep & Hu1).
    unfold bind at 1. rewrite Hstep.
    unfold bind at 1. rewrite transcribeSingle_frame, Hsingle. cbn [fst snd].
    destruct (IH (S i) (acc ++ [text]) u1) as (u2 & Hrest & Hu2).
    exists u2. rewrite Hrest, <- app_assoc. split; [reflexivity|].
    intros Hnone. rewrite (Hu2 Hnone). exact (Hu1 Hnone).
Qed.

(** The loop, when a slice fails after [done] were transcribed. *)
Lemma transcribeChunks_fails (apiKey : option string) (onProgress : option ProgressCallback)
    (total : nat) (done : list Buffer) (w w1 : World) (texts : list string) :
  transcribed_in_turn upstream mimeType settings apiKey done w texts w1 ->
  forall (failing : Buffer) (rest : list Buffer) (e : JsError) (w2 : World),
  transcribeSingle upstream failing mimeType settings apiKey w1 = (Rejected e, w2) ->
  forall (i : nat) (acc : list string) (u : Ui),
  exists u',
    transcribeChunks upstream (done ++ failing :: rest) i total mimeType settings apiKey
      onProgress acc (with_ui u w)
    = (Rejected e, with_ui u' w2).
Proof.
  induction 1 as [w|chunk chunks text texts w w1 w2 Hsingle _ IH];
    intros failing rest e w3 Hfail i acc u.
  - cbn [app]. rewrite transcribeChunks_cons.
    destruct (progress_step onProgress (progress_message i total) u w)
      as (u1 & Hstep & _).
    unfold bind at 1. rewrite Hstep.
    unfold bind at 1. rewrite transcribeSingle_frame, Hfail. cbn [fst snd].
    exists u1. reflexivity.
  - cbn [app]. rewrite transcribeChunks_cons.
    destruct (progress_step onProgress (progress_message i total) u w)
      as (u1 & Hstep & _).
    unfold bind at 1. rewrite Hstep.
    unfold bind at 1. rewrite transcribeSingle_frame, Hsingle. cbn [fst snd].
    apply (IH failing rest e w3 Hfail).
Qed.

(** Which path [transcribe] takes. *)
Lemma transcribe_route (buffer : Buffer) (onProgress : option ProgressCallback) (w : World) :
  has_credential settings w ->
  transcribe upstream buffer mimeType settings onProgress w
  = if (MAX_FILE_SIZE <? length buffer)%nat
    then transcribeChunked upstream buffer mimeType settings (secret_apiKey w) onProgress w
    else transcribeSingle upstream buffer mimeType settings (secret_apiKey w) w.
Proof.
  intros Hcred. unfold transcribe, bind, StorageService.getApiKey, gets.
  unfold has_credential in Hcred.
  destruct (provider settings); cbn [provider_eqb andb].
  - rewrite Hcred by reflexivity. cbn [negb].
    destruct (MAX_FILE_SIZE <? length buffer)%nat; reflexivity.
  - destruct (MAX_FILE_SIZE <? length buffer)%nat; reflexivity.
Qed.

Lemma MAX_FILE_SIZE_Z : Z.of_nat MAX_FILE_SIZE = (24 * 1024 * 1024)%Z.
Proof. unfold MAX_FILE_SIZE. lia. Qed.

Lemma MAX_FILE_SIZE_positive : 0 < MAX_FILE_SIZE.
Proof. pose proof MAX_FILE_SIZE_Z. lia. Qed.

(** A 30 MiB buffer is cut in two: 24 MiB, then the remaining 6 MiB. *)
Lemma slices_30MiB (buffer : Buffer) :
  Z.of_nat (length buffer) = (30 * 1024 * 1024)%Z ->
  slices buffer MAX_FILE_SIZE
  = [slice buffer MAX_FILE_SIZE 0; slice buffer MAX_FILE_SIZE 1] /\
  Z.of_nat (length (slice buffer MAX_FILE_SIZE 0)) = (24 * 1024 * 1024)%Z /\
  Z.of_nat (length (slice buffer MAX_FILE_SIZE 1)) = (6 * 1024 * 1024)%Z.
Proof.
  intros Hlen. pose proof MAX_FILE_SIZE_Z as HZ. pose proof MAX_FILE_SIZE_positive as Hpos.
  assert (Hcount : ceil_div (length buffer) MAX_FILE_SIZE = 2).
  { pose proof (lt_ceil_div (length buffer) MAX_FILE_SIZE 1 Hpos) as H1.
    pose proof (lt_ceil_div (length buffer) MAX_FILE_SIZE 2 Hpos) as H2.
    lia. }
  split; [|split].
  - unfold slices. rewrite Hcount. reflexivity.
  - rewrite (slice_full buffer MAX_FILE_SIZE Hpos 0) by lia. exact HZ.
  - rewrite (last_slice_size buffer MAX_FILE_SIZE Hpos 1) by lia. lia.
Qed.

End TranscribeFacts.

Lemma length_thirty_MiB_of_silence :
  Z.of_nat (length thirty_MiB_of_silence) = (30 * 1024 * 1024)%Z.
Proof.
  unfold thirty_MiB_of_silence. rewrite repeat_length. unfold thirty_MiB. lia.
Qed.

Lemma thirty_MiB_oversized : WhisperService.MAX_FILE_SIZE < length thirty_MiB_of_silence.
Proof.
  pose proof length_thirty_MiB_of_silence. pose proof MAX_FILE_SIZE_Z. lia.
Defined.

Lemma keyed_world_has_credential : has_credential defaultSettings keyed_world.
Proof. intros _. reflexivity. Defined.

(** C1. A buffer longer than the 24 MiB ceiling is cut into
    [ceil(length/ceiling)] byte ranges that, end to end and in order,
    are the buffer; each is at most the ceiling and all but the last are
    exactly the ceiling.  When the single path transcribes the slices in
    turn, [transcribe] resolves to their texts joined by one space, in
    slice order, having sent one request per slice.  A 30 MiB buffer
    gives two chunks, 24 MiB and 6 MiB, and the texts "foo" and "bar"
    give "foo bar". *)
Theorem transcribe_oversized_buffer
    (upstream : Upstream TranscriptionResult) (buffer : Buffer) (mimeType : string)
    (settings : TranscriberSettings)
    (onProgress : option WhisperService.ProgressCallback) (w : World) :
  WhisperService.MAX_FILE_SIZE < length buffer ->
  has_credential settings w ->
  let ceiling := WhisperService.MAX_FILE_SIZE in
  let apiKey := secret_apiKey w in
  let single := fun chunk => WhisperService.transcribeSingle upstream chunk mimeType settings apiKey in
  let run := WhisperService.transcribe upstream buffer mimeType settings onProgress w in
  let chunks := slices buffer ceiling in
  WhisperService.splitBuffer buffer ceiling = Some chunks /\
  length chunks = ceil_div (length buffer) ceiling /\
  concat chunks = buffer /\
  (forall (i : nat) (chunk : Buffer),
     chunks !! i = Some chunk ->
     chunk = WhisperService.subarray buffer (i * ceiling)
               (Nat.min ((i + 1) * ceiling) (length buffer)) /\
     0 < length chunk <= ceiling /\
     (S i < length chunks -> length chunk = ceiling)) /\
  (forall (texts : list string) (w' : World),
     transcribed_in_turn upstream mimeType settings apiKey chunks w texts w' ->
     exists u : Ui,
       run = (Resolved (Js.join " " texts), with_ui u w') /\
       requests w' =
         requests w ++
         map (fun chunk => WhisperService.single_request chunk mimeType settings apiKey)
           chunks) /\
  (Z.of_nat (length buffer) = (30 * 1024 * 1024)%Z ->
   map (fun chunk => Z.of_nat (length chunk)) chunks
     = [24 * 1024 * 1024; 6 * 1024 * 1024]%Z /\
   forall (first second : Buffer) (w1 w2 : World),
     chunks = [first; second] ->
     single first w = (Resolved "foo", w1) ->
     single second w1 = (Resolved "bar", w2) ->
     fst run = Resolved "foo bar").
Proof.
  intros Hbig Hcred. cbv zeta.
  pose proof MAX_FILE_SIZE_positive as Hpos.
  pose proof (splitBuffer_slices buffer _ Hpos) as Hsplit.
  pose proof (length_slices buffer WhisperService.MAX_FILE_SIZE) as Hcount.
  assert (Hrun : forall texts w',
    transcribed_in_turn upstream mimeType settings (secret_apiKey w)
      (slices buffer WhisperService.MAX_FILE_SIZE) w texts w' ->
    exists u : Ui,
      WhisperService.transcribe upstream buffer mimeType settings onProgress w
      = (Resolved (Js.join " " texts), with_ui u w')).
  { intros texts w' Hturn.
    rewrite (transcribe_route _ _ _ _ _ _ Hcred).
    apply Nat.ltb_lt in Hbig. rewrite Hbig.
    unfold WhisperService.transcribeChunked. rewrite Hsplit.
    destruct (transcribeChunks_all upstream mimeType settings _ onProgress
                (length (slices buffer WhisperService.MAX_FILE_SIZE)) _ _ _ _ Hturn
                0 [] (ui w)) as (u & Hloop & _).
    rewrite with_ui_same in Hloop.
    exists u. unfold bind. rewrite Hloop. reflexivity. }
  split; [exact Hsplit|]. split; [exact Hcount|].
  split; [exact (concat_slices buffer _ Hpos)|].
  split; [|split].
  - intros i chunk Hlookup.
    assert (Hi : i < ceil_div (length buffer) WhisperService.MAX_FILE_SIZE).
    { rewrite <- Hcount. apply lookup_lt_Some in Hlookup. exact Hlookup. }
    rewrite (lookup_slices buffer _ i Hi) in Hlookup.
    injection Hlookup as <-.
    split; [reflexivity|]. split.
    + exact (slice_size buffer _ Hpos i Hi).
    + rewrite Hcount. exact (slice_full buffer _ Hpos i).
  - intros texts w' Hturn.
    destruct (Hrun texts w' Hturn) as (u & Hu).
    exists u. split; [exact Hu|].
    exact (proj2 (transcribed_in_turn_requests upstream mimeType settings _ _ _ _ _ Hturn)).
  - intros H30.
    destruct (slices_30MiB buffer H30) as (Htwo & Hfirst & Hsecond).
    split.
    + rewrite Htwo. cbn [map]. rewrite Hfirst, Hsecond. reflexivity.
    + intros first second w1 w2 Hchunks Hfoo Hbar.
      destruct (Hrun ["foo"; "bar"] w2) as (u & Hu).
      { rewrite Hchunks.
        eapply in_turn_cons; [exact Hfoo|].
        eapply in_turn_cons; [exact Hbar|]. apply in_turn_nil. }
      rewrite Hu. reflexivity.
Qed.

(** The statement above, at 30 MiB of silence sent with a stored key to
    an upstream that hears "foo" and then "bar". *)
Lemma transcribe_oversized_buffer_witness :
  WhisperService.MAX_FILE_SIZE < length thirty_MiB_of_silence /\
  has_credential defaultSettings keyed_world /\
  WhisperService.splitBuffer thirty_MiB_of_silence WhisperService.MAX_FILE_SIZE
  = Some (slices thirty_MiB_of_silence WhisperService.MAX_FILE_SIZE) /\
  concat (slices thirty_MiB_of_silence WhisperService.MAX_FILE_SIZE)
  = thirty_MiB_of_silence /\
  map (fun chunk => Z.of_nat (length chunk))
    (slices thirty_MiB_of_silence WhisperService.MAX_FILE_SIZE)
  = [24 * 1024 * 1024; 6 * 1024 * 1024]%Z /\
  fst (WhisperService.transcribe (hears_in_order ["foo"; "bar"]) thirty_MiB_of_silence
         "audio/wav" defaultSettings None keyed_world)
  = Resolved "foo bar".
Proof.
  pose proof (transcribe_oversized_buffer (hears_in_order ["foo"; "bar"])
                thirty_MiB_of_silence "audio/wav" defaultSettings None keyed_world
                thirty_MiB_oversized keyed_world_has_credential) as H.
  cbv zeta in H. destruct H as (Hsplit & _ & Hconcat & _ & _ & H30).
  destruct (H30 length_thirty_MiB_of_silence) as [Hsizes Hjoin].
  split; [exact thirty_MiB_oversized|].
  split; [exact keyed_world_has_credential|].
  split; [exact Hsplit|]. split; [exact Hconcat|]. split; [exact Hsizes|].
  set (first := slice thirty_MiB_of_silence WhisperService.MAX_FILE_SIZE 0) in *.
  set (second := slice thirty_MiB_of_silence WhisperService.MAX_FILE_SIZE 1) in *.
  set (w1 := sent (WhisperService.single_request first "audio/wav" defaultSettings
                     (secret_apiKey keyed_world)) keyed_world).
  set (w2 := sent (WhisperService.single_request second "audio/wav" defaultSettings
                     (secret_apiKey keyed_world)) w1).
  apply (Hjoin first second w1 w2).
  - exact (proj1 (slices_30MiB _ length_thirty_MiB_of_silence)).
  - rewrite (surjective_pairing (WhisperService.transcribeSingle _ first _ _ _ _)).
    rewrite transcribeSingle_outcome, transcribeSingle_sends. reflexivity.
  - rewrite (surjective_pairing (WhisperService.transcribeSingle _ second _ _ _ _)).
    rewrite transcribeSingle_outcome, transcribeSingle_sends. reflexivity.
Defined.

Example transcribeChunks_joins_in_order :
  let run :=
    (texts <-
       WhisperService.transcribeChunks (hears_in_order ["foo"; "bar"])
         [["a"; "b"]; ["c"]]%byte 0 2 "audio/wav" defaultSettings (Some "sk-test")
         (Some (fun message u => mkUi (posted u ++ [transcriptionProgress message])
                                   (warnings u) (errors u))) [] ;;
     ret (Js.join " " texts)) keyed_world in
  fst run = Resolved "foo bar" /\
  posted (ui (snd run))
  = [transcriptionProgress "Processing chunk 1/2...";
     transcriptionProgress "Processing chunk 2/2..."] /\
  map (fun r => body r) (requests (snd run))
  = [FormData [("file", FormFile (mkBlob ["a"; "b"]%byte "audio/wav") "audio.wav");
               ("model", FormField "whisper-1")];
     FormData [("file", FormFile (mkBlob ["c"]%byte "audio/wav") "audio.wav");
               ("model", FormField "whisper-1")]].
Proof. cbv zeta. repeat split. Qed.

Example transcribeChunks_stops_at_failure :
  let run :=
    WhisperService.transcribeChunks (hears_in_order ["foo"])
      [["a"]; ["b"]; ["c"]]%byte 0 3 "audio/wav" defaultSettings (Some "sk-test") None []
      keyed_world in
  fst run = Rejected (Error "Transcription failed with status 500") /\
  length (requests (snd run)) = 2.
Proof. cbv zeta. split; reflexivity. Qed.

(** C2. A buffer of at most 24 MiB (the ceiling included) goes out in
    exactly one request, which carries the whole buffer, and the call
    resolves to the [text] field of the answer as it came.  Stated for a
    call that passes the credential guard. *)
Theorem transcribe_within_ceiling
    (upstream : Upstream TranscriptionResult) (buffer : Buffer) (mimeType : string)
    (settings : TranscriberSettings)
    (onProgress : option WhisperService.ProgressCallback) (w : World) :
  length buffer <= WhisperService.MAX_FILE_SIZE ->
  has_credential settings w ->
  let request :=
    WhisperService.single_request buffer mimeType settings (secret_apiKey w) in
  let run := WhisperService.transcribe upstream buffer mimeType settings onProgress w in
  snd run = sent request w /\
  requests (snd run) = requests w ++ [request] /\
  (exists extension : string,
     In ("file", FormFile (mkBlob buffer mimeType) ("audio." +:+ extension))
        (match body request with FormData fields => fields | JsonBody _ => [] end)) /\
  (forall result : TranscriptionResult,
     upstream (requests w) request = Responded (HttpOk (inr result)) ->
     fst run = Resolved (text result)).
Proof.
  intros Hsmall Hcred. cbv zeta.
  rewrite (transcribe_route _ _ _ _ _ _ Hcred).
  destruct (Nat.ltb_spec WhisperService.MAX_FILE_SIZE (length buffer)) as [Hgt|_]; [lia|].
  rewrite transcribeSingle_sends, transcribeSingle_outcome.
  split; [reflexivity|]. split; [reflexivity|]. split.
  - exists (WhisperService.getExtension mimeType). left. reflexivity.
  - intros result ->. reflexivity.
Qed.

(** Ten bytes of WAV, a stored key, and the answer [{"text":"hello world"}]. *)
Lemma transcribe_within_ceiling_witness :
  length ten_bytes <= WhisperService.MAX_FILE_SIZE /\
  has_credential defaultSettings keyed_world /\
  fst (WhisperService.transcribe (always_hears "hello world") ten_bytes "audio/wav"
         defaultSettings None keyed_world) = Resolved "hello world" /\
  length (requests (snd (WhisperService.transcribe (always_hears "hello world") ten_bytes
                           "audio/wav" defaultSettings None keyed_world))) = 1.
Proof.
  assert (Hsmall : length ten_bytes <= WhisperService.MAX_FILE_SIZE).
  { pose proof MAX_FILE_SIZE_Z. cbn [ten_bytes repeat length]. lia. }
  pose proof (transcribe_within_ceiling (always_hears "hello world") ten_bytes "audio/wav"
                defaultSettings None keyed_world Hsmall keyed_world_has_credential) as H.
  cbv zeta in H. destruct H as (_ & Hrequests & _ & Htext).
  split; [exact Hsmall|]. split; [exact keyed_world_has_credential|]. split.
  - exact (Htext (mkTranscription "hello world") eq_refl).
  - rewrite Hrequests. reflexivity.
Defined.

(** C3. In the chunked path, when the single path fails on a slice
    after the slices before it were transcribed, [transcribe] fails with
    that very error: no text is returned, and the requests sent are one
    for each slice up to and including the failing one, none for a later
    slice and none twice. *)
Theorem transcribe_chunk_failure
    (upstream : Upstream TranscriptionResult) (buffer : Buffer) (mimeType : string)
    (settings : TranscriberSettings)
    (onProgress : option WhisperService.ProgressCallback) (w w1 w2 : World)
    (done rest : list Buffer) (failing : Buffer) (texts : list string) (e : JsError) :
  WhisperService.MAX_FILE_SIZE < length buffer ->
  has_credential settings w ->
  WhisperService.splitBuffer buffer WhisperService.MAX_FILE_SIZE
    = Some (done ++ failing :: rest) ->
  transcribed_in_turn upstream mimeType settings (secret_apiKey w) done w texts w1 ->
  WhisperService.transcribeSingle upstream failing mimeType settings (secret_apiKey w) w1
    = (Rejected e, w2) ->
  exists u : Ui,
    WhisperService.transcribe upstream buffer mimeType settings onProgress w
    = (Rejected e, with_ui u w2) /\
    requests (with_ui u w2) =
      requests w ++
      map (fun chunk =>
             WhisperService.single_request chunk mimeType settings (secret_apiKey w))
        (done ++ [failing]).
Proof.
  intros Hbig Hcred Hsplit Hdone Hfail.
  rewrite (transcribe_route _ _ _ _ _ _ Hcred).
  apply Nat.ltb_lt in Hbig. rewrite Hbig.
  unfold WhisperService.transcribeChunked. rewrite Hsplit.
  destruct (transcribeChunks_fails upstream mimeType settings _ onProgress
              (length (done ++ failing :: rest)) _ _ _ _ Hdone failing rest e w2 Hfail
              0 [] (ui w)) as (u & Hloop).
  rewrite with_ui_same in Hloop.
  exists u. unfold bind. rewrite Hloop. split; [reflexivity|].
  rewrite requests_with_ui.
  apply (f_equal snd) in Hfail. rewrite transcribeSingle_sends in Hfail.
  cbn [snd] in Hfail. subst w2.
  destruct (transcribed_in_turn_requests upstream mimeType settings _ _ _ _ _ Hdone)
    as [_ Hreq].
  cbn [sent requests]. rewrite Hreq, map_app, <- app_assoc. reflexivity.
Qed.

(** 30 MiB of silence against an upstream that refuses the first slice. *)
Lemma transcribe_chunk_failure_witness :
  exists (e : JsError) (w' : World),
    WhisperService.transcribe (always_refuses 500) thirty_MiB_of_silence "audio/wav"
      defaultSettings None keyed_world = (Rejected e, w') /\
    length (requests w') = 1.
Proof.
  pose proof MAX_FILE_SIZE_positive as Hpos.
  pose proof (splitBuffer_slices thirty_MiB_of_silence _ Hpos) as Hsplit.
  rewrite (proj1 (slices_30MiB _ length_thirty_MiB_of_silence)) in Hsplit.
  pose proof (surjective_pairing
                (WhisperService.transcribeSingle (always_refuses 500)
                   (slice thirty_MiB_of_silence WhisperService.MAX_FILE_SIZE 0)
                   "audio/wav" defaultSettings (secret_apiKey keyed_world) keyed_world))
    as Hfail.
  rewrite transcribeSingle_outcome in Hfail at 1.
  cbv beta iota delta [always_refuses] in Hfail.
  destruct (transcribe_chunk_failure (always_refuses 500) thirty_MiB_of_silence "audio/wav"
              defaultSettings None keyed_world keyed_world _ [] _ _ [] _
              thirty_MiB_oversized keyed_world_has_credential Hsplit
              (in_turn_nil _ _ _ _ _) Hfail) as (u & Hrun & Hreq).
  eexists. eexists. split; [exact Hrun|].
  rewrite Hreq. reflexivity.
Defined.

(** C4. With the [openai] provider and no stored key (or an empty one),
    [transcribe] fails with the missing-key error and the world is as it
    was: no request has been sent. *)
Theorem transcribe_missing_key
    (upstream : Upstream TranscriptionResult) (buffer : Buffer) (mimeType : string)
    (settings : TranscriberSettings)
    (onProgress : option WhisperService.ProgressCallback) (w : World) :
  provider settings = openai ->
  secret_apiKey w = None \/ secret_apiKey w = Some "" ->
  WhisperService.transcribe upstream buffer mimeType settings onProgress w
  = (Rejected (Error "Please enter your OpenAI API key in Settings."), w) /\
  requests (snd (WhisperService.transcribe upstream buffer mimeType settings onProgress w))
  = requests w.
Proof.
  intros Hprovider Hkey.
  assert (WhisperService.transcribe upstream buffer mimeType settings onProgress w
          = (Rejected (Error "Please enter your OpenAI API key in Settings."), w)) as H.
  { unfold WhisperService.transcribe, bind, StorageService.getApiKey, gets.
    rewrite Hprovider. destruct Hkey as [-> | ->]; reflexivity. }
  rewrite H. split; reflexivity.
Qed.

Lemma transcribe_missing_key_witness :
  provider defaultSettings = openai /\
  secret_apiKey keyless_world = None /\
  WhisperService.transcribe (always_hears "never asked") ten_bytes "audio/wav"
    defaultSettings None keyless_world
  = (Rejected (Error "Please enter your OpenAI API key in Settings."), keyless_world).
Proof.
  split; [reflexivity|]. split; [reflexivity|].
  exact (proj1 (transcribe_missing_key (always_hears "never asked") ten_bytes "audio/wav"
                  defaultSettings None keyless_world eq_refl (or_introl eq_refl))).
Defined.

(** ** Cleanup *)

Section CleanupFacts.

Import OpenAIService.

Variable upstream : Upstream ChatCompletion.

Example token_budget_hello : token_budget "hello" = 508%Z.
Proof. reflexivity. Qed.

Example token_budget_empty : token_budget "" = 500%Z.
Proof. reflexivity. Qed.

(** Six Cyrillic letters are six code units (and twelve bytes). *)
Example token_budget_cyrillic : token_budget "привет" = 509%Z.
Proof. reflexivity. Qed.

(** A character outside the basic plane is two code units. *)
Example token_budget_astral : token_budget "😀" = 503%Z.
Proof. reflexivity. Qed.

Lemma token_budget_ceil (rawText : string) :
  token_budget rawText = ((3 * Z.of_nat (Js.length rawText) + 1) / 2 + 500)%Z.
Proof.
  unfold token_budget, Qceiling, Qfloor, Qmult, Qopp, inject_Z, Qnum, Qden.
  change (Z.pos (1 * 10)) with 10%Z.
  generalize (Z.of_nat (Js.length rawText)); intros n.
  f_equal.
  pose proof (Z.div_mod (- (n * 15)) 10 ltac:(lia)).
  pose proof (Z.mod_pos_bound (- (n * 15)) 10 ltac:(lia)).
  pose proof (Z.div_mod (3 * n + 1) 2 ltac:(lia)).
  pose proof (Z.mod_pos_bound (3 * n + 1) 2 ltac:(lia)).
  lia.
Qed.

(** A call with a key sends exactly the cleanup request. *)
Lemma cleanupText_sends (rawText key : string) (model : option string) (w : World) :
  secret_apiKey w = Some key ->
  Js.truthy key = true ->
  snd (cleanupText upstream rawText model w)
  = sent (cleanup_request rawText (default "gpt-4o-mini" model) key) w.
Proof.
  intros Hkey Htruthy.
  unfold cleanupText, bind, StorageService.getApiKey, gets, fetch.
  rewrite Hkey, Htruthy.
  destruct (upstream _ _) as [e|[[e|[[|first others]]]|status json]|]; try reflexivity.
  destruct (error_message_or _ _); reflexivity.
Qed.

Lemma cleanupText_outcome (rawText key : string) (model : option string) (w : World) :
  secret_apiKey w = Some key ->
  Js.truthy key = true ->
  fst (cleanupText upstream rawText model w)
  = match upstream (requests w)
            (cleanup_request rawText (default "gpt-4o-mini" model) key) with
    | NetworkError e => Rejected e
    | Responded (HttpOk (inl e)) => Rejected e
    | Responded (HttpOk (inr result)) =>
        match choices result with
        | first :: _ => Resolved (content (choice_message first))
        | [] => Rejected no_choice
        end
    | Responded (HttpError status json) =>
        match error_message_or json
                ("Cleanup failed with status " +:+ Js.string_of_nat status) with
        | inr errorMessage => Rejected (Error errorMessage)
        | inl thrown => Rejected thrown
        end
    | NeverSettles => Pending
    end.
Proof.
  intros Hkey Htruthy.
  unfold cleanupText, bind, StorageService.getApiKey, gets, fetch.
  rewrite Hkey, Htruthy.
  destruct (upstream _ _) as [e|[[e|[[|first others]]]|status json]|]; try reflexivity.
  destruct (error_message_or _ _); reflexivity.
Qed.

(** Cleanup never touches what the host shows, nor the stores. *)
Lemma cleanupText_frame (rawText : string) (model : option string) (w : World) :
  ui (snd (cleanupText upstream rawText model w)) = ui w /\
  globalState (snd (cleanupText upstream rawText model w)) = globalState w.
Proof.
  unfold cleanupText, bind, StorageService.getApiKey, gets, fetch, throw.
  destruct (secret_apiKey w) as [key|]; [|split; reflexivity].
  destruct (Js.truthy key); [|split; reflexivity].
  destruct (upstream _ _) as [e|[[e|[[|first others]]]|status json]|];
    try (split; reflexivity).
  destruct (error_message_or _ _); split; reflexivity.
Qed.

End CleanupFacts.

(** C9. For every transcript, a cleanup call that has a key sends one
    chat-completion request with temperature 0.3, a token budget of
    [ceil(len * 1.5) + 500] where [len] is the length of the transcript
    in UTF-16 code units, the fixed system instruction, whatever the
    transcript, and the transcript itself as the user message; when the
    answer has a first choice, its message content is returned as it
    is. *)
Theorem cleanupText_request_and_result
    (upstream : Upstream ChatCompletion) (rawText key : string)
    (model : option string) (w : World) :
  secret_apiKey w = Some key ->
  Js.truthy key = true ->
  let len := Z.of_nat (utf16_length rawText) in
  let run := OpenAIService.cleanupText upstream rawText model w in
  exists (request : Request) (json : ChatCompletionRequest),
    requests (snd run) = requests w ++ [request] /\
    body request = JsonBody json /\
    temperature json = 3 # 10 /\
    max_tokens json = OpenAIService.token_budget rawText /\
    (max_tokens json = (3 * len + 1) / 2 + 500)%Z /\
    (3 * len <= 2 * (max_tokens json - 500) < 3 * len + 2)%Z /\
    messages json
    = [mkChatMessage "system"
"You are a text cleanup assistant. Clean up the following transcribed speech:

1. Remove filler words and verbal tics (um, uh, like, you know, I mean, so, basically, etc.)
2. Remove repeated words and stutters
3. Fix punctuation and capitalization
4. Split into logical paragraphs
5. Keep the original meaning and tone intact
6. Output ONLY plain text - no markdown, no headers, no bullet points

Return only the cleaned text, nothing else.";
       mkChatMessage "user" rawText] /\
    (forall (first : Choice) (others : list Choice),
       upstream (requests w) request
         = Responded (HttpOk (inr (mkCompletion (first :: others)))) ->
       fst run = Resolved (content (choice_message first))).
Proof.
  intros Hkey Htruthy. cbv zeta.
  eexists. eexists.
  rewrite (cleanupText_sends upstream rawText key model w Hkey Htruthy).
  rewrite (cleanupText_outcome upstream rawText key model w Hkey Htruthy).
  split; [reflexivity|]. split; [reflexivity|]. split; [reflexivity|].
  split; [reflexivity|]. cbn [max_tokens].
  rewrite token_budget_ceil, length_utf16.
  split; [reflexivity|]. split.
  - pose proof (Z.div_mod (3 * Z.of_nat (utf16_length rawText) + 1) 2 ltac:(lia)).
    pose proof (Z.mod_pos_bound (3 * Z.of_nat (utf16_length rawText) + 1) 2 ltac:(lia)).
    lia.
  - split; [reflexivity|]. intros first others ->. reflexivity.
Qed.

(** "um hello" (8 characters) is sent with a budget of 512 tokens. *)
Lemma cleanupText_request_and_result_witness :
  exists (request : Request) (json : ChatCompletionRequest),
    requests (snd (OpenAIService.cleanupText (always_cleans "Hello.") "um hello" None
                     keyed_world)) = [request] /\
    body request = JsonBody json /\
    temperature json = 3 # 10 /\
    max_tokens json = 512%Z /\
    fst (OpenAIService.cleanupText (always_cleans "Hello.") "um hello" None keyed_world)
    = Resolved "Hello.".
Proof.
  destruct (cleanupText_request_and_result (always_cleans "Hello.") "um hello" "sk-test"
              None keyed_world eq_refl eq_refl)
    as (request & json & Hreq & Hbody & Htemp & _ & Hbudget & _ & _ & Hresult).
  exists request, json.
  split; [exact Hreq|]. split; [exact Hbody|]. split; [exact Htemp|].
  split; [exact Hbudget|].
  cbn [keyed_world requests app] in Hreq. injection Hreq as Hreq.
  apply (Hresult (mkChoice (mkChatMessage "assistant" "Hello.")) []).
  reflexivity.
Defined.

(** ** Cancelling a native recording *)

Section CancelFacts.

Import AudioRecorderService.

Lemma cancel_recorder (r : Recorder) (os : Os) : fst (cancel r os) = initial.
Proof. reflexivity. Qed.

(** Which files are there after [cancel]: those that were, less the
    temporary file when its removal went through. *)
Lemma cancel_files (r : Recorder) (os : Os) (path q : string) :
  tempFile r = Some path ->
  Js.truthy path = true ->
  q ∈ files (snd (cancel r os)) <->
  q ∈ files os /\ (q = path -> path ∈ undeletable os).
Proof.
  intros Hfile Htruthy. unfold cancel, existsSync, unlinkSync.
  rewrite Hfile, Htruthy. cbn [snd andb].
  destruct (process r) as [p|]; cbn [kill files undeletable];
    (destruct (bool_decide_reflect (path ∈ files os)) as [Hin|Hout]; cbn [andb];
     [destruct (bool_decide_reflect (path ∈ undeletable os)) as [Hl|Hfree];
      cbn [negb files]|]);
    try rewrite elem_of_difference, elem_of_singleton;
    (split; [intros H; split; [tauto | intros ->; tauto] | intros [H1 H2]; tauto]).
Qed.

Lemma cancel_running (r : Recorder) (os : Os) (p : ChildProcess) :
  process r = Some p -> pid p ∉ running (snd (cancel r os)).
Proof.
  intros Hp. unfold cancel. rewrite Hp. cbn [snd].
  assert (Hrun : forall o : Os,
            running (match tempFile r with
                     | Some path =>
                         if Js.truthy path && existsSync path o
                         then match unlinkSync path o with
                              | Some o' => o'
                              | None => o
                              end
                         else o
                     | None => o
                     end) = running o).
  { intros o. destruct (tempFile r) as [path|]; [|reflexivity].
    destruct (Js.truthy path && existsSync path o); [|reflexivity].
    unfold unlinkSync.
    destruct (bool_decide (path ∈ files o) && negb (bool_decide (path ∈ undeletable o)));
      reflexivity. }
  rewrite Hrun. cbn [kill running].
  rewrite elem_of_difference, elem_of_singleton. tauto.
Qed.

End CancelFacts.

Lemma stuck_recorder_recording : AudioRecorderService.recording stuck_recorder stuck_path.
Proof. repeat split. exists (AudioRecorderService.mkProcess 4242). reflexivity. Defined.

(** C7, as stated, fails: when removing the temporary file throws, the
    error is swallowed and the file is still on disk after [cancel]. *)
Lemma cancel_may_leave_the_file :
  AudioRecorderService.recording stuck_recorder stuck_path /\
  stuck_path ∈ AudioRecorderService.files
                 (snd (AudioRecorderService.cancel stuck_recorder stuck_os)) /\
  AudioRecorderService.getIsRecording
    (fst (AudioRecorderService.cancel stuck_recorder stuck_os)) = false.
Proof.
  split; [exact stuck_recorder_recording|]. split; [|reflexivity].
  apply (cancel_files stuck_recorder stuck_os stuck_path stuck_path eq_refl eq_refl).
  split; [|intros _]; cbn [stuck_os AudioRecorderService.files
                           AudioRecorderService.undeletable];
    apply elem_of_singleton; reflexivity.
Qed.

(** C7, amended. After [cancel] on an active recording the service
    reports not recording (flag off, elapsed time 0, no process, no
    temporary path), the recording process is not running, and nothing
    is returned but the reset service; the temporary file is removed on
    a best-effort basis: it is gone unless its removal fails, in which
    case it stays and [cancel] still completes.  No other file is
    touched. *)
Theorem cancel_resets_and_unlinks
    (r : AudioRecorderService.Recorder) (os : AudioRecorderService.Os) (path : string) :
  AudioRecorderService.recording r path ->
  Js.truthy path = true ->
  let r' := fst (AudioRecorderService.cancel r os) in
  let os' := snd (AudioRecorderService.cancel r os) in
  AudioRecorderService.getIsRecording r' = false /\
  AudioRecorderService.getElapsedTime r' os' = 0%Z /\
  AudioRecorderService.process r' = None /\
  AudioRecorderService.tempFile r' = None /\
  (forall p, AudioRecorderService.process r = Some p ->
             AudioRecorderService.pid p ∉ AudioRecorderService.running os') /\
  (path ∉ AudioRecorderService.undeletable os -> path ∉ AudioRecorderService.files os') /\
  (path ∈ AudioRecorderService.files os' <->
   path ∈ AudioRecorderService.files os /\ path ∈ AudioRecorderService.undeletable os) /\
  (forall q, q <> path ->
     q ∈ AudioRecorderService.files os' <-> q ∈ AudioRecorderService.files os).
Proof.
  intros (Hrec & Hfile & Hproc) Htruthy. cbv zeta.
  pose proof (cancel_files r os path) as Hfiles.
  split; [reflexivity|]. split; [reflexivity|]. split; [reflexivity|].
  split; [reflexivity|]. split; [|split; [|split]].
  - intros p Hp. exact (cancel_running r os p Hp).
  - intros Hfree Hin. apply (Hfiles path Hfile Htruthy) in Hin as [_ Hl].
    exact (Hfree (Hl eq_refl)).
  - rewrite (Hfiles path Hfile Htruthy). tauto.
  - intros q Hne. rewrite (Hfiles q Hfile Htruthy). tauto.
Qed.

Lemma cancel_resets_and_unlinks_witness :
  AudioRecorderService.recording stuck_recorder stuck_path /\
  Js.truthy stuck_path = true /\
  AudioRecorderService.getIsRecording
    (fst (AudioRecorderService.cancel stuck_recorder free_os)) = false /\
  stuck_path ∉ AudioRecorderService.files
                 (snd (AudioRecorderService.cancel stuck_recorder free_os)).
Proof.
  pose proof (cancel_resets_and_unlinks stuck_recorder free_os stuck_path
                stuck_recorder_recording eq_refl) as H.
  cbv zeta in H. destruct H as (Hflag & _ & _ & _ & _ & Hgone & _).
  split; [exact stuck_recorder_recording|]. split; [reflexivity|].
  split; [exact Hflag|].
  apply Hgone. cbn [free_os AudioRecorderService.undeletable].
  apply not_elem_of_empty.
Defined.

(** ** The transcription handler *)

Section PanelFacts.

Import VoiceTranscriberPanel.

Variable whisper_upstream : Upstream TranscriptionResult.
Variable openai_upstream : Upstream ChatCompletion.
Variable from_base64 : string -> Buffer.

(** [_handleTranscription], by the outcome of each awaited call. *)
Lemma handleTranscription_run (audioData mimeType : string) (w : World) :
  _handleTranscription whisper_upstream openai_upstream from_base64 audioData mimeType w
  = let settings := StorageService.getSettings w in
    match WhisperService.transcribe whisper_upstream (from_base64 audioData) mimeType
            settings (Some on_progress) (transcribing w) with
    | (Resolved rawText, w1) =>
        if enableCleanup settings && provider_eqb (provider settings) openai then
          match OpenAIService.cleanupText openai_upstream rawText
                  (Some (model_name (cleanupModel settings)))
                  (set_ui (post (transcriptionProgress "Cleaning up text...")) w1) with
          | (Resolved cleaned, w2) => (Resolved tt, complete rawText (Some cleaned) w2)
          | (Rejected _, w2) =>
              (Resolved tt, complete rawText None (set_ui (warn cleanup_warning) w2))
          | (Pending, w2) => (Pending, w2)
          end
        else (Resolved tt, complete rawText None w1)
    | (Rejected e, w1) =>
        (Resolved tt,
         set_ui (alert (error_message e))
           (set_ui (post (transcriptionError (error_message e))) w1))
    | (Pending, w1) => (Pending, w1)
    end.
Proof.
  cbv zeta.
  unfold _handleTranscription, transcription_job, try_catch, bind, _postMessage,
    showWarningMessage, showErrorMessage, StorageService.saveRecordingSession,
    modify, gets, ret.
  change (StorageService.getSettings (set_ui (post transcriptionStart) w))
    with (StorageService.getSettings w).
  fold (transcribing w).
  destruct (WhisperService.transcribe _ _ _ _ _ _) as [[rawText|e|] w1]; try reflexivity.
  destruct (enableCleanup _ && provider_eqb _ _); [|reflexivity].
  destruct (OpenAIService.cleanupText _ _ _ _) as [[cleaned|e|] w2]; reflexivity.
Qed.

Lemma same_notices_refl (w : World) : same_notices w w.
Proof. repeat split. Qed.

Lemma same_notices_trans (w1 w2 w3 : World) :
  same_notices w1 w2 -> same_notices w2 w3 -> same_notices w1 w3.
Proof. unfold same_notices. intuition congruence. Qed.

Lemma transcribeSingle_notices (chunk : Buffer) (settings : TranscriberSettings)
    (apiKey : option string) (mimeType : string) (w : World) :
  same_notices w
    (snd (WhisperService.transcribeSingle whisper_upstream chunk mimeType settings apiKey w)).
Proof. rewrite transcribeSingle_sends. repeat split. Qed.

(** Progress reports are posted messages, nothing else. *)
Lemma transcribeChunks_notices (settings : TranscriberSettings) (apiKey : option string)
    (mimeType : string) (total : nat) (chunks : list Buffer) :
  forall (i : nat) (acc : list string) (w : World),
    same_notices w
      (snd (WhisperService.transcribeChunks whisper_upstream chunks i total mimeType
              settings apiKey (Some on_progress) acc w)).
Proof.
  induction chunks as [|chunk chunks IH]; intros i acc w.
  - apply same_notices_refl.
  - rewrite transcribeChunks_cons. unfold bind at 1. cbn [modify].
    unfold bind at 1.
    set (w0 := set_ui (on_progress (WhisperService.progress_message i total)) w).
    pose proof (transcribeSingle_notices chunk settings apiKey mimeType w0) as Hsingle.
    assert (same_notices w w0) as Hpost by (repeat split).
    destruct (WhisperService.transcribeSingle _ _ _ _ _ w0) as [[text|e|] w1];
      cbn [snd] in *.
    + eapply same_notices_trans; [exact Hpost|].
      eapply same_notices_trans; [exact Hsingle | apply IH].
    + eapply same_notices_trans; [exact Hpost | exact Hsingle].
    + eapply same_notices_trans; [exact Hpost | exact Hsingle].
Qed.

Lemma transcribe_notices (buffer : Buffer) (settings : TranscriberSettings)
    (mimeType : string) (w : World) :
  same_notices w
    (snd (WhisperService.transcribe whisper_upstream buffer mimeType settings
            (Some on_progress) w)).
Proof.
  unfold WhisperService.transcribe, bind, StorageService.getApiKey, gets.
  destruct (provider_eqb _ _ && negb _); [apply same_notices_refl|].
  destruct (_ <? _)%nat; [|apply transcribeSingle_notices].
  unfold WhisperService.transcribeChunked.
  destruct (WhisperService.splitBuffer _ _) as [chunks|]; [|apply same_notices_refl].
  unfold bind.
  pose proof (transcribeChunks_notices settings (secret_apiKey w) mimeType
                (length chunks) chunks 0 [] w) as Hloop.
  destruct (WhisperService.transcribeChunks _ _ _ _ _ _ _ _ _ _) as [[texts|e|] w1];
    exact Hloop.
Qed.

End PanelFacts.


Example cleanup_failure_run :
  let final :=
    VoiceTranscriberPanel._handleTranscription (always_hears "um hello")
      (always_refuses 500) (fun _ => ten_bytes) "AAAAAAAAAAAAAA==" "audio/wav"
      keyed_world in
  fst final = Resolved tt /\
  posted (ui (snd final))
  = [transcriptionStart;
     transcriptionProgress "Transcribing audio...";
     transcriptionProgress "Cleaning up text...";
     transcriptionComplete "um hello" None] /\
  warnings (ui (snd final)) = ["Text cleanup failed. Showing original transcription."] /\
  errors (ui (snd final)) = [] /\
  length (requests (snd final)) = 2.
Proof. cbv zeta. repeat split. Qed.

Example transcription_failure_run :
  let final :=
    VoiceTranscriberPanel._handleTranscription (always_refuses 401)
      (always_cleans "Hello.") (fun _ => ten_bytes) "AAAAAAAAAAAAAA==" "audio/wav"
      keyed_world in
  fst final = Resolved tt /\
  posted (ui (snd final))
  = [transcriptionStart;
     transcriptionProgress "Transcribing audio...";
     transcriptionError "Transcription failed with status 401"] /\
  errors (ui (snd final)) = ["Transcription failed with status 401"] /\
  length (requests (snd final)) = 1.
Proof. cbv zeta. repeat split. Qed.

(** C6. With cleanup enabled and the [openai] provider, when the
    transcription resolves and the cleanup call fails, the handler still
    completes: it posts [transcriptionComplete] with the raw transcript
    and no cleaned text, shows the cleanup warning, shows no error, and
    clears the stored recording session.  An error is shown exactly when
    the transcription itself fails: then the handler posts
    [transcriptionError] and shows the error message; and when the
    transcription does not fail, no error is shown whatever the cleanup
    does. *)
Theorem cleanup_failure_keeps_raw_transcript
    (whisper_upstream : Upstream TranscriptionResult)
    (openai_upstream : Upstream ChatCompletion) (from_base64 : string -> Buffer)
    (audioData mimeType : string) (w : World) :
  let settings := StorageService.getSettings w in
  let heard :=
    WhisperService.transcribe whisper_upstream (from_base64 audioData) mimeType settings
      (Some VoiceTranscriberPanel.on_progress) (transcribing w) in
  let final :=
    VoiceTranscriberPanel._handleTranscription whisper_upstream openai_upstream
      from_base64 audioData mimeType w in
  (forall (rawText : string) (w1 w2 : World) (e : JsError),
     enableCleanup settings = true ->
     provider settings = openai ->
     heard = (Resolved rawText, w1) ->
     OpenAIService.cleanupText openai_upstream rawText
       (Some (model_name (cleanupModel settings)))
       (set_ui (VoiceTranscriberPanel.post (transcriptionProgress "Cleaning up text...")) w1)
     = (Rejected e, w2) ->
     fst final = Resolved tt /\
     posted (ui (snd final))
     = posted (ui w1) ++
       [transcriptionProgress "Cleaning up text..."; transcriptionComplete rawText None] /\
     warnings (ui (snd final))
     = warnings (ui w) ++ [VoiceTranscriberPanel.cleanup_warning] /\
     errors (ui (snd final)) = errors (ui w) /\
     StorageService.getRecordingSession (snd final) = None) /\
  (forall (e : JsError) (w1 : World),
     heard = (Rejected e, w1) ->
     fst final = Resolved tt /\
     posted (ui (snd final)) = posted (ui w1) ++ [transcriptionError (error_message e)] /\
     errors (ui (snd final)) = errors (ui w) ++ [error_message e]) /\
  ((forall e : JsError, fst heard <> Rejected e) ->
   errors (ui (snd final)) = errors (ui w)).
Proof.
  cbv zeta. rewrite handleTranscription_run. cbv zeta.
  pose proof (transcribe_notices whisper_upstream (from_base64 audioData)
                (StorageService.getSettings w) mimeType (transcribing w))
    as (Hwarn & Herr & _ & _).
  destruct (WhisperService.transcribe _ _ _ _ _ _) as [heard w1] eqn:Hheard.
  cbn [snd fst] in *.
  split; [|split].
  - intros rawText w1' w2 e Henable Hprovider Heq Hclean.
    injection Heq as -> <-.
    rewrite Henable, Hprovider. cbn [andb provider_eqb]. rewrite Hclean.
    pose proof (cleanupText_frame openai_upstream rawText
                  (Some (model_name (cleanupModel (StorageService.getSettings w))))
                  (set_ui (VoiceTranscriberPanel.post
                             (transcriptionProgress "Cleaning up text...")) w1))
      as [Hui _].
    rewrite Hclean in Hui. cbn [snd] in Hui.
    split; [reflexivity|]. cbn [snd complete set_globalState set_ui ui
      VoiceTranscriberPanel.post VoiceTranscriberPanel.warn posted warnings errors
      StorageService.getRecordingSession globalState StorageService.update_session
      gs_session].
    rewrite Hui. cbn [set_ui ui VoiceTranscriberPanel.post posted warnings errors].
    rewrite <- app_assoc, Hwarn, Herr. repeat split.
  - intros e w1' Heq. injection Heq as -> <-.
    split; [reflexivity|]. cbn. rewrite Herr. split; reflexivity.
  - intros Hok. destruct heard as [rawText|e|].
    + destruct (enableCleanup _ && provider_eqb _ _).
      * pose proof (cleanupText_frame openai_upstream rawText
                      (Some (model_name (cleanupModel (StorageService.getSettings w))))
                      (set_ui (VoiceTranscriberPanel.post
                                 (transcriptionProgress "Cleaning up text...")) w1))
          as [Hui _].
        destruct (OpenAIService.cleanupText _ _ _ _) as [[cleaned|e|] w2];
          cbn [snd] in Hui; cbn; rewrite Hui; exact Herr.
      * exact Herr.
    + exfalso. exact (Hok e eq_refl).
    + exact Herr.
Qed.

(** The handler run on a recording that is heard as "um hello" while the
    cleanup endpoint answers 500. *)
Lemma cleanup_failure_keeps_raw_transcript_witness :
  let final :=
    VoiceTranscriberPanel._handleTranscription (always_hears "um hello")
      (always_refuses 500) (fun _ => ten_bytes) "AAAAAAAAAAAAAA==" "audio/wav"
      keyed_world in
  fst final = Resolved tt /\
  warnings (ui (snd final)) = [VoiceTranscriberPanel.cleanup_warning] /\
  errors (ui (snd final)) = [] /\
  StorageService.getRecordingSession (snd final) = None.
Proof.
  cbv zeta.
  destruct (cleanup_failure_keeps_raw_transcript (always_hears "um hello")
              (always_refuses 500) (fun _ => ten_bytes) "AAAAAAAAAAAAAA==" "audio/wav"
              keyed_world) as (Hsoft & _ & _).
  destruct (Hsoft "um hello" _ _ _ eq_refl eq_refl eq_refl eq_refl)
    as (Hdone & _ & Hwarn & Herr & Hsession).
  split; [exact Hdone|]. split; [exact Hwarn|]. split; [exact Herr | exact Hsession].
Defined.

(** * Further properties *)

(** ** Requests and progress reports of a transcription *)

Section TranscribeMore.

Import WhisperService.

Variable upstream : Upstream TranscriptionResult.
Variable mimeType : string.
Variable settings : TranscriberSettings.

Lemma progress_step_ui (onProgress : option ProgressCallback) (i total : nat) (w : World) :
  exists w0 : World,
    match onProgress with
    | Some callback => modify (set_ui (callback (progress_message i total)))
    | None => ret tt
    end w = (Resolved tt, w0) /\
    ui w0 = announce onProgress total (ui w) i /\
    requests w0 = requests w /\
    secret_apiKey w0 = secret_apiKey w /\
    globalState w0 = globalState w.
Proof.
  destruct onProgress as [callback|]; eexists; repeat split; reflexivity.
Qed.

(** Reports and requests go in lockstep: after any run of the loop, [k]
    slices have been announced and sent, in order, for some [k]; the
    loop resolves only with every slice sent. *)
Lemma transcribeChunks_lockstep (apiKey : option string)
    (onProgress : option ProgressCallback) (total : nat) (chunks : list Buffer) :
  forall (i : nat) (acc : list string) (w : World),
    let run :=
      transcribeChunks upstream chunks i total mimeType settings apiKey onProgress acc w in
    exists k : nat,
      k <= length chunks /\
      requests (snd run)
      = requests w ++ map (fun c => single_request c mimeType settings apiKey) (take k chunks) /\
      ui (snd run) = fold_left (announce onProgress total) (seq i k) (ui w) /\
      secret_apiKey (snd run) = secret_apiKey w /\
      globalState (snd run) = globalState w /\
      (forall texts, fst run = Resolved texts -> k = length chunks).
Proof.
  induction chunks as [|chunk chunks IH]; intros i acc w; cbv zeta.
  - exists 0. cbn. rewrite app_nil_r. repeat split; auto.
  - destruct (progress_step_ui onProgress i total w) as (w0 & Hstep & Hui & Hreq & Hkey & Hgs).
    assert (Hrun :
      transcribeChunks upstream (chunk :: chunks) i total mimeType settings apiKey
        onProgress acc w
      = match transcribeSingle upstream chunk mimeType settings apiKey w0 with
        | (Resolved text, w1) =>
            transcribeChunks upstream chunks (S i) total mimeType settings apiKey
              onProgress (acc ++ [text]) w1
        | (Rejected e, w1) => (Rejected e, w1)
        | (Pending, w1) => (Pending, w1)
        end).
    { rewrite transcribeChunks_cons. unfold bind. rewrite Hstep. reflexivity. }
    rewrite Hrun. clear Hrun.
    pose proof (transcribeSingle_sends upstream mimeType settings chunk apiKey w0) as Hsent.
    destruct (transcribeSingle upstream chunk mimeType settings apiKey w0)
      as [[text|e|] w1]; cbn [snd] in Hsent; subst w1.
    + destruct (IH (S i) (acc ++ [text])
                  (sent (single_request chunk mimeType settings apiKey) w0))
        as (k & Hk & Hreqs & Huis & Hkeys & Hgss & Hdone).
      exists (S k). cbv zeta in *.
      split; [cbn [length]; lia|].
      split; [rewrite Hreqs; cbn [sent requests take map]; rewrite Hreq, <- app_assoc;
              reflexivity|].
      split; [rewrite Huis; cbn [sent ui seq fold_left]; rewrite Hui; reflexivity|].
      split; [rewrite Hkeys; exact Hkey|].
      split; [rewrite Hgss; exact Hgs|].
      intros texts Hres. cbn [length]. f_equal. exact (Hdone texts Hres).
    + exists 1. cbn [snd fst sent requests ui secret_apiKey globalState].
      split; [cbn [length]; lia|].
      split; [rewrite Hreq; reflexivity|].
      split; [cbn [seq fold_left]; rewrite Hui; reflexivity|].
      repeat split; auto. discriminate.
    + exists 1. cbn [snd fst sent requests ui secret_apiKey globalState].
      split; [cbn [length]; lia|].
      split; [rewrite Hreq; reflexivity|].
      split; [cbn [seq fold_left]; rewrite Hui; reflexivity|].
      repeat split; auto. discriminate.
Qed.

(** The same for [transcribe], on the buffers it means to send. *)
Lemma transcribe_lockstep (buffer : Buffer) (onProgress : option ProgressCallback)
    (w : World) :
  let run := transcribe upstream buffer mimeType settings onProgress w in
  exists k : nat,
    k <= length (planned buffer) /\
    requests (snd run)
    = requests w ++
      map (fun c => single_request c mimeType settings (secret_apiKey w))
        (take k (planned buffer)) /\
    ui (snd run)
    = (if (MAX_FILE_SIZE <? length buffer)%nat
       then fold_left (announce onProgress (length (planned buffer))) (seq 0 k) (ui w)
       else ui w) /\
    secret_apiKey (snd run) = secret_apiKey w /\
    globalState (snd run) = globalState w /\
    (forall text, fst run = Resolved text -> k = length (planned buffer)) /\
    (0 < k -> has_credential settings w).
Proof.
  cbv zeta. unfold transcribe, bind, StorageService.getApiKey, gets, planned.
  destruct (provider_eqb (provider settings) openai && negb (Js.truthy_opt (secret_apiKey w)))
    eqn:Hguard.
  - exists 0. cbn [fst snd throw]. rewrite take_0, app_nil_r.
    split; [lia|]. split; [reflexivity|].
    split; [destruct (_ <? _)%nat; reflexivity|].
    repeat split; try discriminate. lia.
  - assert (Hcred : has_credential settings w).
    { intros Hp. rewrite Hp in Hguard. cbn in Hguard.
      destruct (Js.truthy_opt (secret_apiKey w)); [reflexivity | discriminate]. }
    destruct (MAX_FILE_SIZE <? length buffer)%nat.
    + unfold transcribeChunked.
      rewrite (splitBuffer_slices buffer _ MAX_FILE_SIZE_positive). unfold bind.
      destruct (transcribeChunks_lockstep (secret_apiKey w) onProgress
                  (length (slices buffer MAX_FILE_SIZE)) (slices buffer MAX_FILE_SIZE)
                  0 [] w) as (k & Hk & Hreq & Hui & Hkey & Hgs & Hdone).
      cbv zeta in *. exists k.
      destruct (transcribeChunks _ _ _ _ _ _ _ _ _ _) as [[texts|e|] w1];
        cbn [fst snd] in *; repeat split; auto; try discriminate.
      intros _ _. exact (Hdone texts eq_refl).
    + exists 1. rewrite transcribeSingle_sends.
      split; [cbn; lia|]. split; [reflexivity|]. split; [reflexivity|].
      repeat split; auto.
Qed.

End TranscribeMore.

(** X1. Whatever the upstream does, the requests [transcribe] sends
    are, in slice order, those of the first [k] buffers it means to
    send: the [ceil(length/ceiling)] slices of an oversized buffer, the
    one buffer itself otherwise (also when it is empty).  So it sends at
    most [ceil(length/ceiling)] requests for an oversized buffer and at
    most one for any other, none out of order, none repeated; it
    resolves only after all of them were sent, and it leaves the stored
    key and the stores as they were. *)
Theorem transcribe_sends_slices_in_order
    (upstream : Upstream TranscriptionResult) (buffer : Buffer) (mimeType : string)
    (settings : TranscriberSettings)
    (onProgress : option WhisperService.ProgressCallback) (w : World) :
  let run := WhisperService.transcribe upstream buffer mimeType settings onProgress w in
  exists k : nat,
    k <= length (planned buffer) /\
    length (planned buffer)
    = (if (WhisperService.MAX_FILE_SIZE <? length buffer)%nat
       then ceil_div (length buffer) WhisperService.MAX_FILE_SIZE else 1) /\
    requests (snd run)
    = requests w ++
      map (fun c => WhisperService.single_request c mimeType settings (secret_apiKey w))
        (take k (planned buffer)) /\
    (forall text, fst run = Resolved text -> k = length (planned buffer)) /\
    secret_apiKey (snd run) = secret_apiKey w /\
    globalState (snd run) = globalState w.
Proof.
  cbv zeta.
  destruct (transcribe_lockstep upstream mimeType settings buffer onProgress w)
    as (k & Hk & Hreq & _ & Hkey & Hgs & Hdone & _).
  exists k. split; [exact Hk|]. split.
  - unfold planned. destruct (_ <? _)%nat; [apply length_slices | reflexivity].
  - repeat split; assumption.
Qed.

(** X2. In the chunked path the progress callback is called once
    before each request, with the messages "Processing chunk i/total...",
    [i] counting from 1 and [total] being the number of chunks,
    [ceil(length/ceiling)], both in decimal, in order: after any run, as
    many reports were made as requests were sent.  In the single path it
    is never called. *)
Theorem transcribe_reports_each_chunk
    (upstream : Upstream TranscriptionResult) (buffer : Buffer) (mimeType : string)
    (settings : TranscriberSettings)
    (onProgress : option WhisperService.ProgressCallback) (w : World) :
  let run := WhisperService.transcribe upstream buffer mimeType settings onProgress w in
  let total := ceil_div (length buffer) WhisperService.MAX_FILE_SIZE in
  let decimal := fun n : nat => NilZero.string_of_uint (Nat.to_uint n) in
  let report := fun (u : Ui) (i : nat) =>
    match onProgress with
    | Some callback =>
        callback ("Processing chunk " +:+ decimal (i + 1) +:+ "/" +:+ decimal total +:+ "...") u
    | None => u
    end in
  exists k : nat,
    length (requests (snd run)) = length (requests w) + k /\
    ui (snd run)
    = (if (WhisperService.MAX_FILE_SIZE <? length buffer)%nat
       then fold_left report (seq 0 k) (ui w)
       else ui w) /\
    (forall text, fst run = Resolved text ->
       k = if (WhisperService.MAX_FILE_SIZE <? length buffer)%nat then total else 1).
Proof.
  cbv zeta.
  destruct (transcribe_lockstep upstream mimeType settings buffer onProgress w)
    as (k & Hk & Hreq & Hui & _ & _ & Hdone & _).
  assert (Hplanned : length (planned buffer)
                     = if (WhisperService.MAX_FILE_SIZE <? length buffer)%nat
                       then ceil_div (length buffer) WhisperService.MAX_FILE_SIZE else 1).
  { unfold planned. destruct (_ <? _)%nat; [apply length_slices | reflexivity]. }
  exists k. split; [|split].
  - rewrite Hreq, length_app, length_map, length_take. lia.
  - rewrite Hui. destruct (_ <? _)%nat; [|reflexivity].
    rewrite Hplanned. reflexivity.
  - intros text Hres. rewrite <- Hplanned. exact (Hdone text Hres).
Qed.

Example progress_reports_of_two_chunks :
  fold_left (announce (Some VoiceTranscriberPanel.on_progress) 2) (seq 0 2) (mkUi [] [] [])
  = mkUi [transcriptionProgress "Processing chunk 1/2...";
          transcriptionProgress "Processing chunk 2/2..."] [] [].
Proof. reflexivity. Qed.

(** X3. A stored key never leaves for a self-hosted endpoint: with the
    [local] provider every request goes to the configured URL and
    carries no header.  With the [openai] provider every request goes to
    the OpenAI endpoint and carries the stored key as bearer token. *)
Theorem transcribe_key_stays_with_openai
    (upstream : Upstream TranscriptionResult) (buffer : Buffer) (mimeType : string)
    (settings : TranscriberSettings)
    (onProgress : option WhisperService.ProgressCallback) (w : World) :
  let run := WhisperService.transcribe upstream buffer mimeType settings onProgress w in
  let new := drop (length (requests w)) (requests (snd run)) in
  (provider settings = local ->
   Forall (fun r => url r = localApiUrl settings /\ headers r = []) new) /\
  (provider settings = openai ->
   Forall (fun r =>
             url r = "https://api.openai.com/v1/audio/transcriptions" /\
             exists key, secret_apiKey w = Some key /\ key <> "" /\
                         headers r = [("Authorization", "Bearer " +:+ key)]) new).
Proof.
  cbv zeta.
  destruct (transcribe_lockstep upstream mimeType settings buffer onProgress w)
    as (k & _ & Hreq & _ & _ & _ & _ & Hcred).
  rewrite Hreq, drop_app_length.
  split; intros Hprovider; apply Forall_forall; intros r Hin;
    apply list_elem_of_In, in_map_iff in Hin as (c & <- & Hc).
  - unfold WhisperService.single_request, WhisperService.endpoint.
    rewrite Hprovider. cbn [url headers provider_eqb].
    split; [reflexivity|].
    destruct (secret_apiKey w) as [key|]; [|reflexivity].
    rewrite andb_false_r. reflexivity.
  - assert (0 < k) as Hk by (destruct k; [rewrite take_0 in Hc; destruct Hc | lia]).
    specialize (Hcred Hk Hprovider).
    unfold WhisperService.single_request, WhisperService.endpoint.
    rewrite Hprovider. cbn [url headers provider_eqb].
    split; [reflexivity|].
    destruct (secret_apiKey w) as [key|]; [|discriminate].
    cbn [Js.truthy_opt] in Hcred. exists key. rewrite Hcred.
    split; [reflexivity|]. split; [|reflexivity].
    intros ->. discriminate.
Qed.

(** ** How a transcription fails *)

Lemma error_message_or_message (status : nat) (m fallback : string) :
  m <> "" ->
  error_message_or (inr (JsonValue (mkErrorData (Some (mkErrorDetail (Some m)))))) fallback
  = inr m.
Proof. intros Hm. destruct m; [contradiction | reflexivity]. Qed.

Lemma error_message_or_fallback (json : JsError + ErrorBody) (fallback : string) :
  no_message json -> error_message_or json fallback = inr fallback.
Proof.
  unfold no_message, error_message_or.
  destruct json as [e|[|[[[[m|]]|]]]]; cbn; intros H; try reflexivity.
  - destruct H.
  - destruct H as [H|H]; [discriminate | injection H as ->; reflexivity].
Qed.

(** X4. In the single path the outcome is the upstream's: the call
    resolves to [t] exactly when the answer is ok with a body whose
    [text] is [t]; a network failure, or an ok answer whose body does
    not parse, rejects with that error; an error response rejects with
    the [error.message] of its body when it has one that is not empty;
    with "Transcription failed with status N" when its body is not JSON,
    or is a value other than [null] without such a message; and with
    the TypeError of reading [.error] of [null] when its body is
    [null]. *)
Theorem transcribe_single_outcomes
    (upstream : Upstream TranscriptionResult) (buffer : Buffer) (mimeType : string)
    (settings : TranscriberSettings)
    (onProgress : option WhisperService.ProgressCallback) (w : World) :
  length buffer <= WhisperService.MAX_FILE_SIZE ->
  has_credential settings w ->
  let answer :=
    upstream (requests w)
      (WhisperService.single_request buffer mimeType settings (secret_apiKey w)) in
  let outcome :=
    fst (WhisperService.transcribe upstream buffer mimeType settings onProgress w) in
  (forall t, outcome = Resolved t <->
             exists result, answer = Responded (HttpOk (inr result)) /\ text result = t) /\
  (forall e, answer = NetworkError e -> outcome = Rejected e) /\
  (forall e, answer = Responded (HttpOk (inl e)) -> outcome = Rejected e) /\
  (forall status m,
     answer = Responded (HttpError status
                (inr (JsonValue (mkErrorData (Some (mkErrorDetail (Some m)))))))
     -> m <> "" -> outcome = Rejected (Error m)) /\
  (forall status json,
     answer = Responded (HttpError status json) -> no_message json ->
     outcome = Rejected (Error ("Transcription failed with status " +:+
                                NilZero.string_of_uint (Nat.to_uint status)))) /\
  (forall status,
     answer = Responded (HttpError status (inr JsonNull)) ->
     outcome = Rejected (Error "Cannot read properties of null (reading 'error')")) /\
  (answer = NeverSettles -> outcome = Pending).
Proof.
  intros Hsmall Hcred. cbv zeta.
  rewrite (transcribe_route _ _ _ _ _ _ Hcred).
  destruct (Nat.ltb_spec WhisperService.MAX_FILE_SIZE (length buffer)) as [Hgt|_]; [lia|].
  rewrite transcribeSingle_outcome.
  split; [|split; [|split; [|split; [|split; [|split]]]]].
  - intros t. split.
    + destruct (upstream _ _) as [e|[[e|r]|status json]|]; try discriminate.
      * intros H. injection H as <-. exists r. split; reflexivity.
      * destruct (error_message_or _ _); discriminate.
    + intros (result & -> & <-). reflexivity.
  - intros e ->. reflexivity.
  - intros e ->. reflexivity.
  - intros status m -> Hm. rewrite (error_message_or_message status m _ Hm). reflexivity.
  - intros status json -> Hno. rewrite (error_message_or_fallback json _ Hno). reflexivity.
  - intros status ->. reflexivity.
  - intros ->. reflexivity.
Qed.

Lemma ten_bytes_small : length ten_bytes <= WhisperService.MAX_FILE_SIZE.
Proof. pose proof MAX_FILE_SIZE_Z. cbn [ten_bytes repeat length]. lia. Defined.

Lemma transcribe_single_outcomes_witness :
  fst (WhisperService.transcribe (refuses_with 429 "Rate limit reached") ten_bytes
         "audio/wav" defaultSettings None keyed_world)
  = Rejected (Error "Rate limit reached") /\
  fst (WhisperService.transcribe (always_refuses 503) ten_bytes "audio/wav"
         defaultSettings None keyed_world)
  = Rejected (Error "Transcription failed with status 503") /\
  fst (WhisperService.transcribe (answers_null 502) ten_bytes "audio/wav"
         defaultSettings None keyed_world)
  = Rejected (Error "Cannot read properties of null (reading 'error')").
Proof.
  split; [|split].
  - exact (proj1 (proj2 (proj2 (proj2
      (transcribe_single_outcomes (refuses_with 429 "Rate limit reached") ten_bytes
         "audio/wav" defaultSettings None keyed_world ten_bytes_small
         keyed_world_has_credential))))
      429 "Rate limit reached" eq_refl ltac:(discriminate)).
  - exact (proj1 (proj2 (proj2 (proj2 (proj2
      (transcribe_single_outcomes (always_refuses 503) ten_bytes
         "audio/wav" defaultSettings None keyed_world ten_bytes_small
         keyed_world_has_credential)))))
      503 _ eq_refl I).
  - exact (proj1 (proj2 (proj2 (proj2 (proj2 (proj2
      (transcribe_single_outcomes (answers_null 502) ten_bytes
         "audio/wav" defaultSettings None keyed_world ten_bytes_small
         keyed_world_has_credential))))))
      502 eq_refl).
Defined.

(** ** Splitting, for any chunk size *)

Lemma splitBuffer_loop_stuck (buffer : Buffer) (fuel : nat) (chunks : list Buffer) :
  buffer <> [] -> WhisperService.splitBuffer_loop fuel buffer 0 0 chunks = None.
Proof.
  intros Hne. revert chunks; induction fuel as [|fuel IH]; intros chunks;
    cbn [WhisperService.splitBuffer_loop];
    destruct (Nat.ltb_spec 0 (length buffer)) as [Hlt|Hge].
  - reflexivity.
  - destruct buffer; [contradiction | cbn in Hge; lia].
  - cbn [Nat.add Nat.min]. apply IH.
  - destruct buffer; [contradiction | cbn in Hge; lia].
Qed.

(** X5. For every positive chunk size [splitBuffer] ends and splits
    the buffer into [ceil(length/chunkSize)] chunks, none of them empty,
    none longer than the chunk size, which put end to end are the
    buffer; a buffer that fits is returned as the one chunk, and an
    empty buffer gives no chunk.  With a chunk size of 0 the loop on a
    buffer that is not empty never ends, whatever the number of
    iterations allowed. *)
Theorem splitBuffer_partitions (buffer : Buffer) (chunkSize : nat) :
  (0 < chunkSize ->
   exists chunks,
     WhisperService.splitBuffer buffer chunkSize = Some chunks /\
     concat chunks = buffer /\
     length chunks = ceil_div (length buffer) chunkSize /\
     Forall (fun chunk => 0 < length chunk <= chunkSize) chunks /\
     (buffer = [] -> chunks = []) /\
     (buffer <> [] -> length buffer <= chunkSize -> chunks = [buffer])) /\
  (chunkSize = 0 -> buffer <> [] ->
   forall fuel, WhisperService.splitBuffer_loop fuel buffer chunkSize 0 [] = None).
Proof.
  split.
  - intros Hpos. exists (slices buffer chunkSize).
    pose proof (length_slices buffer chunkSize) as Hcount.
    split; [exact (splitBuffer_slices buffer chunkSize Hpos)|].
    split; [exact (concat_slices buffer chunkSize Hpos)|].
    split; [exact Hcount|]. split; [|split].
    + apply Forall_forall. intros chunk Hin.
      apply list_elem_of_lookup in Hin as [i Hi].
      assert (Hlt : i < ceil_div (length buffer) chunkSize).
      { rewrite <- Hcount. exact (lookup_lt_Some _ _ _ Hi). }
      injection (eq_trans (eq_sym Hi) (lookup_slices buffer chunkSize i Hlt)) as ->.
      exact (slice_size buffer chunkSize Hpos i Hlt).
    + intros ->. apply length_zero_iff_nil. rewrite Hcount.
      pose proof (lt_ceil_div (length (@nil Byte.byte)) chunkSize 0 Hpos) as H0.
      cbn [length] in *. lia.
    + intros Hne Hfit.
      assert (Hone : ceil_div (length buffer) chunkSize = 1).
      { pose proof (lt_ceil_div (length buffer) chunkSize 0 Hpos) as H0.
        pose proof (lt_ceil_div (length buffer) chunkSize 1 Hpos) as H1.
        destruct buffer; [contradiction|]. cbn [length] in *. lia. }
      pose proof (concat_slices buffer chunkSize Hpos) as Hconcat.
      unfold slices in *. rewrite Hone in *. cbn [seq map concat] in *.
      rewrite app_nil_r in Hconcat. rewrite Hconcat. reflexivity.
  - intros -> Hne fuel. exact (splitBuffer_loop_stuck buffer fuel [] Hne).
Qed.

(** ** How a cleanup fails *)

(** X6. Without a stored key (or with an empty one) [cleanupText]
    rejects with "OpenAI API key required for text cleanup" and leaves
    the world as it was: nothing is sent. *)
Theorem cleanupText_needs_key
    (upstream : Upstream ChatCompletion) (rawText : string) (model : option string)
    (w : World) :
  Js.truthy_opt (secret_apiKey w) = false ->
  OpenAIService.cleanupText upstream rawText model w
  = (Rejected (Error "OpenAI API key required for text cleanup"), w).
Proof.
  intros Hkey.
  unfold OpenAIService.cleanupText, bind, StorageService.getApiKey, gets.
  destruct (secret_apiKey w) as [key|]; [|reflexivity].
  cbn [Js.truthy_opt] in Hkey. rewrite Hkey. reflexivity.
Qed.

Lemma cleanupText_needs_key_witness :
  OpenAIService.cleanupText (always_cleans "Hello.") "um hello" None keyless_world
  = (Rejected (Error "OpenAI API key required for text cleanup"), keyless_world).
Proof.
  exact (cleanupText_needs_key (always_cleans "Hello.") "um hello" None keyless_world
           eq_refl).
Defined.

(** X7. With a key, [cleanupText] resolves to [s] exactly when the
    answer is ok and the content of its first choice is [s]; an ok
    answer without any choice rejects; an error response rejects with
    the [error.message] of its body when it has one that is not empty;
    with "Cleanup failed with status N" when its body is not JSON, or is
    a value other than [null] without such a message; and with the
    TypeError of reading [.error] of [null] when its body is [null]. *)
Theorem cleanupText_outcomes
    (upstream : Upstream ChatCompletion) (rawText key : string)
    (model : option string) (w : World) :
  secret_apiKey w = Some key ->
  key <> "" ->
  let answer :=
    upstream (requests w)
      (OpenAIService.cleanup_request rawText (default "gpt-4o-mini" model) key) in
  let outcome := fst (OpenAIService.cleanupText upstream rawText model w) in
  (forall s, outcome = Resolved s <->
             exists first others,
               answer = Responded (HttpOk (inr (mkCompletion (first :: others)))) /\
               content (choice_message first) = s) /\
  (answer = Responded (HttpOk (inr (mkCompletion []))) ->
   exists e, outcome = Rejected e) /\
  (forall status m,
     answer = Responded (HttpError status
                (inr (JsonValue (mkErrorData (Some (mkErrorDetail (Some m)))))))
     -> m <> "" -> outcome = Rejected (Error m)) /\
  (forall status json,
     answer = Responded (HttpError status json) -> no_message json ->
     outcome = Rejected (Error ("Cleanup failed with status " +:+
                                NilZero.string_of_uint (Nat.to_uint status)))) /\
  (forall status,
     answer = Responded (HttpError status (inr JsonNull)) ->
     outcome = Rejected (Error "Cannot read properties of null (reading 'error')")).
Proof.
  intros Hkey Hne. cbv zeta.
  assert (Htruthy : Js.truthy key = true) by (destruct key; [contradiction | reflexivity]).
  rewrite (cleanupText_outcome upstream rawText key model w Hkey Htruthy).
  split; [|split; [|split; [|split]]].
  - intros s. split.
    + destruct (upstream _ _) as [e|[[e|[[|first others]]]|status json]|];
        try discriminate.
      * intros H. injection H as <-. exists first, others. split; reflexivity.
      * destruct (error_message_or _ _); discriminate.
    + intros (first & others & -> & <-). reflexivity.
  - intros ->. eexists. reflexivity.
  - intros status m -> Hm. rewrite (error_message_or_message status m _ Hm). reflexivity.
  - intros status json -> Hno. rewrite (error_message_or_fallback json _ Hno). reflexivity.
  - intros status ->. reflexivity.
Qed.

Lemma cleanupText_outcomes_witness :
  fst (OpenAIService.cleanupText (always_cleans "Hello.") "um hello" None keyed_world)
  = Resolved "Hello." /\
  fst (OpenAIService.cleanupText (always_refuses 500) "um hello" None keyed_world)
  = Rejected (Error "Cleanup failed with status 500") /\
  fst (OpenAIService.cleanupText (answers_null 502) "um hello" None keyed_world)
  = Rejected (Error "Cannot read properties of null (reading 'error')").
Proof.
  pose proof (cleanupText_outcomes (always_cleans "Hello.") "um hello" "sk-test" None
                keyed_world eq_refl ltac:(discriminate)) as Hok.
  pose proof (cleanupText_outcomes (always_refuses 500) "um hello" "sk-test" None
                keyed_world eq_refl ltac:(discriminate)) as Hbad.
  pose proof (cleanupText_outcomes (answers_null 502) "um hello" "sk-test" None
                keyed_world eq_refl ltac:(discriminate)) as Hnull.
  cbv zeta in Hok, Hbad, Hnull. split; [|split].
  - apply (proj1 Hok). eexists. eexists. split; reflexivity.
  - exact (proj1 (proj2 (proj2 (proj2 Hbad))) 500 _ eq_refl I).
  - exact (proj2 (proj2 (proj2 (proj2 Hnull))) 502 eq_refl).
Defined.

(** ** The transcription handler, in every case *)

Section HandlerMore.

Import VoiceTranscriberPanel.

Variable whisper_upstream : Upstream TranscriptionResult.
Variable openai_upstream : Upstream ChatCompletion.
Variable from_base64 : string -> Buffer.

Lemma single_request_local (chunk : Buffer) (mimeType : string)
    (settings : TranscriberSettings) (apiKey : option string) :
  provider settings = local ->
  url (WhisperService.single_request chunk mimeType settings apiKey) = localApiUrl settings /\
  headers (WhisperService.single_request chunk mimeType settings apiKey) = [].
Proof.
  intros Hprovider. unfold WhisperService.single_request, WhisperService.endpoint.
  rewrite Hprovider. cbn [url headers provider_eqb]. split; [reflexivity|].
  destruct apiKey as [key|]; [|reflexivity]. rewrite andb_false_r. reflexivity.
Qed.



End HandlerMore.


(** X9. When the transcription fails, the handler writes nothing to the
    stores (a stored recording session is kept for recovery), sends no
    cleanup request and shows no warning. *)
Theorem handler_failure_keeps_session
    (whisper_upstream : Upstream TranscriptionResult)
    (openai_upstream : Upstream ChatCompletion) (from_base64 : string -> Buffer)
    (audioData mimeType : string) (w w1 : World) (e : JsError) :
  WhisperService.transcribe whisper_upstream (from_base64 audioData) mimeType
    (StorageService.getSettings w) (Some VoiceTranscriberPanel.on_progress)
    (transcribing w) = (Rejected e, w1) ->
  let final :=
    VoiceTranscriberPanel._handleTranscription whisper_upstream openai_upstream
      from_base64 audioData mimeType w in
  globalState (snd final) = globalState w /\
  StorageService.getRecordingSession (snd final) = StorageService.getRecordingSession w /\
  requests (snd final) = requests w1 /\
  warnings (ui (snd final)) = warnings (ui w).
Proof.
  intros Hheard. cbv zeta. rewrite handleTranscription_run. cbv zeta.
  pose proof (transcribe_notices whisper_upstream (from_base64 audioData)
                (StorageService.getSettings w) mimeType (transcribing w))
    as (Hwarn & _ & Hgs & _).
  rewrite Hheard in *. cbn [snd] in *.
  unfold StorageService.getRecordingSession. cbn. rewrite Hgs, Hwarn.
  repeat split.
Qed.

Lemma handler_failure_keeps_session_witness :
  StorageService.getRecordingSession
    (snd (VoiceTranscriberPanel._handleTranscription (always_refuses 401)
            (always_cleans "Hello.") (fun _ => ten_bytes) "AAAAAAAAAAAAAA==" "audio/wav"
            session_at_risk))
  = Some (mkSession 1700000000000 "AAAA" false 4200).
Proof.
  exact (proj1 (proj2
    (handler_failure_keeps_session (always_refuses 401) (always_cleans "Hello.")
       (fun _ => ten_bytes) "AAAAAAAAAAAAAA==" "audio/wav" session_at_risk _ _ eq_refl))).
Defined.

(** X10. With cleanup switched off, or with the [local] provider, a
    transcription that resolves is delivered as it is: the handler posts
    [transcriptionComplete] without cleaned text, clears the stored
    session, and sends nothing to the cleanup endpoint. *)
Theorem handler_skips_cleanup
    (whisper_upstream : Upstream TranscriptionResult)
    (openai_upstream : Upstream ChatCompletion) (from_base64 : string -> Buffer)
    (audioData mimeType : string) (w w1 : World) (rawText : string) :
  enableCleanup (StorageService.getSettings w) = false \/
  provider (StorageService.getSettings w) = local ->
  WhisperService.transcribe whisper_upstream (from_base64 audioData) mimeType
    (StorageService.getSettings w) (Some VoiceTranscriberPanel.on_progress)
    (transcribing w) = (Resolved rawText, w1) ->
  let final :=
    VoiceTranscriberPanel._handleTranscription whisper_upstream openai_upstream
      from_base64 audioData mimeType w in
  fst final = Resolved tt /\
  posted (ui (snd final)) = posted (ui w1) ++ [transcriptionComplete rawText None] /\
  requests (snd final) = requests w1 /\
  warnings (ui (snd final)) = warnings (ui w1) /\
  StorageService.getRecordingSession (snd final) = None.
Proof.
  intros Hoff Hheard. cbv zeta. rewrite handleTranscription_run. cbv zeta.
  rewrite Hheard.
  assert (enableCleanup (StorageService.getSettings w)
          && provider_eqb (provider (StorageService.getSettings w)) openai = false) as ->.
  { destruct Hoff as [-> | ->]; [reflexivity | apply andb_false_r]. }
  repeat split.
Qed.

Lemma handler_skips_cleanup_witness :
  let final :=
    VoiceTranscriberPanel._handleTranscription (always_hears "um hello")
      (always_cleans "Hello.") (fun _ => ten_bytes) "AAAAAAAAAAAAAA==" "audio/wav"
      local_world in
  fst final = Resolved tt /\
  map url (requests (snd final)) = ["http://localhost:8000/v1/audio/transcriptions"] /\
  map headers (requests (snd final)) = [[]].
Proof.
  cbv zeta.
  destruct (handler_skips_cleanup (always_hears "um hello") (always_cleans "Hello.")
              (fun _ => ten_bytes) "AAAAAAAAAAAAAA==" "audio/wav" local_world _ "um hello"
              (or_intror eq_refl) eq_refl) as (Hdone & _ & Hreq & _).
  split; [exact Hdone|]. rewrite Hreq. split; reflexivity.
Defined.

(** X11. With cleanup on, the [openai] provider and a stored key, when
    the transcription resolves and the cleanup answers with a first
    choice, the handler sends one cleanup request: a POST to the
    chat-completions endpoint with the stored key as bearer token, for
    the configured model ("gpt-4.1-nano", "gpt-4.1-mini" or "gpt-4.1"),
    with a system message followed by the raw transcript as user
    message, temperature 0.3 and a budget of [ceil(len * 1.5) + 500]
    tokens for a transcript of [len] code units.  It posts
    [transcriptionComplete] with both the raw and the cleaned text; no
    warning and no error is shown, and the stored session is cleared. *)
Theorem handler_delivers_cleaned_text
    (whisper_upstream : Upstream TranscriptionResult)
    (openai_upstream : Upstream ChatCompletion) (from_base64 : string -> Buffer)
    (audioData mimeType : string) (w w1 : World) (rawText key : string)
    (first : Choice) (others : list Choice) :
  let settings := StorageService.getSettings w in
  let request :=
    OpenAIService.cleanup_request rawText (model_name (cleanupModel settings)) key in
  enableCleanup settings = true ->
  provider settings = openai ->
  secret_apiKey w = Some key ->
  key <> "" ->
  WhisperService.transcribe whisper_upstream (from_base64 audioData) mimeType settings
    (Some VoiceTranscriberPanel.on_progress) (transcribing w) = (Resolved rawText, w1) ->
  openai_upstream (requests w1) request
    = Responded (HttpOk (inr (mkCompletion (first :: others)))) ->
  let final :=
    VoiceTranscriberPanel._handleTranscription whisper_upstream openai_upstream
      from_base64 audioData mimeType w in
  fst final = Resolved tt /\
  posted (ui (snd final))
  = posted (ui w1) ++
    [transcriptionProgress "Cleaning up text...";
     transcriptionComplete rawText (Some (content (choice_message first)))] /\
  requests (snd final) = requests w1 ++ [request] /\
  url request = "https://api.openai.com/v1/chat/completions" /\
  method request = "POST" /\
  headers request
  = [("Authorization", "Bearer " +:+ key); ("Content-Type", "application/json")] /\
  (exists instruction : string,
     body request
     = JsonBody {|
         model := match cleanupModel settings with
                  | gpt_4_1_nano => "gpt-4.1-nano"
                  | gpt_4_1_mini => "gpt-4.1-mini"
                  | gpt_4_1 => "gpt-4.1"
                  end;
         messages := [mkChatMessage "system" instruction; mkChatMessage "user" rawText];
         temperature := 3 # 10;
         max_tokens := (3 * Z.of_nat (utf16_length rawText) + 1) / 2 + 500 |}) /\
  warnings (ui (snd final)) = warnings (ui w) /\
  errors (ui (snd final)) = errors (ui w) /\
  StorageService.getRecordingSession (snd final) = None.
Proof.
  cbv zeta. intros Henable Hprovider Hkey Hne Hheard Hanswer.
  assert (Hbody : exists instruction : string,
     body (OpenAIService.cleanup_request rawText
             (model_name (cleanupModel (StorageService.getSettings w))) key)
     = JsonBody {|
         model := match cleanupModel (StorageService.getSettings w) with
                  | gpt_4_1_nano => "gpt-4.1-nano"
                  | gpt_4_1_mini => "gpt-4.1-mini"
                  | gpt_4_1 => "gpt-4.1"
                  end;
         messages := [mkChatMessage "system" instruction; mkChatMessage "user" rawText];
         temperature := 3 # 10;
         max_tokens := (3 * Z.of_nat (utf16_length rawText) + 1) / 2 + 500 |}).
  { exists OpenAIService.system_instruction.
    unfold OpenAIService.cleanup_request. cbn [body].
    rewrite token_budget_ceil, length_utf16. reflexivity. }
  rewrite handleTranscription_run. cbv zeta.
  pose proof (transcribe_notices whisper_upstream (from_base64 audioData)
                (StorageService.getSettings w) mimeType (transcribing w))
    as (Hwarn & Herr & _ & Hsecret).
  rewrite Hheard in *. cbn [snd] in *.
  rewrite Henable, Hprovider. cbn [andb provider_eqb].
  assert (Htruthy : Js.truthy key = true) by (destruct key; [contradiction | reflexivity]).
  set (w1' := set_ui (VoiceTranscriberPanel.post
                        (transcriptionProgress "Cleaning up text...")) w1).
  assert (Hkey1 : secret_apiKey w1' = Some key).
  { cbn. rewrite Hsecret. exact Hkey. }
  pose proof (cleanupText_sends openai_upstream rawText key
                (Some (model_name (cleanupModel (StorageService.getSettings w)))) w1'
                Hkey1 Htruthy) as Hsent.
  pose proof (cleanupText_outcome openai_upstream rawText key
                (Some (model_name (cleanupModel (StorageService.getSettings w)))) w1'
                Hkey1 Htruthy) as Hout.
  cbn [from_option id] in Hsent, Hout.
  change (requests w1') with (requests w1) in Hout. rewrite Hanswer in Hout.
  cbn [choices] in Hout.
  destruct (OpenAIService.cleanupText _ _ _ _) as [outcome w2].
  cbn [fst snd] in Hsent, Hout. subst outcome w2.
  split; [reflexivity|].
  split; [cbn; rewrite <- app_assoc; reflexivity|].
  split; [reflexivity|]. split; [reflexivity|]. split; [reflexivity|].
  split; [reflexivity|]. split; [exact Hbody|].
  cbn. rewrite Hwarn, Herr. repeat split.
Qed.

Lemma handler_delivers_cleaned_text_witness :
  let final :=
    VoiceTranscriberPanel._handleTranscription (always_hears "um hello")
      (always_cleans "Hello.") (fun _ => ten_bytes) "AAAAAAAAAAAAAA==" "audio/wav"
      cleanup_world in
  posted (ui (snd final))
  = [transcriptionStart;
     transcriptionProgress "Transcribing audio...";
     transcriptionProgress "Cleaning up text...";
     transcriptionComplete "um hello" (Some "Hello.")] /\
  map url (requests (snd final))
  = ["https://api.openai.com/v1/audio/transcriptions";
     "https://api.openai.com/v1/chat/completions"] /\
  exists instruction : string,
    body <$> last (requests (snd final))
    = Some (JsonBody (mkChatRequest "gpt-4.1-mini"
                        [mkChatMessage "system" instruction; mkChatMessage "user" "um hello"]
                        (3 # 10) 512)).
Proof.
  cbv zeta.
  destruct (handler_delivers_cleaned_text (always_hears "um hello") (always_cleans "Hello.")
              (fun _ => ten_bytes) "AAAAAAAAAAAAAA==" "audio/wav" cleanup_world _ "um hello"
              "sk-test" (mkChoice (mkChatMessage "assistant" "Hello.")) []
              eq_refl eq_refl eq_refl ltac:(discriminate) eq_refl eq_refl)
    as (_ & Hposted & Hreq & _ & _ & _ & (instruction & Hbody) & _).
  rewrite Hposted, Hreq. split; [reflexivity|]. split; [reflexivity|].
  exists instruction. rewrite last_snoc. cbn [fmap option_fmap option_map].
  rewrite Hbody. reflexivity.
Defined.

(** X12. With the [local] provider the handler talks to the configured
    endpoint only: every request it sends goes to [localApiUrl] and
    carries no header, so neither the stored key nor the transcript
    reaches the OpenAI endpoints. *)
Theorem handler_local_stays_local
    (whisper_upstream : Upstream TranscriptionResult)
    (openai_upstream : Upstream ChatCompletion) (from_base64 : string -> Buffer)
    (audioData mimeType : string) (w : World) :
  provider (StorageService.getSettings w) = local ->
  let final :=
    VoiceTranscriberPanel._handleTranscription whisper_upstream openai_upstream
      from_base64 audioData mimeType w in
  Forall (fun r => url r = localApiUrl (StorageService.getSettings w) /\ headers r = [])
    (drop (length (requests w)) (requests (snd final))).
Proof.
  intros Hlocal. cbv zeta. rewrite handleTranscription_run. cbv zeta.
  destruct (transcribe_lockstep whisper_upstream mimeType (StorageService.getSettings w)
              (from_base64 audioData) (Some VoiceTranscriberPanel.on_progress)
              (transcribing w)) as (k & _ & Hreq & _).
  cbv zeta in Hreq. change (requests (transcribing w)) with (requests w) in Hreq.
  rewrite Hlocal. cbn [provider_eqb]. rewrite andb_false_r.
  assert (Hnew : Forall (fun r => url r = localApiUrl (StorageService.getSettings w)
                                  /\ headers r = [])
                   (drop (length (requests w))
                      (requests (snd (WhisperService.transcribe whisper_upstream
                                        (from_base64 audioData) mimeType
                                        (StorageService.getSettings w)
                                        (Some VoiceTranscriberPanel.on_progress)
                                        (transcribing w)))))).
  { rewrite Hreq, drop_app_length. apply Forall_forall. intros r Hin.
    apply list_elem_of_In, in_map_iff in Hin as (c & <- & _).
    exact (single_request_local c mimeType _ _ Hlocal). }
  destruct (WhisperService.transcribe _ _ _ _ _ _) as [[rawText|e|] w1];
    cbn [snd] in *; exact Hnew.
Qed.

Lemma handler_local_stays_local_witness :
  Forall (fun r => url r = "http://localhost:8000/v1/audio/transcriptions" /\ headers r = [])
    (requests (snd (VoiceTranscriberPanel._handleTranscription (always_hears "um hello")
                      (always_cleans "Hello.") (fun _ => ten_bytes) "AAAAAAAAAAAAAA=="
                      "audio/wav" local_world))).
Proof.
  exact (handler_local_stays_local (always_hears "um hello") (always_cleans "Hello.")
           (fun _ => ten_bytes) "AAAAAAAAAAAAAA==" "audio/wav" local_world eq_refl).
Defined.

(** ** Updating the stored settings *)

Section SettingsFacts.

Import StorageService StorageUpdates.

Lemma updateSettings_run (p : PartialSettings) (w : World) :
  updateSettings p w
  = (Resolved tt,
     set_globalState (update_settings (all_fields (spread (getSettings w) p))) w).
Proof. reflexivity. Qed.

Lemma spread_all_fields (s : TranscriberSettings) :
  spread defaultSettings (all_fields s) = s.
Proof. destruct s; reflexivity. Qed.

Lemma getSettings_updated (p : PartialSettings) (w : World) :
  getSettings (snd (updateSettings p w)) = spread (getSettings w) p.
Proof. rewrite updateSettings_run. cbn [snd]. apply spread_all_fields. Qed.

Lemma spread_twice (s : TranscriberSettings) (p : PartialSettings) :
  spread (spread s p) p = spread s p.
Proof. destruct s, p as [[?|] [?|] [?|] [?|] [?|]]; reflexivity. Qed.

End SettingsFacts.

Example updateSettings_language_only :
  StorageService.getSettings
    (snd (StorageUpdates.updateSettings (mkPartial None None (Some "fr") None None)
            local_world))
  = mkSettings local "http://localhost:8000/v1/audio/transcriptions" "fr" true gpt_4_1_nano.
Proof. reflexivity. Qed.

(** X13. After [updateSettings(p)], [getSettings] returns the former
    settings with the fields of [p] in place of theirs: a field that
    [p] leaves out keeps its value.  The update is idempotent, the empty
    update changes no setting, and history, recording session, stored
    key, requests and UI are left alone. *)
Theorem updateSettings_then_getSettings (p : PartialSettings) (w : World) :
  let before := StorageService.getSettings w in
  let w' := snd (StorageUpdates.updateSettings p w) in
  let after := StorageService.getSettings w' in
  fst (StorageUpdates.updateSettings p w) = Resolved tt /\
  after = StorageService.spread before p /\
  (p_provider p = None -> provider after = provider before) /\
  (p_localApiUrl p = None -> localApiUrl after = localApiUrl before) /\
  (p_language p = None -> language after = language before) /\
  (p_enableCleanup p = None -> enableCleanup after = enableCleanup before) /\
  (p_cleanupModel p = None -> cleanupModel after = cleanupModel before) /\
  (forall v, p_language p = Some v -> language after = v) /\
  (forall v, p_provider p = Some v -> provider after = v) /\
  snd (StorageUpdates.updateSettings p w') = w' /\
  StorageService.getSettings
    (snd (StorageUpdates.updateSettings StorageService.empty_object w)) = before /\
  StorageService.getHistory w' = StorageService.getHistory w /\
  StorageService.getRecordingSession w' = StorageService.getRecordingSession w /\
  secret_apiKey w' = secret_apiKey w /\ requests w' = requests w /\ ui w' = ui w.
Proof.
  cbv zeta. rewrite getSettings_updated.
  split; [reflexivity|]. split; [reflexivity|].
  split; [destruct p; cbn; intros ->; reflexivity|].
  split; [destruct p; cbn; intros ->; reflexivity|].
  split; [destruct p; cbn; intros ->; reflexivity|].
  split; [destruct p; cbn; intros ->; reflexivity|].
  split; [destruct p; cbn; intros ->; reflexivity|].
  split; [destruct p; cbn; intros v ->; reflexivity|].
  split; [destruct p; cbn; intros v ->; reflexivity|].
  split.
  - rewrite (updateSettings_run p (snd (StorageUpdates.updateSettings p w))).
    rewrite getSettings_updated, spread_twice. reflexivity.
  - rewrite getSettings_updated.
    split; [destruct (StorageService.getSettings w); reflexivity|].
    repeat split.
Qed.

(** ** The stored key *)

(** X14. The key used is the key last stored: after [setApiKey(key)]
    with a key that is not empty, a transcription with the [openai]
    provider passes the guard (a buffer within the ceiling goes out in
    one request) and every request it sends carries that key as bearer
    token; after [setApiKey("")] or [deleteApiKey()] it fails with the
    missing-key error and sends nothing, whatever was stored before. *)
Theorem apiKey_stored_is_apiKey_used
    (upstream : Upstream TranscriptionResult) (buffer : Buffer) (mimeType : string)
    (settings : TranscriberSettings)
    (onProgress : option WhisperService.ProgressCallback) (w : World) (key : string) :
  provider settings = openai ->
  let transcribe :=
    WhisperService.transcribe upstream buffer mimeType settings onProgress in
  (key <> "" ->
   let run := (StorageUpdates.setApiKey key ;; transcribe) w in
   secret_apiKey (snd run) = Some key /\
   Forall (fun r => headers r = [("Authorization", "Bearer " +:+ key)])
     (drop (length (requests w)) (requests (snd run))) /\
   (length buffer <= WhisperService.MAX_FILE_SIZE ->
    requests (snd run)
    = requests w ++ [WhisperService.single_request buffer mimeType settings (Some key)])) /\
  (let run := (StorageUpdates.setApiKey "" ;; transcribe) w in
   fst run = Rejected WhisperService.missing_key /\ requests (snd run) = requests w) /\
  (let run := (StorageUpdates.deleteApiKey ;; transcribe) w in
   fst run = Rejected WhisperService.missing_key /\ requests (snd run) = requests w /\
   secret_apiKey (snd run) = None).
Proof.
  intros Hprovider. cbv zeta. split; [|split].
  - intros Hne.
    assert (Htruthy : Js.truthy key = true) by (destruct key; [contradiction | reflexivity]).
    unfold bind. cbn [StorageUpdates.setApiKey modify].
    set (w' := StorageUpdates.set_secret (Some key) w).
    assert (Hcred : has_credential settings w') by (intros _; exact Htruthy).
    destruct (transcribe_lockstep upstream mimeType settings buffer onProgress w')
      as (k & _ & Hreq & _ & Hsecret & _).
    cbv zeta in *.
    destruct (WhisperService.transcribe upstream buffer mimeType settings onProgress w')
      as [[text|e|] w1] eqn:Hrun; cbn [fst snd] in *;
      (split; [exact Hsecret|]; split;
       [ rewrite Hreq; change (requests w') with (requests w);
         rewrite drop_app_length; apply Forall_forall; intros r Hin;
         apply list_elem_of_In, in_map_iff in Hin as (c & <- & _);
         unfold WhisperService.single_request; rewrite Hprovider;
         cbn [headers secret_apiKey w' StorageUpdates.set_secret provider_eqb];
         rewrite Htruthy; reflexivity
       | intros Hsmall;
         pose proof (f_equal snd Hrun) as Hsnd; cbn [snd] in Hsnd;
         rewrite (transcribe_route _ _ _ _ _ _ Hcred) in Hsnd;
         destruct (Nat.ltb_spec WhisperService.MAX_FILE_SIZE (length buffer));
         [lia|]; rewrite transcribeSingle_sends in Hsnd; subst w1; reflexivity ]).
  - unfold bind, StorageUpdates.setApiKey, modify, WhisperService.transcribe,
      StorageService.getApiKey, gets.
    rewrite Hprovider. split; reflexivity.
  - unfold bind, StorageUpdates.deleteApiKey, modify, WhisperService.transcribe,
      StorageService.getApiKey, gets.
    rewrite Hprovider. repeat split.
Qed.

Lemma apiKey_stored_is_apiKey_used_witness :
  map headers
    (requests (snd ((StorageUpdates.setApiKey "sk-new" ;;
                     WhisperService.transcribe (always_hears "hi") ten_bytes "audio/wav"
                       defaultSettings None) keyed_world)))
  = [[("Authorization", "Bearer sk-new")]] /\
  fst ((StorageUpdates.deleteApiKey ;;
        WhisperService.transcribe (always_hears "hi") ten_bytes "audio/wav"
          defaultSettings None) keyed_world)
  = Rejected WhisperService.missing_key.
Proof.
  pose proof (apiKey_stored_is_apiKey_used (always_hears "hi") ten_bytes "audio/wav"
                defaultSettings None keyed_world "sk-new" eq_refl) as H.
  cbv zeta in H. destruct H as (Hset & _ & Hdel & _).
  destruct (Hset ltac:(discriminate)) as (_ & _ & Hone).
  split; [rewrite (Hone ten_bytes_small); reflexivity | exact Hdel].
Defined.

(** ** The history under any sequence of operations *)

Lemma run_ops_cons (op : HistoryOp) (rest : list HistoryOp) (w : World) :
  run_ops (op :: rest) w = run_ops rest (snd (run_op op w)).
Proof. destruct op; reflexivity. Qed.

Lemma run_ops_take (ops : list HistoryOp) :
  forall (w : World) (h : list HistoryEntry),
    StorageService.getHistory w = take 10 h ->
    fst (run_ops ops w) = Resolved tt /\
    StorageService.getHistory (snd (run_ops ops w)) = take 10 (unbounded ops h).
Proof.
  induction ops as [|op ops IH]; intros w h Hw.
  - split; [reflexivity | exact Hw].
  - rewrite run_ops_cons. destruct op as [e|].
    + apply (IH _ (e :: h)). cbn [run_op].
      rewrite addToHistory_take by (rewrite Hw, length_take; lia).
      rewrite Hw. exact (take_app_take 10 [e] h).
    + apply (IH _ []). reflexivity.
Qed.

(** X15. Under any sequence of [addToHistory] and [clearHistory]
    calls, starting from a history of at most 10 entries, the stored
    history is at every point the 10 newest entries of what a history
    without bound would hold: it never exceeds 10, an entry is dropped
    only by the 10 newer ones before it or by a clear, and right after a
    clear it is empty. *)
Theorem history_is_ten_newest (ops : list HistoryOp) (w : World) :
  length (StorageService.getHistory w) <= 10 ->
  let final := StorageService.getHistory (snd (run_ops ops w)) in
  fst (run_ops ops w) = Resolved tt /\
  final = take 10 (unbounded ops (StorageService.getHistory w)) /\
  length final <= 10 /\
  (forall before e, ops = before ++ [AddEntry e] -> hd_error final = Some e) /\
  (forall before, ops = before ++ [ClearAll] -> final = []).
Proof.
  intros Hlen. cbv zeta.
  destruct (run_ops_take ops w (StorageService.getHistory w)) as [Hres Hfinal].
  { symmetry. apply take_ge. exact Hlen. }
  split; [exact Hres|]. split; [exact Hfinal|]. rewrite Hfinal.
  split; [rewrite length_take; lia|]. split.
  - intros before e ->. unfold unbounded. rewrite fold_left_app. reflexivity.
  - intros before ->. unfold unbounded. rewrite fold_left_app. reflexivity.
Qed.

Lemma history_is_ten_newest_witness :
  map entry_duration
    (StorageService.getHistory
       (snd (run_ops
               (map (fun n => AddEntry (mkEntry "" "" "" "" n)) [1; 2; 3]%Z ++
                [ClearAll] ++
                map (fun n => AddEntry (mkEntry "" "" "" "" n))
                  [4; 5; 6; 7; 8; 9; 10; 11; 12; 13; 14; 15]%Z)
               keyless_world)))
  = [15; 14; 13; 12; 11; 10; 9; 8; 7; 6]%Z.
Proof.
  rewrite (proj1 (proj2 (history_is_ten_newest _ keyless_world
                           ltac:(cbn; lia)))).
  reflexivity.
Defined.

(** ** The stored UI state *)

(** X16. [saveUiState(state)] merges: afterwards every name of
    [state] has the value [state] gives it and every other name keeps
    the value it had, so no name is ever lost.  Saving the same state
    twice is saving it once, and two saves in a row are one save of the
    second state laid over the first. *)
Theorem saveUiState_merges (V : Type) (state : gmap string V)
    (stored : UiStateStore.Stored V) :
  let after := UiStateStore.getUiState V (UiStateStore.saveUiState V state stored) in
  (forall name,
     after !! name
     = match state !! name with
       | Some v => Some v
       | None => UiStateStore.getUiState V stored !! name
       end) /\
  dom (UiStateStore.getUiState V stored) ⊆ dom after /\
  dom state ⊆ dom after /\
  UiStateStore.saveUiState V state (UiStateStore.saveUiState V state stored)
  = UiStateStore.saveUiState V state stored /\
  (forall later,
     UiStateStore.saveUiState V later (UiStateStore.saveUiState V state stored)
     = UiStateStore.saveUiState V (later ∪ state) stored) /\
  UiStateStore.getUiState V (UiStateStore.saveUiState V ∅ stored)
  = UiStateStore.getUiState V stored.
Proof.
  cbv zeta. unfold UiStateStore.saveUiState, UiStateStore.getUiState.
  cbn [from_option id].
  split; [|split; [|split; [|split; [|split]]]].
  - intros name. rewrite lookup_union.
    destruct (state !! name), (default ∅ stored !! name); reflexivity.
  - rewrite dom_union. set_solver.
  - rewrite dom_union. set_solver.
  - f_equal. rewrite (assoc_L (∪)), (idemp_L (∪)). reflexivity.
  - intros later. f_equal. rewrite (assoc_L (∪)). reflexivity.
  - apply (left_id_L ∅ (∪)).
Qed.

Example saveUiState_keeps_other_panels :
  UiStateStore.getUiState bool
    (UiStateStore.saveUiState bool {["history" := false]}
       (UiStateStore.saveUiState bool {["settings" := true; "history" := true]} None))
  !! "settings" = Some true.
Proof. reflexivity. Qed.

(** ** The two extensions *)

(** X17. The extension offered when saving a recording is one of
    [mp3], [webm] and [audio]; it is the extension used for the upload
    exactly when the MIME type contains "mp3", or contains "webm" and
    not "mpeg".  In particular a WAV or OGG recording is uploaded as
    [wav] or [ogg] but saved as [audio]. *)
Theorem save_extension_and_upload_extension (mimeType : string) :
  let has := fun sub => Js.occurs_in sub mimeType in
  (SaveAudio.extension mimeType = "mp3" \/ SaveAudio.extension mimeType = "webm" \/
   SaveAudio.extension mimeType = "audio") /\
  (SaveAudio.extension mimeType = WhisperService.getExtension mimeType <->
   has "mp3" \/ (has "webm" /\ ~ has "mpeg")) /\
  (~ has "mp3" -> ~ has "webm" -> SaveAudio.extension mimeType = "audio").
Proof.
  cbv zeta. unfold SaveAudio.extension, WhisperService.getExtension.
  rewrite <- !includes_occurs.
  destruct (Js.includes mimeType "mp3"), (Js.includes mimeType "mpeg"),
    (Js.includes mimeType "webm"), (Js.includes mimeType "wav"),
    (Js.includes mimeType "ogg"); cbn;
    (split; [auto|]); (split; [|intros H1 H2; try reflexivity; exfalso; auto]);
    (split; [intros H; try discriminate H; auto
            | intros [H|[H1 H2]]; try reflexivity; try discriminate; exfalso; auto]).
Qed.

Example save_extension_of_wav :
  SaveAudio.extension "audio/wav" = "audio" /\
  WhisperService.getExtension "audio/wav" = "wav".
Proof. split; reflexivity. Qed.

(** ** What the webview derives from a result *)

Section StringLengths.









End StringLengths.

Example preview_of_short : Webview.preview_of "hello world" = "hello world".
Proof. reflexivity. Qed.

Example preview_of_long :
  Webview.preview_of "The quick brown fox jumps over the lazy dog and keeps running."
  = "The quick brown fox jumps over the lazy dog and ke...".
Proof. reflexivity. Qed.

(** Thirty-five Cyrillic letters are thirty-five code units: the text is
    its own preview. *)
Example preview_of_cyrillic :
  Webview.preview_of "Съешь же ещё этих мягких французски"
  = "Съешь же ещё этих мягких французски".
Proof. reflexivity. Qed.

(** Fifty-one Cyrillic letters are cut after the fiftieth. *)
Example preview_of_long_cyrillic :
  Webview.preview_of "ааааааааааббббббббббввввввввввггггггггггддддддддддж"
  = "ааааааааааббббббббббввввввввввггггггггггдддддддддд...".
Proof. reflexivity. Qed.

(** The first half of the pair of U+1F600 is U+D83D, on the bytes
    [ED A0 BD]. *)
Example high_surrogate_of_grinning_face :
  Js.substring_to 1 "😀"
  = String (Ascii.ascii_of_N 237)
      (String (Ascii.ascii_of_N 160) (String (Ascii.ascii_of_N 189) "")).
Proof. reflexivity. Qed.

(** A cut between the two halves of a pair keeps the first half. *)
Example preview_of_cut_pair :
  Webview.preview_of "0123456789012345678901234567890123456789012345678😀 and more"
  = "0123456789012345678901234567890123456789012345678" +:+
    Js.substring_to 1 "😀" +:+ "...".
Proof. reflexivity. Qed.


Lemma padStart_two_digits (n : nat) :
  n < 100 -> Webview.padStart (Js.string_of_nat n) 2 "0" = two_digits n.
Proof.
  intros Hn.
  do 100 (destruct n as [|n]; [reflexivity|]). lia.
Qed.

Lemma padStart_keeps_long (s pad : string) (n : nat) :
  n <= Js.length s -> Webview.padStart s n pad = s.
Proof.
  intros Hlen. unfold Webview.padStart.
  destruct (Nat.leb_spec n (Js.length s)) as [_|]; [reflexivity | lia].
Qed.

Example formatTime_one_hour_two_minutes_three_seconds :
  Webview.formatTime 3723456 = "01:02:03".
Proof. reflexivity. Qed.

Example formatTime_does_not_wrap_hours : Webview.formatTime 360000000 = "100:00:00".
Proof. reflexivity. Qed.

(** X19. [formatTime] shows whole seconds as hours, minutes and
    seconds separated by colons, minutes and seconds below 60 and always
    on two digits; below 100 hours the hours are on two digits too and
    the text has 8 characters.  Hours are not wrapped: the three fields
    add up to the elapsed seconds. *)
Theorem formatTime_fields (ms : N) :
  let hours := (ms / 1000 / 3600)%N in
  let minutes := (ms / 1000 mod 3600 / 60)%N in
  let seconds := (ms / 1000 mod 60)%N in
  (hours * 3600 + minutes * 60 + seconds = ms / 1000)%N /\
  (minutes < 60)%N /\ (seconds < 60)%N /\
  Webview.formatTime ms
  = Webview.padStart (Js.string_of_nat (N.to_nat hours)) 2 "0" +:+ ":" +:+
    two_digits (N.to_nat minutes) +:+ ":" +:+ two_digits (N.to_nat seconds) /\
  ((hours < 100)%N ->
   Webview.formatTime ms
   = two_digits (N.to_nat hours) +:+ ":" +:+ two_digits (N.to_nat minutes) +:+ ":" +:+
     two_digits (N.to_nat seconds) /\
   String.length (Webview.formatTime ms) = 8).
Proof.
  cbv zeta. set (total := (ms / 1000)%N).
  assert (Hm : (total mod 3600 / 60 < 60)%N).
  { apply N.Div0.div_lt_upper_bound. exact (N.mod_lt total 3600 ltac:(lia)). }
  assert (Hs : (total mod 60 < 60)%N) by exact (N.mod_lt total 60 ltac:(lia)).
  assert (Hsame : (total mod 3600 mod 60 = total mod 60)%N).
  { change 3600%N with (60 * 60)%N.
    rewrite N.Div0.mod_mul_r, (N.mul_comm 60 (total / 60 mod 60)), N.Div0.mod_add.
    apply N.Div0.mod_mod. }
  split.
  - rewrite <- Hsame.
    rewrite (N.mul_comm _ 60), <- N.add_assoc, <- (N.div_mod (total mod 3600) 60) by lia.
    rewrite (N.mul_comm _ 3600), <- N.div_mod by lia. reflexivity.
  - split; [exact Hm|]. split; [exact Hs|].
    unfold Webview.formatTime. fold total.
    rewrite (padStart_two_digits (N.to_nat (total mod 3600 / 60))) by lia.
    rewrite (padStart_two_digits (N.to_nat (total mod 60))) by lia.
    split; [reflexivity|].
    intros Hh. rewrite (padStart_two_digits (N.to_nat (total / 3600))) by lia.
    split; reflexivity.
Qed.

(** ** Finding a recording tool *)

Section ToolFacts.

Import RecordingTools.

Variable platform : string.
Variable execSync : string -> bool.

Example tools_on_linux_with_both :
  getBestTool "linux" (fun _ => true) = Some (mkTool arecord "arecord" true).
Proof. reflexivity. Qed.

Example tools_on_darwin_with_sox_only :
  getBestTool "darwin" (fun c => String.eqb c "which sox") = Some (mkTool sox "sox" true).
Proof. reflexivity. Qed.

Lemma detectAvailableTools_cases :
  detectAvailableTools platform execSync
  = (if String.eqb platform "linux"
     then [mkTool arecord "arecord" (execSync "which arecord")] else []) ++
    [if execSync (lookup_command platform +:+ " " +:+
                  (if String.eqb platform "win32" then "sox" else "rec"))
     then mkTool sox (if String.eqb platform "win32" then "sox" else "rec") true
     else if execSync (lookup_command platform +:+ " sox")
          then mkTool sox "sox" true
          else mkTool sox (if String.eqb platform "win32" then "sox" else "rec") false].
Proof.
  unfold detectAvailableTools, lookup_command.
  destruct (String.eqb platform "linux"), (String.eqb platform "win32");
    repeat match goal with
           | |- context [execSync ?c] => destruct (execSync c)
           end; reflexivity.
Qed.

Lemma linux_is_not_win32 :
  String.eqb platform "linux" = true -> String.eqb platform "win32" = false.
Proof. intros H. apply String.eqb_eq in H. subst platform. reflexivity. Qed.

(** The tool chosen is one that was found. *)
Lemma getBestTool_found (t : RecordingToolInfo) :
  getBestTool platform execSync = Some t ->
  available t = true /\
  In t (detectAvailableTools platform execSync) /\
  execSync (lookup_command platform +:+ " " +:+ command t) = true /\
  (tool t = arecord \/ tool t = sox) /\
  (tool t = arecord -> platform = "linux" /\ command t = "arecord") /\
  (tool t = sox -> command t = "sox" \/ (command t = "rec" /\ platform <> "win32")).
Proof.
  unfold getBestTool. rewrite detectAvailableTools_cases. intros H.
  destruct (String.eqb platform "linux") eqn:Hlinux.
  - pose proof (linux_is_not_win32 Hlinux) as Hwin.
    apply String.eqb_eq in Hlinux.
    unfold lookup_command in *. rewrite Hwin in *.
    repeat match type of H with
           | context [execSync ?c] => destruct (execSync c) eqn:?
           end; cbn in H; try discriminate H; injection H as <-; cbn;
      repeat split; auto; try discriminate;
      try (intros _; right; split; [reflexivity | subst platform; discriminate]).
  - unfold lookup_command in *.
    destruct (String.eqb platform "win32") eqn:Hwin;
      [apply String.eqb_eq in Hwin | apply String.eqb_neq in Hwin];
      repeat match type of H with
             | context [execSync ?c] => destruct (execSync c) eqn:?
             end; cbn in H; try discriminate H; injection H as <-; cbn;
      repeat split; auto; try discriminate;
      try (intros _; right; split; [reflexivity | exact Hwin]).
Qed.

Lemma isAvailable_cases :
  isAvailable platform execSync
  = (String.eqb platform "linux" && execSync "which arecord")
    || execSync (lookup_command platform +:+ " " +:+
                 (if String.eqb platform "win32" then "sox" else "rec"))
    || execSync (lookup_command platform +:+ " sox").
Proof.
  unfold isAvailable, getBestTool. rewrite detectAvailableTools_cases.
  destruct (String.eqb platform "linux"); cbn [andb orb];
    repeat match goal with
           | |- context [execSync ?c] => destruct (execSync c)
           end; reflexivity.
Qed.

Lemma detected_available (t : RecordingToolInfo) :
  In t (detectAvailableTools platform execSync) -> available t = true ->
  isAvailable platform execSync = true.
Proof.
  rewrite isAvailable_cases, detectAvailableTools_cases.
  destruct (String.eqb platform "linux"); cbn [app In andb orb].
  - intros [<-|[<-|[]]]; cbn [available].
    + intros ->. reflexivity.
    + repeat match goal with
             | |- context [execSync ?c] => destruct (execSync c)
             end; cbn; auto.
  - intros [<-|[]].
    repeat match goal with
           | |- context [execSync ?c] => destruct (execSync c)
           end; cbn; auto.
Qed.

End ToolFacts.

(** X20. The tool [getBestTool] returns was found on the system: it is
    one of the probed tools, it is marked available, and the lookup
    command of the platform ([where] on Windows, [which] elsewhere)
    succeeded on the very command it names; that command is [arecord]
    (on Linux only), [rec] (never on Windows) or [sox]. *)
Theorem getBestTool_was_found (platform : string) (execSync : string -> bool)
    (t : RecordingTools.RecordingToolInfo) :
  RecordingTools.getBestTool platform execSync = Some t ->
  RecordingTools.available t = true /\
  In t (RecordingTools.detectAvailableTools platform execSync) /\
  execSync (lookup_command platform +:+ " " +:+ RecordingTools.command t) = true /\
  (RecordingTools.tool t = RecordingTools.arecord ->
   platform = "linux" /\ RecordingTools.command t = "arecord") /\
  (RecordingTools.tool t = RecordingTools.sox ->
   RecordingTools.command t = "sox" \/
   (RecordingTools.command t = "rec" /\ platform <> "win32")) /\
  RecordingTools.tool t <> RecordingTools.auto.
Proof.
  intros Hbest.
  destruct (getBestTool_found platform execSync t Hbest)
    as (Hav & Hin & Hfound & Hkind & Harecord & Hsox).
  repeat split; auto.
  - exact (proj1 (Harecord H)).
  - exact (proj2 (Harecord H)).
  - intros Hauto. destruct Hkind as [H|H]; rewrite H in Hauto; discriminate.
Qed.

Lemma getBestTool_was_found_witness :
  RecordingTools.getBestTool "darwin" only_sox_installed
  = Some (RecordingTools.mkTool RecordingTools.sox "sox" true) /\
  only_sox_installed ("which" +:+ " " +:+ "sox") = true.
Proof.
  split; [reflexivity|].
  exact (proj1 (proj2 (proj2
    (getBestTool_was_found "darwin" only_sox_installed
       (RecordingTools.mkTool RecordingTools.sox "sox" true) eq_refl)))).
Defined.

(** X21. A tool is reported available exactly when some probe
    succeeded: [arecord] on Linux, or [rec] (not on Windows) or [sox]
    through the lookup command.  When [arecord] is found on Linux it is
    preferred whatever else is installed; off Linux it is never probed
    and the tool is a SoX one. *)
Theorem isAvailable_iff_some_probe_succeeds (platform : string)
    (execSync : string -> bool) :
  let soxCommand := if String.eqb platform "win32" then "sox" else "rec" in
  (RecordingTools.isAvailable platform execSync = true <->
   (platform = "linux" /\ execSync "which arecord" = true) \/
   execSync (lookup_command platform +:+ " " +:+ soxCommand) = true \/
   execSync (lookup_command platform +:+ " sox") = true) /\
  (RecordingTools.isAvailable platform execSync = true <->
   exists t, In t (RecordingTools.detectAvailableTools platform execSync) /\
             RecordingTools.available t = true) /\
  (platform = "linux" -> execSync "which arecord" = true ->
   RecordingTools.getBestTool platform execSync
   = Some (RecordingTools.mkTool RecordingTools.arecord "arecord" true)) /\
  (platform <> "linux" ->
   forall t, In t (RecordingTools.detectAvailableTools platform execSync) ->
             RecordingTools.tool t = RecordingTools.sox).
Proof.
  cbv zeta. split; [|split; [|split]].
  - rewrite isAvailable_cases, !orb_true_iff, andb_true_iff, String.eqb_eq. tauto.
  - split.
    + unfold RecordingTools.isAvailable.
      destruct (RecordingTools.getBestTool platform execSync) as [t|] eqn:Hbest;
        [|discriminate].
      intros _. exists t.
      destruct (getBestTool_found platform execSync t Hbest) as (Hav & Hin & _).
      split; assumption.
    + intros (t & Hin & Hav). exact (detected_available platform execSync t Hin Hav).
  - intros -> Ha. unfold RecordingTools.getBestTool.
    rewrite detectAvailableTools_cases, Ha. reflexivity.
  - intros Hne t. rewrite detectAvailableTools_cases.
    apply String.eqb_neq in Hne. rewrite Hne. cbn [app In].
    intros [<-|[]].
    repeat match goal with
           | |- context [execSync ?c] => destruct (execSync c)
           end; reflexivity.
Qed.

(** ** Starting and stopping a native recording *)

Section LifecycleFacts.

Import AudioRecorderService RecordingTools Recording.

Variable platform : string.
Variable execSync : string -> bool.
Variable tmpdir : string.
Variable path_join : string -> string -> string.
Variable spawn : string -> list string -> Os -> SpawnResult.
Variable readFileSync : string -> Os -> JsError + Buffer.
Variable unlink_error : string -> JsError.

Lemma start_cases (meanwhile : Meanwhile) (r : Recorder) (os : Os) :
  Recording.start platform execSync tmpdir path_join spawn meanwhile r os
  = if isRecording r then (Rejected (Error "Already recording"), r, os)
    else match getBestTool platform execSync with
         | None => (Rejected (Error "NO_RECORDING_TOOL"), r, os)
         | Some t =>
             match spawn (command t) (recording_args t (temp_path tmpdir path_join os)) os with
             | SpawnThrows err => (Rejected err, initial, os)
             | SpawnErrors message =>
                 (Rejected (Error ("Failed to start recording: " +:+ message)), initial, os)
             | Spawned p later =>
                 match meanwhile with
                 | Waits =>
                     (Resolved tt,
                      mkRecorder (Some p) (Some (temp_path tmpdir path_join os)) true
                        (now later),
                      later)
                 | Cancels =>
                     (Pending, initial,
                      snd (cancel (mkRecorder (Some p) (Some (temp_path tmpdir path_join os))
                                     false (startTime_ r)) later))
                 end
             end
         end.
Proof.
  unfold Recording.start, temp_path.
  destruct (isRecording r); [reflexivity|].
  destruct (getBestTool platform execSync) as [t|]; [|reflexivity].
  destruct (spawn _ _ _); [reflexivity | reflexivity |].
  destruct meanwhile; reflexivity.
Qed.

Lemma recording_args_last (t : RecordingToolInfo) (path : string) :
  last (recording_args t path) = Some path /\
  (exists before, recording_args t path = before ++ ["-r"; "16000"; "-c"; "1"] ++
                                          drop (length before + 4) (recording_args t path)).
Proof.
  unfold recording_args.
  destruct (tool t); [destruct (String.eqb (command t) "rec")| |
                      destruct (String.eqb (command t) "rec")].
  - split; [reflexivity | exists []; reflexivity].
  - split; [reflexivity | exists ["-d"]; reflexivity].
  - split; [reflexivity | exists ["-f"; "S16_LE"]; reflexivity].
  - split; [reflexivity | exists []; reflexivity].
  - split; [reflexivity | exists ["-d"]; reflexivity].
Qed.

Lemma stop_cases (r : Recorder) (os : Os) (p : ChildProcess) (path : string) :
  isRecording r = true -> process r = Some p -> tempFile r = Some path ->
  pid p ∈ running os ->
  Recording.stop readFileSync unlink_error r os
  = if bool_decide (path ∈ files os) then
      match readFileSync path (kill p os) with
      | inr buffer =>
          if bool_decide (path ∈ undeletable os)
          then (Rejected (unlink_error path), initial, kill p os)
          else (Resolved (buffer, "audio/wav"), initial,
                mkOs (files os ∖ {[path]}) (undeletable os) (running os ∖ {[pid p]})
                  (now os))
      | inl err => (Rejected err, initial, kill p os)
      end
    else (Rejected (Error "Recording file not found"), initial, kill p os).
Proof.
  intros Hrec Hproc Hfile Hlive. unfold Recording.stop, on_close.
  rewrite Hrec, Hproc, Hfile. rewrite (bool_decide_eq_true_2 _ Hlive).
  unfold existsSync, unlinkSync. cbn [kill files undeletable running now].
  destruct (bool_decide (path ∈ files os)); [|reflexivity].
  destruct (readFileSync path _); [reflexivity|].
  destruct (bool_decide (path ∈ undeletable os)); reflexivity.
Qed.

End LifecycleFacts.

Example start_then_stop_returns_the_recording :
  let started :=
    Recording.start "darwin" rec_installed "/tmp" posix_join spawns_4242 Recording.Waits
      AudioRecorderService.initial quiet_os in
  let recorded :=
    AudioRecorderService.mkOs {["/tmp/voice-transcriber-1700000000000.wav"]} ∅ {[4242]}
      1700000003100 in
  fst (fst started) = Resolved tt /\
  AudioRecorderService.tempFile (snd (fst started))
  = Some "/tmp/voice-transcriber-1700000000000.wav" /\
  AudioRecorderService.getElapsedTime (snd (fst started)) recorded = 3000%Z /\
  fst (fst (Recording.stop reads_three_bytes eperm (snd (fst started)) recorded))
  = Resolved (three_bytes, "audio/wav").
Proof. cbv zeta. repeat split. Qed.

(** A recorder that has exited when the timer fires: [start] resolves
    all the same, the service says it is recording, and [stop] then
    waits for a ['close'] that was emitted already. *)
Example start_does_not_see_a_dead_recorder :
  let started :=
    Recording.start "darwin" rec_installed "/tmp" posix_join dies_at_once Recording.Waits
      AudioRecorderService.initial quiet_os in
  fst (fst started) = Resolved tt /\
  AudioRecorderService.getIsRecording (snd (fst started)) = true /\
  AudioRecorderService.running (snd started) = ∅ /\
  fst (fst (Recording.stop reads_three_bytes eperm (snd (fst started)) (snd started)))
  = Pending.
Proof. cbv zeta. repeat split. Qed.

(** X22. [start] resolves exactly when the service is not recording, a
    tool was found, [spawn] returned a handle that reported no launch
    error, and the caller did not cancel before the 100 ms timer.  It
    does not look at the recorder itself: it resolves whether or not the
    process is still alive.  The service is then recording to a fresh
    temporary path with that handle, the spawned command is one the
    lookup found, its last argument is that path, the system is as the
    recorder left it ([start] itself touches no file and no process),
    and the elapsed time counts from the moment the timer fired. *)
Theorem start_resolves_when_tool_spawns
    (platform : string) (execSync : string -> bool) (tmpdir : string)
    (path_join : string -> string -> string)
    (spawn : string -> list string -> AudioRecorderService.Os -> Recording.SpawnResult)
    (meanwhile : Recording.Meanwhile)
    (r : AudioRecorderService.Recorder) (os : AudioRecorderService.Os) :
  let result := Recording.start platform execSync tmpdir path_join spawn meanwhile r os in
  let r' := snd (fst result) in
  let os' := snd result in
  let path := temp_path tmpdir path_join os in
  (fst (fst result) = Resolved tt <->
   AudioRecorderService.isRecording r = false /\
   meanwhile = Recording.Waits /\
   exists t p later,
     RecordingTools.getBestTool platform execSync = Some t /\
     spawn (RecordingTools.command t) (Recording.recording_args t path) os
     = Recording.Spawned p later) /\
  (fst (fst result) = Resolved tt ->
   exists t p later,
     RecordingTools.getBestTool platform execSync = Some t /\
     execSync (lookup_command platform +:+ " " +:+ RecordingTools.command t) = true /\
     spawn (RecordingTools.command t) (Recording.recording_args t path) os
     = Recording.Spawned p later /\
     last (Recording.recording_args t path) = Some path /\
     AudioRecorderService.recording r' path /\
     AudioRecorderService.process r' = Some p /\
     os' = later /\
     AudioRecorderService.getElapsedTime r' os' = 0%Z /\
     (forall after : AudioRecorderService.Os,
        AudioRecorderService.getElapsedTime r' after
        = (AudioRecorderService.now after - AudioRecorderService.now later)%Z)).
Proof.
  cbv zeta. rewrite start_cases. split.
  - destruct (AudioRecorderService.isRecording r);
      [split; [discriminate | intros [H _]; discriminate]|].
    destruct (RecordingTools.getBestTool platform execSync) as [t|];
      [|split; [discriminate | intros (_ & _ & t & p & later & H & _); discriminate]].
    destruct (spawn _ _ _) as [err|message|p later] eqn:Hspawn.
    + split; [discriminate|]. intros (_ & _ & t' & p & later & H & Hs).
      injection H as <-. rewrite Hspawn in Hs. discriminate.
    + split; [discriminate|]. intros (_ & _ & t' & p & later & H & Hs).
      injection H as <-. rewrite Hspawn in Hs. discriminate.
    + destruct meanwhile.
      * split; [|reflexivity]. intros _. split; [reflexivity|]. split; [reflexivity|].
        exists t, p, later. split; [reflexivity | exact Hspawn].
      * split; [discriminate|]. intros (_ & H & _). discriminate.
  - destruct (AudioRecorderService.isRecording r); [discriminate|].
    destruct (RecordingTools.getBestTool platform execSync) as [t|] eqn:Hbest;
      [|discriminate].
    destruct (spawn _ _ _) as [err|message|p later] eqn:Hspawn; try discriminate.
    destruct meanwhile; [|discriminate].
    intros _. exists t, p, later.
    destruct (getBestTool_found platform execSync t Hbest) as (_ & _ & Hfound & _).
    split; [reflexivity|]. split; [exact Hfound|]. split; [exact Hspawn|].
    split; [exact (proj1 (recording_args_last t _))|].
    cbn [fst snd]. split.
    { repeat split. eexists. reflexivity. }
    split; [reflexivity|]. split; [reflexivity|]. split.
    { unfold AudioRecorderService.getElapsedTime. cbn. lia. }
    intros after. reflexivity.
Qed.

(** X23. [start] rejects at once, leaving the service and the system
    untouched, with "Already recording" for a service that records and
    with "NO_RECORDING_TOOL" when no tool is available; when the process
    could not be launched it rejects and the service is reset.  No
    rejection leaves a recording half begun.  Its promise is never
    settled exactly when a process was launched and the caller cancels
    before the 100 ms timer: the timer then finds no process and does
    nothing.  The service is then at rest, the process is not running,
    and the temporary file is gone unless its removal fails. *)
Theorem start_rejects_cleanly
    (platform : string) (execSync : string -> bool) (tmpdir : string)
    (path_join : string -> string -> string)
    (spawn : string -> list string -> AudioRecorderService.Os -> Recording.SpawnResult)
    (meanwhile : Recording.Meanwhile)
    (r : AudioRecorderService.Recorder) (os : AudioRecorderService.Os) :
  let result := Recording.start platform execSync tmpdir path_join spawn meanwhile r os in
  let path := temp_path tmpdir path_join os in
  (AudioRecorderService.isRecording r = true ->
   result = (Rejected (Error "Already recording"), r, os)) /\
  (AudioRecorderService.isRecording r = false ->
   RecordingTools.isAvailable platform execSync = false ->
   result = (Rejected (Error "NO_RECORDING_TOOL"), r, os)) /\
  (forall e, fst (fst result) = Rejected e ->
     snd result = os /\
     AudioRecorderService.isRecording (snd (fst result))
     = AudioRecorderService.isRecording r /\
     (snd (fst result) = r \/ snd (fst result) = AudioRecorderService.initial)) /\
  (forall message t,
     AudioRecorderService.isRecording r = false ->
     RecordingTools.getBestTool platform execSync = Some t ->
     spawn (RecordingTools.command t) (Recording.recording_args t path) os
     = Recording.SpawnErrors message ->
     result = (Rejected (Error ("Failed to start recording: " +:+ message)),
               AudioRecorderService.initial, os)) /\
  (fst (fst result) = Pending <->
   AudioRecorderService.isRecording r = false /\
   meanwhile = Recording.Cancels /\
   exists t p later,
     RecordingTools.getBestTool platform execSync = Some t /\
     spawn (RecordingTools.command t) (Recording.recording_args t path) os
     = Recording.Spawned p later) /\
  (fst (fst result) = Pending ->
   exists t p later,
     RecordingTools.getBestTool platform execSync = Some t /\
     spawn (RecordingTools.command t) (Recording.recording_args t path) os
     = Recording.Spawned p later /\
     snd (fst result) = AudioRecorderService.initial /\
     (AudioRecorderService.pid p ∉ AudioRecorderService.running (snd result)) /\
     (Js.truthy path = true ->
      forall q, q ∈ AudioRecorderService.files (snd result) <->
                q ∈ AudioRecorderService.files later /\
                (q = path -> path ∈ AudioRecorderService.undeletable later))).
Proof.
  cbv zeta. rewrite start_cases. unfold RecordingTools.isAvailable.
  destruct (AudioRecorderService.isRecording r) eqn:Hrec.
  - split; [reflexivity|]. split; [discriminate|].
    split; [intros e _; cbn; auto|]. split; [discriminate|].
    split; [split; [discriminate | intros [H _]; discriminate] | discriminate].
  - destruct (RecordingTools.getBestTool platform execSync) as [t|].
    + destruct (spawn _ _ _) as [err|message|p later] eqn:Hspawn.
      * split; [discriminate|]. split; [discriminate|].
        split; [intros e _; cbn; auto|].
        split; [intros message' t' _ Ht Hs; injection Ht as <-; rewrite Hspawn in Hs;
                discriminate Hs|].
        split; [|discriminate].
        split; [discriminate|]. intros (_ & _ & t' & p & later & Ht & Hs).
        injection Ht as <-. rewrite Hspawn in Hs. discriminate.
      * split; [discriminate|]. split; [discriminate|].
        split; [intros e _; cbn; auto|].
        split; [intros message' t' _ Ht Hs; injection Ht as <-; rewrite Hspawn in Hs;
                injection Hs as ->; reflexivity|].
        split; [|discriminate].
        split; [discriminate|]. intros (_ & _ & t' & p & later & Ht & Hs).
        injection Ht as <-. rewrite Hspawn in Hs. discriminate.
      * destruct meanwhile.
        -- split; [discriminate|]. split; [discriminate|].
           split; [discriminate|].
           split; [intros message' t' _ Ht Hs; injection Ht as <-; rewrite Hspawn in Hs;
                   discriminate Hs|].
           split; [|discriminate].
           split; [discriminate|]. intros (_ & H & _). discriminate.
        -- split; [discriminate|]. split; [discriminate|].
           split; [discriminate|].
           split; [intros message' t' _ Ht Hs; injection Ht as <-; rewrite Hspawn in Hs;
                   discriminate Hs|].
           split.
           { split; [|reflexivity]. intros _. split; [reflexivity|].
             split; [reflexivity|]. exists t, p, later.
             split; [reflexivity | exact Hspawn]. }
           intros _. exists t, p, later.
           split; [reflexivity|]. split; [exact Hspawn|]. cbn [fst snd].
           split; [reflexivity|].
           split; [apply cancel_running; reflexivity|].
           intros Htruthy q. apply cancel_files; [reflexivity | exact Htruthy].
    + split; [discriminate|]. split; [reflexivity|].
      split; [intros e _; cbn; auto|]. split; [discriminate|].
      split; [|discriminate].
      split; [discriminate|]. intros (_ & _ & t & p & later & Ht & _). discriminate.
Qed.

Example start_without_tool :
  Recording.start "win32" (fun _ => false) "C:\Temp" posix_join spawns_4242 Recording.Waits
    AudioRecorderService.initial quiet_os
  = (Rejected (Error "NO_RECORDING_TOOL"), AudioRecorderService.initial, quiet_os).
Proof. reflexivity. Qed.

(** A caller that cancels before the timer: the promise of [start] is
    left unsettled, the recorder is killed and the service is at rest. *)
Example start_cancelled_before_the_timer :
  let started :=
    Recording.start "darwin" rec_installed "/tmp" posix_join spawns_4242 Recording.Cancels
      AudioRecorderService.initial quiet_os in
  fst (fst started) = Pending /\
  snd (fst started) = AudioRecorderService.initial /\
  4242 ∉ AudioRecorderService.running (snd started).
Proof.
  cbv zeta. split; [reflexivity|]. split; [reflexivity|].
  intros Hlive. vm_compute in Hlive. discriminate Hlive.
Qed.

(** What [stop] does to a live recording, but for the errors it
    rejects with. *)
Lemma stop_settles
    (readFileSync : string -> AudioRecorderService.Os -> JsError + Buffer)
    (unlink_error : string -> JsError)
    (r : AudioRecorderService.Recorder) (os : AudioRecorderService.Os)
    (p : AudioRecorderService.ChildProcess) (path : string) :
  AudioRecorderService.isRecording r = true ->
  AudioRecorderService.process r = Some p ->
  AudioRecorderService.tempFile r = Some path ->
  AudioRecorderService.pid p ∈ AudioRecorderService.running os ->
  let result := Recording.stop readFileSync unlink_error r os in
  let outcome := fst (fst result) in
  let os' := snd result in
  snd (fst result) = AudioRecorderService.initial /\
  (AudioRecorderService.pid p ∉ AudioRecorderService.running os') /\
  outcome <> Pending /\
  (forall buffer mimeType,
     outcome = Resolved (buffer, mimeType) <->
     path ∈ AudioRecorderService.files os /\
     (path ∉ AudioRecorderService.undeletable os) /\
     readFileSync path (AudioRecorderService.kill p os) = inr buffer /\
     mimeType = "audio/wav") /\
  ((exists audio, outcome = Resolved audio) ->
   (path ∉ AudioRecorderService.files os') /\
   forall q, q <> path ->
     (q ∈ AudioRecorderService.files os' <-> q ∈ AudioRecorderService.files os)) /\
  ((path ∉ AudioRecorderService.files os) ->
   outcome = Rejected (Error "Recording file not found")) /\
  (forall e, outcome = Rejected e ->
     AudioRecorderService.files os' = AudioRecorderService.files os).
Proof.
  intros Hrec Hproc Hfile Hlive. cbv zeta.
  rewrite (stop_cases readFileSync unlink_error r os p path Hrec Hproc Hfile Hlive).
  assert (Hdead : AudioRecorderService.pid p
                  ∉ AudioRecorderService.running os ∖ {[AudioRecorderService.pid p]}).
  { rewrite elem_of_difference, elem_of_singleton. tauto. }
  assert (Hrejected : forall (e : JsError),
    ~ (path ∈ AudioRecorderService.files os /\
       (path ∉ AudioRecorderService.undeletable os) /\
       exists buffer, readFileSync path (AudioRecorderService.kill p os) = inr buffer) ->
    ((path ∉ AudioRecorderService.files os) -> e = Error "Recording file not found") ->
    let result : Outcome (Buffer * string) * AudioRecorderService.Recorder *
                 AudioRecorderService.Os :=
      (Rejected e, AudioRecorderService.initial, AudioRecorderService.kill p os) in
    snd (fst result) = AudioRecorderService.initial /\
    (AudioRecorderService.pid p ∉ AudioRecorderService.running (snd result)) /\
    fst (fst result) <> Pending /\
    (forall buffer mimeType,
       fst (fst result) = Resolved (buffer, mimeType) <->
       path ∈ AudioRecorderService.files os /\
       (path ∉ AudioRecorderService.undeletable os) /\
       readFileSync path (AudioRecorderService.kill p os) = inr buffer /\
       mimeType = "audio/wav") /\
    ((exists audio, fst (fst result) = Resolved audio) ->
     (path ∉ AudioRecorderService.files (snd result)) /\
     forall q, q <> path ->
       (q ∈ AudioRecorderService.files (snd result) <-> q ∈ AudioRecorderService.files os)) /\
    ((path ∉ AudioRecorderService.files os) ->
     fst (fst result) = Rejected (Error "Recording file not found")) /\
    (forall e', fst (fst result) = Rejected e' ->
       AudioRecorderService.files (snd result) = AudioRecorderService.files os)).
  { intros e Hnot Hmissing. cbv zeta. cbn [fst snd].
    split; [reflexivity|]. split; [exact Hdead|]. split; [discriminate|].
    split; [intros b m; split; [discriminate|];
            intros (H1 & H2 & H3 & _); exfalso; apply Hnot;
            split; [exact H1 | split; [exact H2 | exists b; exact H3]]|].
    split; [intros [audio H]; discriminate|].
    split; [|intros e' _; reflexivity].
    intros Hmiss. rewrite (Hmissing Hmiss). reflexivity. }
  destruct (bool_decide_reflect (path ∈ AudioRecorderService.files os)) as [Hin|Hout].
  - destruct (readFileSync path _) as [err|buffer] eqn:Hread.
    + apply (Hrejected err).
      * intros (_ & _ & b & Hb). discriminate.
      * intros Hmiss. contradiction.
    + destruct (bool_decide_reflect (path ∈ AudioRecorderService.undeletable os))
        as [Hlocked|Hfree]; cbn [fst snd].
      * apply (Hrejected (unlink_error path)).
        -- intros (_ & Hfree & _). contradiction.
        -- intros Hmiss. contradiction.
      * split; [reflexivity|]. split; [exact Hdead|]. split; [discriminate|].
        split; [|split; [|split]].
        -- intros b m. split.
           ++ intros H. injection H as <- <-. auto.
           ++ intros (_ & _ & H & ->). injection H as ->. reflexivity.
        -- intros _. cbn [AudioRecorderService.files]. split.
           ++ rewrite elem_of_difference, elem_of_singleton. tauto.
           ++ intros q Hq. rewrite elem_of_difference, elem_of_singleton. tauto.
        -- intros H. contradiction.
        -- intros e H. discriminate.
  - apply (Hrejected (Error "Recording file not found")).
    + intros (Hin & _). contradiction.
    + intros _. reflexivity.
Qed.

(** X24. [stop] on a recording whose process is alive: the process is
    ended and the service is reset whatever happens next.  The call
    resolves exactly when the temporary file exists, can be read and can
    be removed; it then returns what was read, as "audio/wav", and the
    file is gone while every other file is kept.  When the file is
    missing the call rejects with "Recording file not found"; when
    reading or removing fails it rejects with that error and the file
    stays on disk. *)
Theorem stop_returns_and_removes_the_file
    (readFileSync : string -> AudioRecorderService.Os -> JsError + Buffer)
    (unlink_error : string -> JsError)
    (r : AudioRecorderService.Recorder) (os : AudioRecorderService.Os)
    (p : AudioRecorderService.ChildProcess) (path : string) :
  AudioRecorderService.isRecording r = true ->
  AudioRecorderService.process r = Some p ->
  AudioRecorderService.tempFile r = Some path ->
  AudioRecorderService.pid p ∈ AudioRecorderService.running os ->
  let result := Recording.stop readFileSync unlink_error r os in
  let outcome := fst (fst result) in
  let os' := snd result in
  snd (fst result) = AudioRecorderService.initial /\
  (AudioRecorderService.pid p ∉ AudioRecorderService.running os') /\
  outcome <> Pending /\
  (forall buffer mimeType,
     outcome = Resolved (buffer, mimeType) <->
     path ∈ AudioRecorderService.files os /\
     (path ∉ AudioRecorderService.undeletable os) /\
     readFileSync path (AudioRecorderService.kill p os) = inr buffer /\
     mimeType = "audio/wav") /\
  ((exists audio, outcome = Resolved audio) ->
   (path ∉ AudioRecorderService.files os') /\
   forall q, q <> path ->
     (q ∈ AudioRecorderService.files os' <-> q ∈ AudioRecorderService.files os)) /\
  ((path ∉ AudioRecorderService.files os) ->
   outcome = Rejected (Error "Recording file not found")) /\
  (forall e, outcome = Rejected e ->
     AudioRecorderService.files os' = AudioRecorderService.files os) /\
  (forall err,
     path ∈ AudioRecorderService.files os ->
     readFileSync path (AudioRecorderService.kill p os) = inl err ->
     outcome = Rejected err) /\
  (forall buffer,
     path ∈ AudioRecorderService.files os ->
     readFileSync path (AudioRecorderService.kill p os) = inr buffer ->
     path ∈ AudioRecorderService.undeletable os ->
     outcome = Rejected (unlink_error path)).
Proof.
  intros Hrec Hproc Hfile Hlive. cbv zeta.
  destruct (stop_settles readFileSync unlink_error r os p path Hrec Hproc Hfile Hlive)
    as (H1 & H2 & H3 & H4 & H5 & H6 & H7).
  split; [exact H1|]. split; [exact H2|]. split; [exact H3|]. split; [exact H4|].
  split; [exact H5|]. split; [exact H6|]. split; [exact H7|].
  rewrite (stop_cases readFileSync unlink_error r os p path Hrec Hproc Hfile Hlive).
  split.
  - intros err Hin Hread. rewrite (bool_decide_eq_true_2 _ Hin), Hread. reflexivity.
  - intros buffer Hin Hread Hlocked.
    rewrite (bool_decide_eq_true_2 _ Hin), Hread, (bool_decide_eq_true_2 _ Hlocked).
    reflexivity.
Qed.

Lemma stop_returns_and_removes_the_file_witness :
  fst (fst (Recording.stop reads_three_bytes eperm recording_4242 free_os))
  = Resolved (three_bytes, "audio/wav") /\
  stuck_path ∉ AudioRecorderService.files
                 (snd (Recording.stop reads_three_bytes eperm recording_4242 free_os)).
Proof.
  assert (Hlive : 4242 ∈ AudioRecorderService.running free_os).
  { cbn [free_os AudioRecorderService.running]. apply elem_of_singleton. reflexivity. }
  pose proof (stop_returns_and_removes_the_file reads_three_bytes eperm recording_4242
                free_os (AudioRecorderService.mkProcess 4242) stuck_path
                eq_refl eq_refl eq_refl Hlive) as H.
  cbv zeta in H. destruct H as (_ & _ & _ & Hiff & Hgone & _).
  assert (Hres : fst (fst (Recording.stop reads_three_bytes eperm recording_4242 free_os))
                 = Resolved (three_bytes, "audio/wav")).
  { apply Hiff. split; [|split; [|split; reflexivity]].
    - cbn [free_os AudioRecorderService.files]. apply elem_of_singleton. reflexivity.
    - cbn [free_os AudioRecorderService.undeletable]. apply not_elem_of_empty. }
  split; [exact Hres|]. apply Hgone. eexists. exact Hres.
Defined.

Lemma posix_join_nonempty (a b : string) : Js.truthy (posix_join a b) = true.
Proof. destruct a; reflexivity. Defined.

(** X25. Between calls the service is always either at rest, with no
    process, no path and the flag off, or recording, with the flag on, a
    process handle and a temporary path that is not empty: [start],
    [stop] and [cancel] all keep it so.  On a service at rest [stop]
    rejects with "Not recording" and [cancel] changes nothing. *)
Theorem recorder_idle_or_recording
    (platform : string) (execSync : string -> bool) (tmpdir : string)
    (path_join : string -> string -> string)
    (spawn : string -> list string -> AudioRecorderService.Os -> Recording.SpawnResult)
    (meanwhile : Recording.Meanwhile)
    (readFileSync : string -> AudioRecorderService.Os -> JsError + Buffer)
    (unlink_error : string -> JsError)
    (r : AudioRecorderService.Recorder) (os : AudioRecorderService.Os) :
  (forall a b, Js.truthy (path_join a b) = true) ->
  idle_or_recording r ->
  let start := Recording.start platform execSync tmpdir path_join spawn meanwhile in
  let stop := Recording.stop readFileSync unlink_error in
  idle_or_recording (snd (fst (start r os))) /\
  idle_or_recording (snd (fst (stop r os))) /\
  idle_or_recording (fst (AudioRecorderService.cancel r os)) /\
  (r = AudioRecorderService.initial ->
   stop r os = (Rejected (Error "Not recording"), r, os) /\
   AudioRecorderService.cancel r os = (r, os)).
Proof.
  intros Hjoin Hr. cbv zeta.
  split; [|split; [|split]].
  - rewrite start_cases.
    destruct (AudioRecorderService.isRecording r); [exact Hr|].
    destruct (RecordingTools.getBestTool platform execSync) as [t|]; [|exact Hr].
    destruct (spawn _ _ _) as [err|message|p later]; cbn [fst snd];
      [left; reflexivity | left; reflexivity |].
    destruct meanwhile; cbn [fst snd]; [|left; reflexivity].
    right. exists (temp_path tmpdir path_join os).
    split; [|apply Hjoin]. repeat split. eexists. reflexivity.
  - unfold Recording.stop.
    destruct (AudioRecorderService.isRecording r); [|exact Hr].
    destruct (AudioRecorderService.process r) as [p|]; [|exact Hr].
    destruct (bool_decide _); [|exact Hr].
    left. unfold Recording.on_close.
    destruct (AudioRecorderService.tempFile r) as [path|]; [|reflexivity].
    destruct (AudioRecorderService.existsSync _ _); [|reflexivity].
    destruct (readFileSync _ _); [reflexivity|].
    destruct (AudioRecorderService.unlinkSync _ _); reflexivity.
  - left. reflexivity.
  - intros ->. split; reflexivity.
Qed.

Lemma recorder_idle_or_recording_witness :
  idle_or_recording
    (snd (fst (Recording.start "darwin" rec_installed "/tmp" posix_join spawns_4242
                 Recording.Waits AudioRecorderService.initial quiet_os))) /\
  AudioRecorderService.isRecording
    (snd (fst (Recording.start "darwin" rec_installed "/tmp" posix_join spawns_4242
                 Recording.Waits AudioRecorderService.initial quiet_os))) = true.
Proof.
  split; [|reflexivity].
  exact (proj1 (recorder_idle_or_recording "darwin" rec_installed "/tmp" posix_join
                  spawns_4242 Recording.Waits reads_three_bytes eperm
                  AudioRecorderService.initial
                  quiet_os posix_join_nonempty (or_introl eq_refl))).
Defined.

